(** * Macleod: CLIF axioms, their normal-form pipeline and serializers

    A shallow embedding of the parts of the Macleod sources that turn
    logical sentences into prover input and classify prover output:

    - [macleod/logical/Axiom.py]: the [Axiom] wrapper, its id counter, the
      five pipeline stages, [ff_pcnf] with its debug messages, [to_tptp]
      and [to_ladr];
    - [macleod/parsing/Parser.py]: the grammar rules and their actions,
      [p_error], [get_line_number] and [parse_file];
    - [macleod/Reasoner.py]: [terminatedSuccessfully] with its handlers,
      [terminatedWithError], [terminatedUnknowingly] and [isDone].

    Python [str] values are modelled as byte strings; [str.upper] and
    [str.lower] are modelled on the ASCII letters (other bytes are kept),
    so the development speaks about ASCII names. Python [int] is [Z]. *)

From Stdlib Require Import String Ascii List ZArith Lia DecimalString DecimalZ
  DecimalPos.
From stdpp Require Import gmap strings list.

Set Warnings "-register-all".
Local Open Scope Z_scope.

(* ================================================================= *)
(** * Part I: definitions *)
(* ================================================================= *)

(** ** Python strings *)

Module PyStr.

Definition quote : string := String (ascii_of_nat 34) EmptyString.
Definition newline : string := String (ascii_of_nat 10) EmptyString.

Definition upper_char (c : ascii) : ascii :=
  let n := N_of_ascii c in
  if ((97 <=? n) && (n <=? 122))%N then ascii_of_N (n - 32) else c.

Definition lower_char (c : ascii) : ascii :=
  let n := N_of_ascii c in
  if ((65 <=? n) && (n <=? 90))%N then ascii_of_N (n + 32) else c.

Fixpoint map_chars (f : ascii -> ascii) (s : string) : string :=
  match s with
  | EmptyString => EmptyString
  | String c s' => String (f c) (map_chars f s')
  end.

(** [str.upper(s)] and [str.lower(s)] *)
Definition upper : string -> string := map_chars upper_char.
Definition lower : string -> string := map_chars lower_char.

(** [sep.join(l)] *)
Definition join (sep : string) (l : list string) : string :=
  String.concat sep l.

(** [''.join(l)] *)
Definition concat_all (l : list string) : string :=
  String.concat EmptyString l.

(** [s.startswith(p)] *)
Definition startswith (s p : string) : bool := String.prefix p s.

(** [sub in s] *)
Fixpoint contains (sub s : string) : bool :=
  String.prefix sub s ||
  match s with
  | EmptyString => false
  | String _ s' => contains sub s'
  end.

(** [s.count(c)] for a one-character needle *)
Fixpoint count_char (c : ascii) (s : string) : nat :=
  match s with
  | EmptyString => 0%nat
  | String d s' =>
      ((if Ascii.eqb c d then 1 else 0) + count_char c s')%nat
  end.

(** [s[:pos]] *)
Definition slice_to (s : string) (pos : nat) : string :=
  String.substring 0 pos s.

(** [str(n)] for an integer *)
Definition of_int (z : Z) : string :=
  NilZero.string_of_int (Z.to_int z).

End PyStr.

(** ** Exceptions: a small error monad *)

Inductive PyExc : Type :=
| IndexError
| TypeError (msg : string)
| ValueError (msg : string).

Inductive result (A : Type) : Type :=
| Return (a : A)
| Raise (e : PyExc).

Arguments Return {A} a.
Arguments Raise {A} e.

Definition bind {A B : Type} (m : result A) (k : A -> result B) : result B :=
  match m with
  | Return a => k a
  | Raise e => Raise e
  end.

Notation "'do' x <- m ; k" := (bind m (fun x => k))
  (at level 10, x name, m at level 100, k at level 200).

(** A list comprehension whose body may raise: the first exception wins. *)
Definition mapM {A B : Type} (f : A -> result B) : list A -> result (list B) :=
  fix go (l : list A) : result (list B) :=
    match l with
    | [] => Return []
    | x :: l' => do y <- f x ; do ys <- go l' ; Return (y :: ys)
    end.

(** ** The logical AST ([logical/Symbol.py], [Negation.py], [Connective.py],
       [Quantifier.py])

    The arguments of a predicate or function are Python strings (variable
    or constant names) or nested [Function] objects; sentences are the six
    remaining node kinds. *)

Inductive Term : Type :=
| Var (name : string)
| Function (name : string) (variables : list Term).

Inductive Logical : Type :=
| Predicate (name : string) (variables : list Term)
| Negation (term : Logical)
| Conjunction (terms : list Logical)
| Disjunction (terms : list Logical)
| Universal (variables : list string) (term : Logical)
| Existential (variables : list string) (term : Logical).

(** Modelled from the spec: [Predicate.is_equality] of [logical/Symbol.py],
    which is not among the sources; the data model says that the name [=]
    marks an equality predicate. *)
Definition is_equality (name : string) : bool := String.eqb name "=".

(** ** The [Axiom] class as a value: a sentence and its id ([Axiom] is a
       reserved word here, the record is called [Ax]) *)

Record Ax : Type := mkAx { sentence : Logical; id : Z }.

(** ** [Axiom.to_tptp] *)

Fixpoint tptp_term (t : Term) : string :=
  match t with
  | Var s => PyStr.upper s
  | Function name vs =>
      PyStr.lower name +:+ "(" +:+ PyStr.join "," (map tptp_term vs) +:+ ")"
  end.

(** The template [! [{}] : ] repeated [len(vs)] times and filled with the
    upper-cased variables, one per slot. *)
Definition tptp_quantifier_prefix (q : string) (vs : list string) : string :=
  PyStr.concat_all (map (fun v => q +:+ " [" +:+ PyStr.upper v +:+ "] : ") vs).

Fixpoint tptp_logical (l : Logical) : result string :=
  match l with
  | Predicate name vs =>
      if is_equality name then
        match vs with
        | a :: b :: _ => Return (tptp_term a +:+ name +:+ tptp_term b)
        | _ => Raise IndexError
        end
      else
        Return (PyStr.lower name +:+ "(" +:+
                PyStr.join "," (map tptp_term vs) +:+ ")")
  | Negation t =>
      match t with
      | Negation t' => tptp_logical t'
      | Predicate _ _ => do s <- tptp_logical t ; Return ("~(" +:+ s +:+ ")")
      | _ => do s <- tptp_logical t ; Return ("~" +:+ s)
      end
  | Conjunction ts =>
      do ss <- mapM tptp_logical ts ;
      Return ("(" +:+ PyStr.join " & " ss +:+ ")")
  | Disjunction ts =>
      do ss <- mapM tptp_logical ts ;
      Return ("(" +:+ PyStr.join " | " ss +:+ ")")
  | Universal vs t =>
      do s <- tptp_logical t ;
      Return ("(" +:+ tptp_quantifier_prefix "!" vs +:+ " (" +:+ s +:+ "))")
  | Existential vs t =>
      do s <- tptp_logical t ;
      Return ("(" +:+ tptp_quantifier_prefix "?" vs +:+ " (" +:+ s +:+ "))")
  end.

Definition to_tptp (a : Ax) : result string :=
  do body <- tptp_logical (sentence a) ;
  Return ("fof(axiom" +:+ PyStr.of_int (id a * 10) +:+ ", axiom, " +:+
          body +:+ ").").

(** ** [Axiom.to_ladr] *)

(** [",".join(logical.variables)] only accepts strings. *)
Definition names_only (vs : list Term) : result (list string) :=
  mapM (fun t => match t with
                 | Var s => Return s
                 | Function _ _ =>
                     Raise (TypeError "sequence item: expected str instance")
                 end) vs.

Definition ladr_term (t : Term) : result string :=
  match t with
  | Var s => Return s
  | Function name vs =>
      do ns <- names_only vs ;
      Return (name +:+ "(" +:+ PyStr.join "," ns +:+ ")")
  end.

(** The template [all {} ] repeated [len(vs)] times and filled with the
    variables, one per slot. *)
Definition ladr_quantifier_prefix (q : string) (vs : list string) : string :=
  PyStr.concat_all (map (fun v => q +:+ " " +:+ v +:+ " ") vs).

Fixpoint ladr_logical (l : Logical) : result string :=
  match l with
  | Predicate name vs =>
      do ss <- mapM ladr_term vs ;
      Return (name +:+ "(" +:+ PyStr.join "," ss +:+ ")")
  | Negation t =>
      match t with
      | Negation t' => ladr_logical t'
      | Predicate _ _ => do s <- ladr_logical t ; Return ("-(" +:+ s +:+ ")")
      | _ => do s <- ladr_logical t ; Return ("-" +:+ s)
      end
  | Conjunction ts =>
      do ss <- mapM ladr_logical ts ;
      Return ("(" +:+ PyStr.join " & " ss +:+ ")")
  | Disjunction ts =>
      do ss <- mapM ladr_logical ts ;
      Return ("(" +:+ PyStr.join " | " ss +:+ ")")
  | Universal vs t =>
      do s <- ladr_logical t ;
      Return ("(" +:+ ladr_quantifier_prefix "all" vs +:+ " " +:+ s +:+ ")")
  | Existential vs t =>
      do s <- ladr_logical t ;
      Return ("(" +:+ ladr_quantifier_prefix "exists" vs +:+ " " +:+ s +:+ ")")
  end.

Definition to_ladr (a : Ax) : result string :=
  do body <- ladr_logical (sentence a) ;
  Return (body +:+ ".").

(** ** The TPTP rendering in the words of the specification

    The rendering as the specification words it, to be compared with
    [tptp_logical]: a quantifier is written once, with all its variables
    in one bracket, [! [V,...] : (body)]. *)

Fixpoint spec_tptp_logical (l : Logical) : result string :=
  match l with
  | Predicate name vs =>
      if is_equality name then
        match vs with
        | a :: b :: _ => Return (tptp_term a +:+ name +:+ tptp_term b)
        | _ => Raise IndexError
        end
      else
        Return (PyStr.lower name +:+ "(" +:+
                PyStr.join "," (map tptp_term vs) +:+ ")")
  | Negation t =>
      match t with
      | Negation t' => spec_tptp_logical t'
      | Predicate _ _ => do s <- spec_tptp_logical t ; Return ("~(" +:+ s +:+ ")")
      | _ => do s <- spec_tptp_logical t ; Return ("~" +:+ s)
      end
  | Conjunction ts =>
      do ss <- mapM spec_tptp_logical ts ;
      Return ("(" +:+ PyStr.join " & " ss +:+ ")")
  | Disjunction ts =>
      do ss <- mapM spec_tptp_logical ts ;
      Return ("(" +:+ PyStr.join " | " ss +:+ ")")
  | Universal vs t =>
      do s <- spec_tptp_logical t ;
      Return ("! [" +:+ PyStr.join "," (map PyStr.upper vs) +:+ "] : (" +:+
              s +:+ ")")
  | Existential vs t =>
      do s <- spec_tptp_logical t ;
      Return ("? [" +:+ PyStr.join "," (map PyStr.upper vs) +:+ "] : (" +:+
              s +:+ ")")
  end.

Definition spec_to_tptp (a : Ax) : result string :=
  do body <- spec_tptp_logical (sentence a) ;
  Return ("fof(axiom" +:+ PyStr.of_int (id a * 10) +:+ ", axiom, " +:+
          body +:+ ").").

(** The axiom [forall x y. p(x,y)] with id 1. *)
Definition two_variables : Ax :=
  mkAx (Universal ["x"; "y"] (Predicate "p" [Var "x"; Var "y"])) 1.

(** ** [Reasoner.terminatedSuccessfully]: the Vampire classifier
       ([macleod/Reasoner.py]) *)

Module Reasoner.

(** Modelled from the spec: the status constants of [Ontology.py], which
    is not among the sources: the closed status set of section 6, six
    statuses. *)
Inductive Status : Type :=
| PROOF | INCONSISTENT | COUNTEREXAMPLE | CONSISTENT | UNKNOWN | ERROR.

Definition Status_eqb (a b : Status) : bool :=
  match a, b with
  | PROOF, PROOF | INCONSISTENT, INCONSISTENT
  | COUNTEREXAMPLE, COUNTEREXAMPLE | CONSISTENT, CONSISTENT
  | UNKNOWN, UNKNOWN | ERROR, ERROR => true
  | _, _ => false
  end.

(** The dictionary [mapping]; the key [None] is an unset [self.output]. *)
Definition mapping (o : option Status) : bool :=
  match o with
  | Some PROOF | Some COUNTEREXAMPLE | Some CONSISTENT
  | Some INCONSISTENT => true
  | Some ERROR | Some UNKNOWN | None => false
  end.

Definition vampire_status (line : string) : Status :=
  if PyStr.contains "Refutation not found" line then UNKNOWN
  else if PyStr.contains "Refutation" line then PROOF
  else if PyStr.contains "Unsatisfiable" line then INCONSISTENT
  else if PyStr.contains "CounterSatisfiable" line then COUNTEREXAMPLE
  else if PyStr.contains "Satisfiable" line then CONSISTENT
  else UNKNOWN.

Definition lines_starting (p : string) (lines : list string) : list string :=
  List.filter (fun x => PyStr.startswith x p) lines.

(** [success_vampire], on the lines read from the output file; the result
    is the new [self.output] and the returned truth value. *)
Definition success_vampire (lines : list string) : Status * bool :=
  let output_lines := lines_starting "Termination reason:" lines in
  let l := length output_lines in
  let output :=
    match l with
    | O => UNKNOWN
    | S _ =>
        match nth_error output_lines (l - 1) with
        | Some line =>
            let output := vampire_status line in
            if Status_eqb output UNKNOWN then
              let output_lines := lines_starting "Parser exception:" lines in
              if (0 <? length output_lines)%nat then ERROR else output
            else output
        | None => UNKNOWN
        end
    end in
  (output, mapping (Some output)).

(** The classification in the words of the specification: the keyword
    found in the last [Termination reason:] line decides, [Refutation]
    meaning a proof; a [Parser exception:] line turns UNKNOWN into
    ERROR. *)
Definition spec_vampire_keyword (line : string) : Status :=
  if PyStr.contains "Refutation" line then PROOF
  else if PyStr.contains "Unsatisfiable" line then INCONSISTENT
  else if PyStr.contains "CounterSatisfiable" line then COUNTEREXAMPLE
  else if PyStr.contains "Satisfiable" line then CONSISTENT
  else UNKNOWN.

Definition spec_vampire (lines : list string) : Status :=
  match List.last (map Some (lines_starting "Termination reason:" lines)) None with
  | None => UNKNOWN
  | Some line =>
      match spec_vampire_keyword line with
      | UNKNOWN =>
          match lines_starting "Parser exception:" lines with
          | [] => UNKNOWN
          | _ :: _ => ERROR
          end
      | st => st
      end
  end.

End Reasoner.

(** ** The parser's error reporting and [parse_file]
       ([macleod/parsing/Parser.py]) *)

Module Parser.

(** A lexer token: its type, its text and its offset in the input. *)
Record LexToken : Type :=
  mkTok { tok_type : string; tok_value : string; lexpos : nat }.

(** The value carried by a symbol of the parse stack: a string (tokens),
    a list (the [nonlogicals] and [parameter] rules build lists), or any
    other object (a logical, [None]). *)
Inductive PyValue : Type :=
| VStr (s : string)
| VList (items : list PyValue)
| VObj.

Record Symbol : Type := mkSym { sym_type : string; sym_value : PyValue }.

Definition get_line_number (s : string) (pos : nat) : nat :=
  (PyStr.count_char (ascii_of_nat 10) (PyStr.slice_to s pos) + 1)%nat.

(** [next((stack.index(x) for x in stack[::-1] if x.type == 'axiom'),
    len(stack))]: stack symbols compare by identity, so the index found
    is the position of the topmost symbol of type [axiom]. *)
Fixpoint topmost_axiom (stack : list Symbol) (i : nat) (found : option nat)
  : option nat :=
  match stack with
  | [] => found
  | x :: stack' =>
      topmost_axiom stack' (S i)
        (if String.eqb (sym_type x) "axiom" then Some i else found)
  end.

Definition index_current_axiom (stack : list Symbol) : nat :=
  match topmost_axiom stack 0 None with
  | Some i => i
  | None => length stack
  end.

Definition count_lparens (l : list Symbol) : nat :=
  length (List.filter (fun x => String.eqb (sym_type x) "LPAREN") l).

(** The change of [lparens] made by one lookahead token. *)
Definition paren_step (lparens : nat) (t : LexToken) : nat :=
  if String.eqb (tok_type t) "RPAREN" then (lparens - 1)%nat
  else if String.eqb (tok_type t) "LPAREN" then (lparens + 1)%nat
  else lparens.

(** The [while lparens != 0] loop over [parser.token()]: the tokens
    consumed and the tokens left in the lexer. *)
Fixpoint lookahead (lparens : nat) (rest : list LexToken)
  : list LexToken * list LexToken :=
  match lparens with
  | O => ([], rest)
  | S _ =>
      match rest with
      | [] => ([], [])
      | t :: rest' =>
          let '(taken, remaining) := lookahead (paren_step lparens t) rest' in
          (t :: taken, remaining)
      end
  end.

(** The value of [lparens] after the tokens [toks]. *)
Definition paren_depth (lparens : nat) (toks : list LexToken) : nat :=
  fold_left paren_step toks lparens.

(** [''.join([x + '̲' for x in value])]: a combining underline
    (two bytes in UTF-8) after every character of an ASCII token. *)
Fixpoint underbar (value : string) : string :=
  match value with
  | EmptyString => EmptyString
  | String c value' =>
      String c (String (ascii_of_nat 204) (String (ascii_of_nat 178)
        (underbar value')))
  end.

Definition sym_of_token (t : LexToken) : Symbol :=
  mkSym (tok_type t) (VStr (tok_value t)).

(** The pieces appended to [axiom_string] for one symbol. *)
Definition axiom_pieces (x : Symbol) : result (list string) :=
  match sym_value x with
  | VStr raw => Return [raw +:+ " "]
  | VList items =>
      mapM (fun sub => match sub with
                       | VStr sub_token => Return (sub_token +:+ " ")
                       | _ => Raise (TypeError "unsupported operand type(s) for +")
                       end) items
  | VObj => Return []
  end.

(** The line number printed by [p_error]:
    [string_up_to_error.count(newline)]. *)
Definition p_error_line (lexdata : string) (error_pos : nat) : nat :=
  PyStr.count_char (ascii_of_nat 10) (PyStr.slice_to lexdata error_pos).

Record Diagnostic : Type := mkDiag {
  diag_line : nat;
  diag_token : string;
  diag_axiom : string;
  diag_types : string
}.

Definition diag_message (d : Diagnostic) : string :=
  "Error at line " +:+ PyStr.of_int (Z.of_nat (diag_line d)) +:+
  "! Unexpected Token: '" +:+ diag_token d +:+ "' :: " +:+
  PyStr.quote +:+ diag_axiom d +:+ PyStr.quote +:+
  PyStr.newline +:+ PyStr.newline +:+ diag_types d.

(** [p_error(p)]: [symstack] is [parser.symstack], [rest] the tokens the
    lexer has not yet delivered, [lexdata] the text being parsed. The
    result is the printed diagnostic, the returned token (its value
    underlined) and the tokens left after the lookahead. *)
Definition p_error (p : option LexToken) (symstack : list Symbol)
    (rest : list LexToken) (lexdata : string)
  : result (Diagnostic * LexToken * list LexToken) :=
  match p with
  | None => Raise (TypeError "Unexpectedly reached EOF")
  | Some p =>
      let error_pos := lexpos p in
      let stack := List.tl symstack in
      let current_axiom := drop (index_current_axiom stack) stack in
      let lparens := count_lparens (current_axiom ++ [sym_of_token p]) in
      let '(lookahead_tokens, remaining) := lookahead lparens rest in
      let overbar_error := underbar (tok_value p) in
      let p' := mkTok (tok_type p) overbar_error (lexpos p) in
      let current_axiom :=
        current_axiom ++ [sym_of_token p'] ++ map sym_of_token lookahead_tokens in
      do pieces <- mapM axiom_pieces current_axiom ;
      let types := map sym_type stack in
      Return (mkDiag (p_error_line lexdata error_pos)
                     (tok_value p')
                     (PyStr.concat_all (List.concat pieces))
                     (PyStr.join " " types),
              p', remaining)
  end.

(** What the grammar hands back for one top-level statement: a logical
    (an axiom), a string (an import) or [None] (a comment). *)
Inductive Parsed : Type :=
| PLogical (l : Logical)
| PImport (uri : string)
| PNone.

(** Modelled from the spec: the [Ontology] class of [Ontology.py], which is
    not among the sources: an ordered sequence of axioms and an ordered
    sequence of import URIs, with a name and a base path. *)
Record Ontology : Type := mkOntology {
  onto_path : string;
  onto_name : string;
  onto_basepath : option (option string * option string);
  onto_axioms : list Logical;
  onto_imports : list string;
  onto_resolved : bool
}.

Definition Ontology_new (path : string) : Ontology :=
  mkOntology path path None [] [] false.

Definition set_name (o : Ontology) (n : string) : Ontology :=
  mkOntology (onto_path o) n (onto_basepath o) (onto_axioms o)
             (onto_imports o) (onto_resolved o).

Definition set_basepath (o : Ontology) (sub base : option string) : Ontology :=
  mkOntology (onto_path o) (onto_name o) (Some (sub, base)) (onto_axioms o)
             (onto_imports o) (onto_resolved o).

Definition add_axiom (o : Ontology) (l : Logical) : Ontology :=
  mkOntology (onto_path o) (onto_name o) (onto_basepath o)
             (onto_axioms o ++ [l]) (onto_imports o) (onto_resolved o).

Definition add_import (o : Ontology) (uri : string) : Ontology :=
  mkOntology (onto_path o) (onto_name o) (onto_basepath o) (onto_axioms o)
             (onto_imports o ++ [uri]) (onto_resolved o).

(** What [parse_file] takes from outside the repository: the path
    functions and the file system of [os], and the parser that PLY
    generates from the grammar rules. *)
Record Env : Type := mkEnv {
  (** [os.path.normpath(os.path.join(base, path))] *)
  normjoin : option string -> string -> result string;
  (** the regular files and their contents *)
  files : string -> option string;
  (** [yacc.parse(buff)]; [None] when the parser gives up *)
  yacc_parse : string -> result (option (list Parsed));
  (** [ontology.resolve_imports(resolve)] *)
  resolve_imports : Ontology -> result Ontology
}.

Definition add_parsed (o : Ontology) (x : Parsed) : Ontology :=
  match x with
  | PLogical l => add_axiom o l
  | PImport uri => add_import o uri
  | PNone => o
  end.

Definition parse_file (env : Env) (path : string) (sub base : option string)
    (resolve : bool) (name : option string) : result (option Ontology) :=
  do path <- normjoin env base path ;
  match files env path with
  | None => Return None
  | Some buff =>
      let ontology := Ontology_new path in
      let ontology :=
        match name with Some n => set_name ontology n | None => ontology end in
      if String.eqb buff EmptyString then Return None
      else
        do parsed_objects <- yacc_parse env buff ;
        let ontology := set_basepath ontology sub base in
        match parsed_objects with
        | None => Raise (TypeError "'NoneType' object is not iterable")
        | Some objs =>
            let ontology := fold_left add_parsed objs ontology in
            if resolve then
              do ontology <- resolve_imports env ontology ; Return (Some ontology)
            else Return (Some ontology)
        end
  end.

(** *** Inputs used by the theorems *)

(** The text [(and )] and the parser at its closing parenthesis: the
    stack holds the end marker, [(] and [and]. *)
Definition broken_text : string := "(and )".
Definition broken_token : LexToken := mkTok "RPAREN" ")" 5.
Definition broken_stack : list Symbol :=
  [mkSym "$end" VObj; mkSym "LPAREN" (VStr "("); mkSym "AND" (VStr "and")].


(** The environment of an empty file [empty.clif] in the directory [.];
    [os.path.join] refuses a base that is [None]. *)
Definition empty_file_env : Env :=
  mkEnv (fun base path =>
           match base with
           | None =>
               Raise (TypeError "expected str, bytes or os.PathLike object")
           | Some b =>
               if String.eqb b "." then Return path
               else Return (b +:+ "/" +:+ path)
           end)
        (fun path => if String.eqb path "empty.clif" then Some EmptyString else None)
        (fun _ => Raise (TypeError "Unexpectedly reached EOF"))
        (fun o => Return o).

End Parser.

(** ** The object store: [copy.deepcopy], [Axiom.__init__] and the stages as
       they act on shared, mutable objects *)

Module Store.

(** An object identity ([id(x)] in Python). *)
Definition loc := nat.

Inductive Class : Type :=
| CPredicate | CFunction | CNegation | CConjunction | CDisjunction
| CUniversal | CExistential.

(** An element of an attribute list: a string or a reference. *)
Inductive PyRef : Type :=
| RStr (s : string)
| RObj (l : loc).

(** A logical object: its class and its attributes [name], [variables]
    and [terms] (an attribute a class does not have is left empty). *)
Record Obj : Type := mkObj {
  cls : Class;
  name : string;
  variables : list PyRef;
  terms : list PyRef
}.

Definition ref_locs (rs : list PyRef) : list loc :=
  omap (fun r => match r with RObj l => Some l | RStr _ => None end) rs.

Definition refs (o : Obj) : list loc :=
  ref_locs (variables o) ++ ref_locs (terms o).

(** The state of the interpreter that matters here: the objects and the
    class attribute [Axiom.axiom_id]. *)
Record World : Type := mkWorld { heap : gmap loc Obj; axiom_id : Z }.

(** An [Axiom] object: a reference to its sentence and its id. *)
Record AxiomObj : Type := mkAxiomObj { sentence : loc; id : Z }.

(** [copy.deepcopy] over attribute lists: the elements are copied from
    left to right, strings are atomic and shared. *)
Definition copy_refs
    (rec : gmap loc Obj -> gmap loc loc -> loc ->
           option (gmap loc Obj * gmap loc loc * loc))
  : gmap loc Obj -> gmap loc loc -> list PyRef ->
    option (gmap loc Obj * gmap loc loc * list PyRef) :=
  fix go h memo rs :=
    match rs with
    | [] => Some (h, memo, [])
    | RStr s :: rs' =>
        '(h', memo', out) ← go h memo rs';
        Some (h', memo', RStr s :: out)
    | RObj l :: rs' =>
        '(h1, memo1, l') ← rec h memo l;
        '(h2, memo2, out) ← go h1 memo1 rs';
        Some (h2, memo2, RObj l' :: out)
    end.

(** [copy.deepcopy(x, memo)]: an object met before is answered from the
    memo, so sharing inside the copy is as in the original; otherwise
    the attributes are copied and a new object is allocated. [fuel]
    bounds the depth of the recursion; [None] is a [RecursionError] (or a
    dangling reference, which Python does not have). *)
Fixpoint deepcopy (fuel : nat) (h : gmap loc Obj) (memo : gmap loc loc)
    (x : loc) : option (gmap loc Obj * gmap loc loc * loc) :=
  match fuel with
  | O => None
  | S fuel' =>
      match memo !! x with
      | Some y => Some (h, memo, y)
      | None =>
          o ← h !! x;
          '(h1, memo1, vs) ← copy_refs (deepcopy fuel') h memo (variables o);
          '(h2, memo2, ts) ← copy_refs (deepcopy fuel') h1 memo1 (terms o);
          let y := fresh (dom h2) in
          Some (<[y := mkObj (cls o) (name o) vs ts]> h2, <[x := y]> memo2, y)
      end
  end.

(** [Axiom.__init__]: the sentence must be a logical object; the id is
    the counter, which is then incremented. [None] is the [ValueError]. *)
Definition Axiom_init (h : gmap loc Obj) (counter : Z) (s : loc)
  : option (AxiomObj * World) :=
  match h !! s with
  | Some _ => Some (mkAxiomObj s counter, mkWorld h (counter + 1))
  | None => None
  end.

(** The functions of [logical/Utils.py], [Logical.py], [Connective.py]
    and [Quantifier.py] that the stages call. They are not among the
    sources and are taken as parameters: each acts on the store and
    returns a reference. *)
Record Util : Type := mkUtil {
  dfs_functions : gmap loc Obj -> loc -> gmap loc Obj * loc;
  dfs_standardize : gmap loc Obj -> loc -> gmap loc Obj * loc;
  dfs_negate : gmap loc Obj -> loc -> gmap loc Obj * loc;
  to_onf : gmap loc Obj -> loc -> gmap loc Obj * loc;
  reverse_bfs : gmap loc Obj -> loc -> list (loc * option loc);
  coalesce : gmap loc Obj -> loc -> gmap loc Obj * loc;
  rescope : gmap loc Obj -> loc -> option loc -> gmap loc Obj * loc;
  remove_term : gmap loc Obj -> loc -> loc -> gmap loc Obj;
  set_term : gmap loc Obj -> loc -> loc -> gmap loc Obj;
  simplify : gmap loc Obj -> loc -> gmap loc Obj * loc
}.

(** [isinstance(x, Connective.Connective)] *)
Definition is_connective (h : gmap loc Obj) (x : loc) : bool :=
  match h !! x with
  | Some o =>
      match cls o with
      | CConjunction | CDisjunction => true
      | _ => false
      end
  | None => false
  end.

(** [isinstance(x, Quantifier.Quantifier)] *)
Definition is_quantifier (h : gmap loc Obj) (x : loc) : bool :=
  match h !! x with
  | Some o =>
      match cls o with
      | CUniversal | CExistential => true
      | _ => false
      end
  | None => false
  end.

(** The common shape of four stages: copy, transform the copy, wrap. *)
Definition stage (f : gmap loc Obj -> loc -> gmap loc Obj * loc)
    (fuel : nat) (w : World) (a : AxiomObj) : option (AxiomObj * World) :=
  '(h1, _, ret_object) ← deepcopy fuel (heap w) ∅ (sentence a);
  let '(h2, r) := f h1 ret_object in
  Axiom_init h2 (axiom_id w) r.

Definition substitute_functions (U : Util) := stage (dfs_functions U).
Definition standardize_variables (U : Util) := stage (dfs_standardize U).
Definition push_negation (U : Util) := stage (dfs_negate U).
Definition distribute_disjunctions (U : Util) := stage (to_onf U).

(** One iteration of the loop of [create_prenex]. *)
Definition prenex_step (U : Util) (st : gmap loc Obj * loc)
    (tp : loc * option loc) : gmap loc Obj * loc :=
  let '(h, ret_obj) := st in
  let '(term, parent) := tp in
  if is_connective h term then
    let '(h1, coalesced_term) := coalesce U h term in
    let '(h2, scoped_term) :=
      if is_connective h1 coalesced_term
      then rescope U h1 coalesced_term parent
      else (h1, coalesced_term) in
    match parent with
    | Some par =>
        (set_term U (remove_term U h2 par term) par scoped_term, ret_obj)
    | None => (h2, scoped_term)
    end
  else (h, ret_obj).

Definition prenex_body (U : Util) (h : gmap loc Obj) (ret_obj : loc)
  : gmap loc Obj * loc :=
  let queue := reverse_bfs U h ret_obj in
  let '(h2, ret_obj) := fold_left (prenex_step U) queue (h, ret_obj) in
  if is_quantifier h2 ret_obj then simplify U h2 ret_obj else (h2, ret_obj).

Definition create_prenex (U : Util) := stage (prenex_body U).

Inductive Stage : Type :=
| SubstituteFunctions | StandardizeVariables | PushNegation
| CreatePrenex | DistributeDisjunctions.

Definition run_stage (s : Stage) (U : Util)
  : nat -> World -> AxiomObj -> option (AxiomObj * World) :=
  match s with
  | SubstituteFunctions => substitute_functions U
  | StandardizeVariables => standardize_variables U
  | PushNegation => push_negation U
  | CreatePrenex => create_prenex U
  | DistributeDisjunctions => distribute_disjunctions U
  end.

(** *** Shapes and reachability in the store *)

(** [x] is the root of a finite structure of height at most [n], all of
    whose objects exist. *)
Fixpoint tree (n : nat) (h : gmap loc Obj) (x : loc) : Prop :=
  match n with
  | O => False
  | S n' => exists o, h !! x = Some o /\ forall r, r ∈ refs o -> tree n' h r
  end.

Definition ref_rel (R : loc -> loc -> Prop) (r1 r2 : PyRef) : Prop :=
  match r1, r2 with
  | RStr s1, RStr s2 => s1 = s2
  | RObj l1, RObj l2 => R l1 l2
  | _, _ => False
  end.

(** The structure under [x] in [h1] and the one under [y] in [h2] are
    equal as values: same classes, names and strings, position by
    position. *)
Fixpoint same_value (n : nat) (h1 h2 : gmap loc Obj) (x y : loc) : Prop :=
  match n with
  | O => False
  | S n' =>
      exists o1 o2,
        h1 !! x = Some o1 /\ h2 !! y = Some o2 /\
        cls o1 = cls o2 /\ name o1 = name o2 /\
        Forall2 (ref_rel (same_value n' h1 h2)) (variables o1) (variables o2) /\
        Forall2 (ref_rel (same_value n' h1 h2)) (terms o1) (terms o2)
  end.

(* [reach h x y]: the object [y] is part of the structure under [x]. *)
Inductive reach (h : gmap loc Obj) : loc -> loc -> Prop :=
| reach_here x : reach h x x
| reach_child x o r y :
    h !! x = Some o -> r ∈ refs o -> reach h r y -> reach h x y.

(** Objects outside [old] only refer to objects outside [old]. *)
Definition closed_outside (old : gset loc) (h : gmap loc Obj) : Prop :=
  forall l o r, h !! l = Some o -> l ∉ old -> r ∈ refs o -> r ∉ old.

(** [h] still holds every object of [h0] as it was, and nothing allocated
    since refers into [h0]. *)
Definition frame (h0 h : gmap loc Obj) : Prop :=
  h0 ⊆ h /\ closed_outside (dom h0) h.

(** A function of the store is confined when, called on objects that were
    allocated after [h0] was taken, it neither changes nor hands out an
    object of [h0], and frees nothing. *)
Definition confined1 (f : gmap loc Obj -> loc -> gmap loc Obj * loc) : Prop :=
  forall h0 h x, frame h0 h -> x ∉ dom h0 -> is_Some (h !! x) ->
    frame h0 (fst (f h x)) /\ dom h ⊆ dom (fst (f h x)) /\
    (snd (f h x) ∉ dom h0) /\ is_Some (fst (f h x) !! snd (f h x)).

Definition outside_opt (old : gset loc) (p : option loc) : Prop :=
  match p with Some q => q ∉ old | None => True end.

Definition confined (U : Util) : Prop :=
  confined1 (dfs_functions U) /\ confined1 (dfs_standardize U) /\
  confined1 (dfs_negate U) /\ confined1 (to_onf U) /\
  confined1 (coalesce U) /\ confined1 (simplify U) /\
  (forall h0 h x p, frame h0 h -> x ∉ dom h0 -> outside_opt (dom h0) p ->
     is_Some (h !! x) ->
     frame h0 (fst (rescope U h x p)) /\
     dom h ⊆ dom (fst (rescope U h x p)) /\
     (snd (rescope U h x p) ∉ dom h0) /\
     is_Some (fst (rescope U h x p) !! snd (rescope U h x p))) /\
  (forall h0 h x t p, frame h0 h -> x ∉ dom h0 ->
     (t, p) ∈ reverse_bfs U h x ->
     (t ∉ dom h0) /\ outside_opt (dom h0) p) /\
  (forall h0 h p t, frame h0 h -> p ∉ dom h0 -> t ∉ dom h0 ->
     frame h0 (remove_term U h p t) /\ dom h ⊆ dom (remove_term U h p t)) /\
  (forall h0 h p t, frame h0 h -> p ∉ dom h0 -> t ∉ dom h0 ->
     frame h0 (set_term U h p t) /\ dom h ⊆ dom (set_term U h p t)).

(** *** Auxiliary notions for the proofs *)

(** The invariant of a copy in progress. *)
Definition copying (h0 h : gmap loc Obj) (memo : gmap loc loc) : Prop :=
  frame h0 h /\
  forall x y, memo !! x = Some y ->
    (y ∉ dom h0) /\ is_Some (h !! y) /\
    forall n, tree n h0 x -> same_value n h0 h x y.

(** An element of an attribute list and its copy. *)
Definition copied (h0 : gmap loc Obj) (n : nat) (h : gmap loc Obj)
    (r r' : PyRef) : Prop :=
  ref_rel (same_value n h0 h) r r' /\
  match r' with RObj l => l ∉ dom h0 | RStr _ => True end.

(** What the loop of [create_prenex] keeps true. *)
Definition prenex_inv (h0 hs : gmap loc Obj) (st : gmap loc Obj * loc) : Prop :=
  frame h0 (fst st) /\ dom hs ⊆ dom (fst st) /\
  (snd st ∉ dom h0) /\ is_Some (fst st !! snd st).

(** Functions of [Utils] that do nothing but walk the root; the store
    with the single predicate [P(x)] and the axiom number 1 on it. *)
Definition idle_util : Util :=
  mkUtil (fun h x => (h, x)) (fun h x => (h, x)) (fun h x => (h, x))
         (fun h x => (h, x)) (fun h x => [(x, None)])
         (fun h x => (h, x)) (fun h x _ => (h, x))
         (fun h _ _ => h) (fun h _ _ => h) (fun h x => (h, x)).

Definition small_world : World :=
  mkWorld {[ 0%nat := mkObj CPredicate "P" [RStr "x"] [] ]} 2.

Definition small_axiom : AxiomObj := mkAxiomObj 0%nat 1.

End Store.

(** ** The normal-form pipeline on sentences

    The stage methods of [Axiom.py] hand the sentence to functions of
    [logical/Utils.py], [Connective.py] and [Quantifier.py], which are not
    among the sources. This module gives those functions as the
    specification describes them, acting on sentences as values; where
    its prose leaves a choice, the worked examples of its section 8 and
    the expectations of [test_Axiom.py] decide. *)

Module Pipeline.

(** A traversal of a list of subterms from left to right that hands a
    counter from one subterm to the next. *)
Definition thread {A B : Type} (f : A -> nat -> B * nat)
  : list A -> nat -> list B * nat :=
  fix go (ts : list A) (counter : nat) : list B * nat :=
    match ts with
    | [] => ([], counter)
    | t :: ts' =>
        let '(t', counter) := f t counter in
        let '(ts'', counter) := go ts' counter in
        (t' :: ts'', counter)
    end.

(** *** Stage 1: [Util.dfs_functions] *)

(** A fresh variable for a function application: the function's name
    followed by the current value of the counter. *)
Definition fresh_name (f : string) (counter : nat) : string :=
  f +:+ PyStr.of_int (Z.of_nat counter).

(** Modelled from the spec: the replacement of a function application by a
    fresh variable (helper of [Util.dfs_functions], not among the sources).
    Section 9 of the specification makes the worked examples the rule for
    the order of the names; the expectations of [test_Axiom.py], lines 21
    and 28, give it: an application takes the current number of the counter
    and its arguments the following ones, from left to right ([f5], [g6],
    [h7] for [f(g(h(x)))]), and the application [f(a1..an)], replaced by
    [v], is defined by the atom [f(a1..an, v)], the atoms of the inner
    applications coming first ([h(x,h7) & g(h7,g6) & f(g6,f5)]). The result
    is the replacing name, the fresh names in the order they were numbered,
    the defining atoms, and the counter. *)
Fixpoint flatten_term (t : Term) (counter : nat)
  : string * list string * list Logical * nat :=
  match t with
  | Var s => (s, [], [], counter)
  | Function f args =>
      let v := fresh_name f counter in
      let '(names, fresh, atoms, counter') :=
        (fix go (ts : list Term) (counter : nat)
           : list string * list string * list Logical * nat :=
           match ts with
           | [] => ([], [], [], counter)
           | t :: ts' =>
               let '(n, fr, ats, counter) := flatten_term t counter in
               let '(ns, frs, atss, counter) := go ts' counter in
               (n :: ns, fr ++ frs, ats ++ atss, counter)
           end) args (S counter) in
      (v, v :: fresh, atoms ++ [Predicate f (map Var (names ++ [v]))],
       counter')
  end.

(** Modelled from the spec: the arguments of a predicate, from left to
    right. The second component lists what the new quantifier binds: the
    arguments of the rewritten predicate and the fresh names of the
    applications nested in them. In the third scenario of section 8 the
    predicate [C(z, F(z))] comes out as [C(w,v)] with [F(w,v)] under one
    quantifier, so the plain argument [z] is bound with the fresh name; in
    the test at line 28 the variable [x] of the innermost application is
    not. *)
Fixpoint flatten_args (ts : list Term) (counter : nat)
  : list string * list string * list Logical * nat :=
  match ts with
  | [] => ([], [], [], counter)
  | t :: ts' =>
      let '(n, fresh, atoms, counter) := flatten_term t counter in
      let '(ns, bound, atoms', counter) := flatten_args ts' counter in
      (n :: ns,
       match t with Var s => [s] | Function _ _ => fresh end ++ bound,
       atoms ++ atoms', counter)
  end.

(** Modelled from the spec: the names of a list without repetition, first
    occurrences kept: the variables of a quantifier are distinct names
    (section 3). *)
Fixpoint dedup (l : list string) : list string :=
  match l with
  | [] => []
  | x :: l' => x :: List.filter (fun y => negb (String.eqb x y)) (dedup l')
  end.

(** Modelled from the spec: the defining atoms as one sentence: a single
    atom stands alone ([(C(f5) | f(x,f5))], line 24 of the test), several
    form a conjunction (line 21). *)
Definition relation (atoms : list Logical) : Logical :=
  match atoms with
  | [r] => r
  | rs => Conjunction rs
  end.

(** Modelled from the spec: what [Util.dfs_functions] puts in the place of
    a predicate (not among the sources). A predicate without function
    applications only has its arguments kept. Otherwise it becomes a
    quantifier over the names of [flatten_args], around the disjunction of
    the negated rewritten predicate and the defining atoms. Section 4.4 of
    the specification calls the quantifier existential, but its third
    scenario has the new variables in the universal block
    [∀(z,y,x,w,v)], and the test expects [∀(f2,t3,p4)[(~A(f2,t3,p4) | ...)]]:
    the examples are followed and the quantifier is universal. For a
    predicate under a negation the test at line 24 expects
    [~~∀(f5)[(C(f5) | f(x,f5))]]: the predicate is not negated inside and
    the quantifier is, under the negation that was there. *)
Definition substitute (negated : bool) (p : string) (args : list Term)
    (counter : nat) : Logical * nat :=
  let '(names, bound, atoms, counter') := flatten_args args counter in
  let pred := Predicate p (map Var names) in
  match atoms with
  | [] => (if negated then Negation pred else pred, counter')
  | _ :: _ =>
      if negated then
        (Negation (Negation (Universal (dedup bound)
                               (Disjunction [pred; relation atoms]))),
         counter')
      else
        (Universal (dedup bound)
           (Disjunction [Negation pred; relation atoms]), counter')
  end.

(** Modelled from the spec: [Util.dfs_functions] of [logical/Utils.py],
    not among the sources: a depth-first traversal that rewrites every
    predicate with [substitute]; the fresh names come from one counter
    that is never reset. *)
Fixpoint dfs_functions (l : Logical) (counter : nat) : Logical * nat :=
  match l with
  | Predicate p args => substitute false p args counter
  | Negation t =>
      match t with
      | Predicate p args => substitute true p args counter
      | _ =>
          let '(t', counter) := dfs_functions t counter in
          (Negation t', counter)
      end
  | Conjunction ts =>
      let '(ts', counter) := thread dfs_functions ts counter in
      (Conjunction ts', counter)
  | Disjunction ts =>
      let '(ts', counter) := thread dfs_functions ts counter in
      (Disjunction ts', counter)
  | Universal vs t =>
      let '(t', counter) := dfs_functions t counter in (Universal vs t', counter)
  | Existential vs t =>
      let '(t', counter) := dfs_functions t counter in (Existential vs t', counter)
  end.

(** *** Stage 2: [Util.generator] and [Util.dfs_standardize] *)

(** The letter number [i] of the reverse alphabet: z, y, x, ... *)
Definition reverse_letter (i : nat) : ascii := ascii_of_nat (122 - i).

Fixpoint repeat_char (c : ascii) (n : nat) : string :=
  match n with
  | O => EmptyString
  | S n' => String c (repeat_char c n')
  end.

(** Modelled from the spec: [Util.generator] of [logical/Utils.py], not
    among the sources: the fixed reverse-alphabetic sequence z, y, x, ...
    The specification names no continuation after [a]; here the alphabet
    starts again with the letter doubled, then tripled, and so on. *)
Definition generator (n : nat) : string :=
  repeat_char (reverse_letter (n mod 26)) (S (n / 26)).

(** The translation of bound names: the latest binding of a name wins. *)
Fixpoint translate (env : list (string * string)) (s : string) : string :=
  match env with
  | [] => s
  | (old, new) :: env' => if String.eqb old s then new else translate env' s
  end.

Fixpoint rename_term (env : list (string * string)) (t : Term) : Term :=
  match t with
  | Var s => Var (translate env s)
  | Function f args => Function f (map (rename_term env) args)
  end.

(** The fresh names for the variables of one quantifier. *)
Definition draw (vs : list string) (k : nat) : list string :=
  map generator (seq k (length vs)).

Definition bind_all (vs news : list string) (env : list (string * string))
  : list (string * string) :=
  rev (combine vs news) ++ env.

(** Modelled from the spec: [Util.dfs_standardize] of [logical/Utils.py],
    not among the sources: a depth-first traversal that gives every
    variable of every quantifier the next name of the generator and
    renames its occurrences in the body. [k] counts the names drawn. *)
Fixpoint dfs_standardize (env : list (string * string)) (l : Logical)
    (k : nat) : Logical * nat :=
  match l with
  | Predicate p args => (Predicate p (map (rename_term env) args), k)
  | Negation t =>
      let '(t', k) := dfs_standardize env t k in (Negation t', k)
  | Conjunction ts =>
      let '(ts', k) := thread (dfs_standardize env) ts k in
      (Conjunction ts', k)
  | Disjunction ts =>
      let '(ts', k) := thread (dfs_standardize env) ts k in
      (Disjunction ts', k)
  | Universal vs t =>
      let news := draw vs k in
      let '(t', k') :=
        dfs_standardize (bind_all vs news env) t (k + length vs) in
      (Universal news t', k')
  | Existential vs t =>
      let news := draw vs k in
      let '(t', k') :=
        dfs_standardize (bind_all vs news env) t (k + length vs) in
      (Existential news t', k')
  end.

(** *** Stage 3: [Util.dfs_negate] *)

(** Modelled from the spec: [Util.dfs_negate] of [logical/Utils.py], not
    among the sources: De Morgan's laws, quantifier duality and the
    removal of double negation, pushed down to the predicates. [neg]
    tells whether an odd number of negations is being pushed. *)
Fixpoint push (neg : bool) (l : Logical) : Logical :=
  match l with
  | Predicate _ _ => if neg then Negation l else l
  | Negation t => push (negb neg) t
  | Conjunction ts =>
      if neg then Disjunction (map (push neg) ts)
      else Conjunction (map (push neg) ts)
  | Disjunction ts =>
      if neg then Conjunction (map (push neg) ts)
      else Disjunction (map (push neg) ts)
  | Universal vs t =>
      if neg then Existential vs (push neg t) else Universal vs (push neg t)
  | Existential vs t =>
      if neg then Universal vs (push neg t) else Existential vs (push neg t)
  end.

Definition dfs_negate (l : Logical) : Logical := push false l.

(** *** Stage 4: prenexing *)

Inductive Kind : Type := KUniversal | KExistential.

Definition Kind_eqb (a b : Kind) : bool :=
  match a, b with
  | KUniversal, KUniversal | KExistential, KExistential => true
  | _, _ => false
  end.

Definition quantify (q : Kind * list string) (body : Logical) : Logical :=
  match fst q with
  | KUniversal => Universal (snd q) body
  | KExistential => Existential (snd q) body
  end.

(** [isinstance(term, Connective.Connective)] *)
Definition is_connective (l : Logical) : bool :=
  match l with
  | Conjunction _ | Disjunction _ => true
  | _ => false
  end.

(** Modelled from the spec: [remove_term] and [set_term] of
    [logical/Logical.py], not among the sources, as the loop of
    [create_prenex] uses them: every connective, once treated, is taken
    out of its parent and what it became is added to the parent again, at
    the end of its terms; the loop runs in reverse breadth-first order, so
    the last connective child is moved first. The children that are not
    connectives keep their places, the connective children follow them in
    reverse order. This is what turns [(A(x) | B(y)) & C(z)] into
    [C(x) & (A(z) | B(y))] in the second scenario of section 8. The
    children come with a flag that tells the connectives. *)
Definition reattach {A : Type} (rs : list (bool * A)) : list A :=
  map snd (List.filter (fun r => negb (fst r)) rs) ++
  rev (map snd (List.filter (fun r => fst r) rs)).

Definition has_prefix (r : list (Kind * list string) * Logical) : bool :=
  match fst r with
  | [] => false
  | _ :: _ => true
  end.

(** Modelled from the spec: [rescope] of [logical/Connective.py], not
    among the sources, on the terms of one connective, each given as the
    quantifiers in front of it and its body: the quantifiers move in front
    of the connective and keep their left-to-right order (section 4.4),
    and the connective keeps the bodies. The bodies that were under a
    quantifier come first: in the third scenario of section 8 the clause
    of the body [~C(w,v) | F(w,v)] stands before the clause of [B(y)],
    which stood before the quantifier. *)
Definition pull (rs : list (list (Kind * list string) * Logical))
  : list (Kind * list string) * list Logical :=
  (List.concat (map fst rs),
   map snd (List.filter has_prefix rs) ++
   map snd (List.filter (fun r => negb (has_prefix r)) rs)).

(** Modelled from the spec: the loop of [create_prenex] with [coalesce]
    and [rescope] of [logical/Quantifier.py] and [Connective.py], not
    among the sources, as a traversal that treats the children before the
    parent, as the reverse breadth-first order does. The result is the
    list of quantifiers pulled out and what is left of the sentence. A
    quantifier under a negation stays where it is: the loop only treats
    connectives, and after [push_negation] no negation holds one. *)
Fixpoint rescope (l : Logical) : list (Kind * list string) * Logical :=
  match l with
  | Predicate _ _ => ([], l)
  | Negation _ => ([], l)
  | Conjunction ts =>
      let '(qs, ms) :=
        pull (reattach (map (fun t => (is_connective t, rescope t)) ts)) in
      (qs, Conjunction ms)
  | Disjunction ts =>
      let '(qs, ms) :=
        pull (reattach (map (fun t => (is_connective t, rescope t)) ts)) in
      (qs, Disjunction ms)
  | Universal vs t =>
      let '(qs, m) := rescope t in ((KUniversal, vs) :: qs, m)
  | Existential vs t =>
      let '(qs, m) := rescope t in ((KExistential, vs) :: qs, m)
  end.

(** Modelled from the spec: [coalesce] and [simplify] of
    [logical/Quantifier.py], not among the sources: a quantifier and an
    immediately nested quantifier of the same kind become one quantifier
    with the concatenated variable lists. *)
Fixpoint coalesce (qs : list (Kind * list string)) : list (Kind * list string) :=
  match qs with
  | [] => []
  | (k, vs) :: qs' =>
      match coalesce qs' with
      | (k', vs') :: rest =>
          if Kind_eqb k k' then (k, vs ++ vs') :: rest
          else (k, vs) :: (k', vs') :: rest
      | [] => [(k, vs)]
      end
  end.

Definition prenex (l : Logical) : Logical :=
  let '(qs, m) := rescope l in
  fold_right quantify m (coalesce qs).

(** *** Stage 5: [to_onf] *)

(** All the ways to take one clause from each of the clause sets. *)
Definition clause_product (cs ds : list (list Logical)) : list (list Logical) :=
  List.concat (map (fun c => map (fun d => c ++ d) ds) cs).

Definition is_conjunction (l : Logical) : bool :=
  match l with
  | Conjunction _ => true
  | _ => false
  end.

(** Modelled from the spec: the terms of a disjunction that are not
    conjunctions, then its conjunctions; the terms come with a flag that
    tells the conjunctions. *)
Definition others_first {A : Type} (rs : list (bool * A)) : list A :=
  map snd (List.filter (fun r => negb (fst r)) rs) ++
  map snd (List.filter (fun r => fst r) rs).

(** Modelled from the spec: [distribute_over_disjunction] of
    [logical/Connective.py], not among the sources: the law
    [A | (B & C) = (A | B) & (A | C)] applied until no disjunction has a
    conjunction as an argument, nested connectives of the same kind being
    merged. Each clause starts with the terms of the disjunction that are
    not conjunctions and goes on with a term of each conjunction: in the
    third scenario of section 8 both clauses start with [A(z)]. The result
    is the list of clauses, each a list of literals. *)
Fixpoint clauses (l : Logical) : list (list Logical) :=
  match l with
  | Conjunction ts => List.concat (map clauses ts)
  | Disjunction ts =>
      fold_right clause_product [[]]
        (others_first (map (fun t => (is_conjunction t, clauses t)) ts))
  | _ => [[l]]
  end.

Definition clause_of (c : list Logical) : Logical :=
  match c with
  | [x] => x
  | _ => Disjunction c
  end.

Definition conjunction_of (cs : list Logical) : Logical :=
  match cs with
  | [c] => c
  | _ => Conjunction cs
  end.

(** Modelled from the spec: [to_onf] of [logical/Logical.py], not among
    the sources: the quantifiers stay in front and the matrix becomes a
    conjunction of disjunctions. *)
Fixpoint to_onf (l : Logical) : Logical :=
  match l with
  | Universal vs t => Universal vs (to_onf t)
  | Existential vs t => Existential vs (to_onf t)
  | _ => conjunction_of (map clause_of (clauses l))
  end.

(** *** The stages and [ff_pcnf] of [Axiom.py] *)

(** The two process-wide counters: [Axiom.axiom_id] and the counter of
    the fresh names of function substitution. *)
Record Counters : Type := mkCounters { axiom_id : Z; fresh_counter : nat }.

(** [Axiom(sentence)] *)
Definition new_axiom (s : Logical) (c : Counters) : Ax * Counters :=
  (mkAx s (axiom_id c), mkCounters (axiom_id c + 1) (fresh_counter c)).

Definition substitute_functions (a : Ax) (c : Counters) : Ax * Counters :=
  let '(s, n) := dfs_functions (sentence a) (fresh_counter c) in
  new_axiom s (mkCounters (axiom_id c) n).

Definition standardize_variables (a : Ax) (c : Counters) : Ax * Counters :=
  new_axiom (fst (dfs_standardize [] (sentence a) 0)) c.

Definition push_negation (a : Ax) (c : Counters) : Ax * Counters :=
  new_axiom (dfs_negate (sentence a)) c.

(** The debug messages inside the loop of [create_prenex] use [__repr__]
    of the nodes, which returns on every sentence. *)
Definition create_prenex (a : Ax) (c : Counters) : Ax * Counters :=
  new_axiom (prenex (sentence a)) c.

Definition distribute_disjunctions (a : Ax) (c : Counters) : Ax * Counters :=
  new_axiom (to_onf (sentence a)) c.

(** [LOGGER.debug(text + repr(x))]: the message is built before the call,
    and [Axiom.__repr__] returns [self.to_tptp()], so an exception of
    [to_tptp] leaves the caller. *)
Definition debug (x : Ax) : result unit :=
  do _ <- to_tptp x ; Return tt.

(** [ff_pcnf]: the copy and its debug message, then each stage followed by
    its debug message. The result is what is returned or raised, and the
    counters as they are at that moment. *)
Definition ff_pcnf (a : Ax) (c : Counters) : result Ax * Counters :=
  let copied := a in
  match debug copied with
  | Raise e => (Raise e, c)
  | Return _ =>
  let '(function_free, c) := substitute_functions copied c in
  match debug function_free with
  | Raise e => (Raise e, c)
  | Return _ =>
  let '(unique_variables, c) := standardize_variables function_free c in
  match debug unique_variables with
  | Raise e => (Raise e, c)
  | Return _ =>
  let '(distributed_negation, c) := push_negation unique_variables c in
  match debug distributed_negation with
  | Raise e => (Raise e, c)
  | Return _ =>
  let '(prenex_form, c) := create_prenex distributed_negation c in
  match debug prenex_form with
  | Raise e => (Raise e, c)
  | Return _ =>
  let '(cnf, c) := distribute_disjunctions prenex_form c in
  match debug cnf with
  | Raise e => (Raise e, c)
  | Return _ => (Return cnf, c)
  end end end end end end.

(** *** The canonical rendering ([__repr__] of the node classes) *)

Fixpoint repr_term (t : Term) : string :=
  match t with
  | Var s => s
  | Function f args =>
      f +:+ "(" +:+ PyStr.join "," (map repr_term args) +:+ ")"
  end.

(** Modelled from the spec: [__repr__] of the node classes, not among
    the sources: the rendering with logical symbols that the tests of
    [test_Axiom.py] compare against. *)
Fixpoint repr (l : Logical) : string :=
  match l with
  | Predicate p args =>
      p +:+ "(" +:+ PyStr.join "," (map repr_term args) +:+ ")"
  | Negation t => "~" +:+ repr t
  | Conjunction ts => "(" +:+ PyStr.join " & " (map repr ts) +:+ ")"
  | Disjunction ts => "(" +:+ PyStr.join " | " (map repr ts) +:+ ")"
  | Universal vs t => "∀(" +:+ PyStr.join "," vs +:+ ")[" +:+ repr t +:+ "]"
  | Existential vs t => "∃(" +:+ PyStr.join "," vs +:+ ")[" +:+ repr t +:+ "]"
  end.

(** *** The shapes the claims speak about *)

Definition term_is_name (t : Term) : bool :=
  match t with Var _ => true | Function _ _ => false end.

(** No [Function] node anywhere in the sentence. *)
Fixpoint function_free (l : Logical) : bool :=
  match l with
  | Predicate _ args => forallb term_is_name args
  | Negation t => function_free t
  | Conjunction ts | Disjunction ts => forallb function_free ts
  | Universal _ t | Existential _ t => function_free t
  end.

(** A possibly negated atomic predicate. *)
Definition is_literal (l : Logical) : bool :=
  match l with
  | Predicate _ _ => true
  | Negation (Predicate _ _) => true
  | _ => false
  end.

(** A disjunction of literals (a single literal is a clause of one). *)
Definition is_clause (l : Logical) : bool :=
  match l with
  | Disjunction ts => forallb is_literal ts
  | _ => is_literal l
  end.

(** A conjunction of clauses (a single clause is a conjunction of one). *)
Definition is_cnf (l : Logical) : bool :=
  match l with
  | Conjunction ts => forallb is_clause ts
  | _ => is_clause l
  end.

(** The sentence under the leading quantifiers. *)
Fixpoint matrix (l : Logical) : Logical :=
  match l with
  | Universal _ t | Existential _ t => matrix t
  | _ => l
  end.

Fixpoint quantifier_free (l : Logical) : bool :=
  match l with
  | Predicate _ _ => true
  | Negation t => quantifier_free t
  | Conjunction ts | Disjunction ts => forallb quantifier_free ts
  | Universal _ _ | Existential _ _ => false
  end.

(** Every quantifier is outermost: none below a connective or a
    negation. *)
Definition quantifiers_outermost (l : Logical) : bool :=
  quantifier_free (matrix l).

(** Negation only immediately above a predicate. *)
Fixpoint negation_normal (l : Logical) : bool :=
  match l with
  | Predicate _ _ => true
  | Negation (Predicate _ _) => true
  | Negation _ => false
  | Conjunction ts | Disjunction ts => forallb negation_normal ts
  | Universal _ t | Existential _ t => negation_normal t
  end.

(** The variable lists of the quantifiers, in depth-first order. *)
Fixpoint quantifier_lists (l : Logical) : list (list string) :=
  match l with
  | Predicate _ _ => []
  | Negation t => quantifier_lists t
  | Conjunction ts | Disjunction ts =>
      List.concat (map quantifier_lists ts)
  | Universal vs t | Existential vs t => vs :: quantifier_lists t
  end.

Definition quantified_variables (l : Logical) : list string :=
  List.concat (quantifier_lists l).

(** *** Auxiliary notions for the proofs *)

(** The names drawn by a traversal that starts at [k]. *)
Definition drawn (k n : nat) : list string := map generator (seq k n).

(** What is left under the quantifiers pulled out of a sentence in
    negation normal form: no quantifier, no function, negation only on
    predicates. *)
Definition plain (l : Logical) : bool :=
  quantifier_free l && negation_normal l && function_free l.

(** A clause of function-free literals. *)
Definition literals (c : list Logical) : bool :=
  forallb (fun x => is_literal x && function_free x) c.


(** The second scenario of section 8:
    [forall x y z. (A(x) | B(y)) & C(z)]. *)
Definition scenario_two : Logical :=
  Universal ["x"; "y"; "z"]
    (Conjunction [Disjunction [Predicate "A" [Var "x"]; Predicate "B" [Var "y"]];
                  Predicate "C" [Var "z"]]).

(** The third scenario of section 8:
    [forall x y z. A(x) | (B(y) & C(z, F(z)))]. *)
Definition scenario_three : Logical :=
  Universal ["x"; "y"; "z"]
    (Disjunction [Predicate "A" [Var "x"];
                  Conjunction [Predicate "B" [Var "y"];
                               Predicate "C" [Var "z"; Function "F" [Var "z"]]]]).

(** The sentences of [test_axiom_simple_function_replacement]
    ([test_Axiom.py], lines 20, 23 and 27). *)
Definition three_functions : Logical :=
  Universal ["x"; "y"; "z"]
    (Predicate "A" [Function "f" [Var "x"]; Function "t" [Var "y"];
                    Function "p" [Var "z"]]).

Definition negated_function : Logical :=
  Universal ["x"] (Negation (Predicate "C" [Function "f" [Var "x"]])).

Definition nested_functions : Logical :=
  Universal ["x"]
    (Predicate "C" [Function "f" [Function "g" [Function "h" [Var "x"]]]]).

End Pipeline.

(** ** The other handlers of [Reasoner.terminatedSuccessfully] and the
       methods built on it ([macleod/Reasoner.py]) *)

Module Outcome.
Import Reasoner.

Definition paradox_status (line : string) : Status :=
  if PyStr.contains "Theorem" line then PROOF
  else if PyStr.contains "Unsatisfiable" line then INCONSISTENT
  else if PyStr.contains "CounterSatisfiable" line then COUNTEREXAMPLE
  else if PyStr.contains "Satisfiable" line then CONSISTENT
  else UNKNOWN.

(** [success_default]: nothing is read, [self.output] stays. *)
Definition success_default (output : option Status) : option Status * bool :=
  (output, false).

(** [success_prover9]: [self.output] is only assigned when a line starts
    with [THEOREM PROVED]. *)
Definition success_prover9 (output : option Status) (lines : list string)
  : option Status * bool :=
  let output_lines := lines_starting "THEOREM PROVED" lines in
  let output :=
    if (0 <? length output_lines)%nat then Some PROOF else output in
  (output, mapping output).

Definition success_paradox (lines : list string) : option Status * bool :=
  let output_lines := lines_starting "+++ RESULT:" lines in
  let output :=
    if negb (length output_lines =? 1)%nat then
      let output_lines := lines_starting "*** Unexpected:" lines in
      if (0 <? length output_lines)%nat then ERROR else UNKNOWN
    else
      match nth_error output_lines 0 with
      | Some line => paradox_status line
      | None => UNKNOWN
      end in
  (Some output, mapping (Some output)).

Definition success_mace4 (lines : list string) : option Status * bool :=
  let output_lines := lines_starting "Exiting with 1 model." lines in
  let output :=
    if (length output_lines =? 0)%nat then UNKNOWN else CONSISTENT in
  (Some output, mapping (Some output)).

(** The attributes of a [Reasoner] object that these methods use. *)
Record ReasonerObj : Type := mkReasoner {
  r_name : string;
  r_output_file : string;
  r_output : option Status
}.

Definition set_output (r : ReasonerObj) (o : option Status) : ReasonerObj :=
  mkReasoner (r_name r) (r_output_file r) o.

(** The keys of the dictionary [handlers]. *)
Definition has_handler (name : string) : bool :=
  String.eqb name "mace4" || String.eqb name "prover9" ||
  String.eqb name "paradox" || String.eqb name "vampire".

(** [open(self.output_file, 'r')] followed by [readlines()]: [fs] gives
    the lines of the files that can be opened; [None] is the [OSError] that
    [open] raises on the others. *)
Definition readlines (fs : string -> option (list string)) (path : string)
  : option (list string) := fs path.

(** [terminatedSuccessfully]: the handler is chosen by [self.name], the
    default handler for any other name. The result is the object after
    the call and the returned truth value; [None] is the [OSError]. *)
Definition terminatedSuccessfully (fs : string -> option (list string))
    (r : ReasonerObj) : option (ReasonerObj * bool) :=
  if String.eqb (r_name r) "mace4" then
    lines ← readlines fs (r_output_file r);
    let '(o, b) := success_mace4 lines in Some (set_output r o, b)
  else if String.eqb (r_name r) "prover9" then
    lines ← readlines fs (r_output_file r);
    let '(o, b) := success_prover9 (r_output r) lines in
    Some (set_output r o, b)
  else if String.eqb (r_name r) "paradox" then
    lines ← readlines fs (r_output_file r);
    let '(o, b) := success_paradox lines in Some (set_output r o, b)
  else if String.eqb (r_name r) "vampire" then
    lines ← readlines fs (r_output_file r);
    let '(o, b) := success_vampire lines in Some (set_output r (Some o), b)
  else
    let '(o, b) := success_default (r_output r) in Some (set_output r o, b).

Definition is_error_status (o : option Status) : bool :=
  match o with Some ERROR => true | _ => false end.

Definition terminatedWithError (fs : string -> option (list string))
    (r : ReasonerObj) : option (ReasonerObj * bool) :=
  '(r1, _) ← terminatedSuccessfully fs r;
  Some (r1, is_error_status (r_output r1)).

(** [not(self.terminatedSuccessfully()) and not(self.terminatedWithError())]:
    the second call is only made when the first returns [False]. *)
Definition terminatedUnknowingly (fs : string -> option (list string))
    (r : ReasonerObj) : option (ReasonerObj * bool) :=
  '(r1, s) ← terminatedSuccessfully fs r;
  if s : bool then Some (r1, false)
  else
    '(r2, e) ← terminatedWithError fs r1;
    Some (r2, negb e).

Definition isDone (r : ReasonerObj) : bool :=
  match r_output r with None => false | Some _ => true end.

(** A Vampire reasoner that has not run yet, and a file system with its
    output file. *)
Definition fresh_vampire : ReasonerObj := mkReasoner "vampire" "out.txt" None.

Definition one_output (lines : list string) (path : string)
  : option (list string) :=
  if String.eqb path "out.txt" then Some lines else None.

End Outcome.

(** ** Shapes of sentences that decide how the serializers behave *)

Module Shape.

(** Every equality predicate has the two arguments that [to_tptp] reads. *)
Fixpoint equalities_binary (l : Logical) : bool :=
  match l with
  | Predicate name vs => negb (is_equality name) || (2 <=? length vs)%nat
  | Negation t => equalities_binary t
  | Conjunction ts | Disjunction ts => forallb equalities_binary ts
  | Universal _ t | Existential _ t => equalities_binary t
  end.

(** A term whose function applications, if any, are applied to names
    only. *)
Definition flat_term (t : Term) : bool :=
  match t with
  | Var _ => true
  | Function _ vs =>
      forallb (fun v => match v with Var _ => true | Function _ _ => false end) vs
  end.

(** No function application has a function application as argument. *)
Fixpoint functions_flat (l : Logical) : bool :=
  match l with
  | Predicate _ vs => forallb flat_term vs
  | Negation t => functions_flat t
  | Conjunction ts | Disjunction ts => forallb functions_flat ts
  | Universal _ t | Existential _ t => functions_flat t
  end.

(** The sentence with every variable upper-cased and every predicate and
    function name lower-cased. *)
Fixpoint fold_case_term (t : Term) : Term :=
  match t with
  | Var s => Var (PyStr.upper s)
  | Function f vs => Function (PyStr.lower f) (map fold_case_term vs)
  end.

Fixpoint fold_case (l : Logical) : Logical :=
  match l with
  | Predicate p vs => Predicate (PyStr.lower p) (map fold_case_term vs)
  | Negation t => Negation (fold_case t)
  | Conjunction ts => Conjunction (map fold_case ts)
  | Disjunction ts => Disjunction (map fold_case ts)
  | Universal vs t => Universal (map PyStr.upper vs) (fold_case t)
  | Existential vs t => Existential (map PyStr.upper vs) (fold_case t)
  end.

(** [k] negations stacked on a sentence. *)
Fixpoint negations (k : nat) (l : Logical) : Logical :=
  match k with
  | O => l
  | S k' => Negation (negations k' l)
  end.

(** The number of opening minus the number of closing parentheses. *)
Definition paren_balance (s : string) : Z :=
  Z.of_nat (PyStr.count_char "(" s) - Z.of_nat (PyStr.count_char ")" s).

(** A name without parentheses (the lexer's names never hold one). *)
Definition plain_name (s : string) : bool :=
  (PyStr.count_char "(" s =? 0)%nat && (PyStr.count_char ")" s =? 0)%nat.

Fixpoint plain_names_term (t : Term) : bool :=
  match t with
  | Var s => plain_name s
  | Function f vs => plain_name f && forallb plain_names_term vs
  end.

Fixpoint plain_names (l : Logical) : bool :=
  match l with
  | Predicate p vs => plain_name p && forallb plain_names_term vs
  | Negation t => plain_names t
  | Conjunction ts | Disjunction ts => forallb plain_names ts
  | Universal vs t | Existential vs t =>
      forallb plain_name vs && plain_names t
  end.

(** The characters of a decimal numeral. *)
Definition decimal_char (c : ascii) : bool :=
  let n := nat_of_ascii c in
  ((48 <=? n) && (n <=? 57))%nat || (n =? 45)%nat.

(** A call that returns normally. *)
Definition returns {A : Type} (r : result A) : Prop := exists a, r = Return a.

(** [render] returns on the sentences that pass the test [ok] and raises [e]
    on the others. *)
Definition behaves (render : Logical -> result string) (ok : Logical -> bool)
    (e : PyExc) (l : Logical) : Prop :=
  (ok l = true -> returns (render l)) /\ (ok l = false -> render l = Raise e).

(** The [TypeError] that [join] raises on a list that holds an object. *)
Definition ladr_error : PyExc := TypeError "sequence item: expected str instance".

(** Whatever [render] returns has as many opening as closing
    parentheses. *)
Definition balanced_output (render : Logical -> result string) (l : Logical)
  : Prop :=
  forall s, render l = Return s -> paren_balance s = 0.

End Shape.

(** ** [Axiom.ff_pcnf] whatever the helpers do *)

Module Logged.

Section Helpers.

(** What the stage methods call in [logical/Utils.py], [Logical.py],
    [Connective.py] and [Quantifier.py] is not among the sources. Here it
    is left open: for each stage, [helper] stands for all that the stage
    method does with the copy of the sentence before it calls
    [Axiom(...)], the call of a function of [Utils] or the whole loop of
    [create_prenex]. It is given the sentence and the state of those
    modules (such as the counter of fresh names), may change that state,
    and returns an object or raises; [None] is an object that is not a
    [Logical]. The helpers create no axiom: [Axiom.axiom_id] is only moved
    by [Axiom.__init__] in the stage methods. Sentences are values here, so
    [copy.deepcopy] returns its argument. *)
Variable State : Type.
Variable helper :
  Store.Stage -> Logical -> State -> result (option Logical) * State.

(** The class attribute [Axiom.axiom_id] and the state of the helpers. *)
Record World : Type := mkWorld { axiom_id : Z; state : State }.

(** [Axiom.__init__]: an object that is not a [Logical] is refused;
    otherwise the id is the counter, which is then incremented. *)
Definition Axiom_init (x : option Logical) (w : World) : result Ax * World :=
  match x with
  | None => (Raise (ValueError "Axiom's need Logicals"), w)
  | Some s => (Return (mkAx s (axiom_id w)), mkWorld (axiom_id w + 1) (state w))
  end.

(** A stage method: the helper on the copy of the sentence, then
    [Axiom(...)] on what it returned. *)
Definition stage (st : Store.Stage) (a : Ax) (w : World) : result Ax * World :=
  match helper st (sentence a) (state w) with
  | (Raise e, s) => (Raise e, mkWorld (axiom_id w) s)
  | (Return x, s) => Axiom_init x (mkWorld (axiom_id w) s)
  end.

(** [ff_pcnf]: the copy and its debug message, then each stage followed by
    its debug message. The result is what is returned or raised, and the
    counter and the state as they are at that moment. *)
Definition ff_pcnf (a : Ax) (w : World) : result Ax * World :=
  let copied := a in
  match Pipeline.debug copied with
  | Raise e => (Raise e, w)
  | Return _ =>
  match stage Store.SubstituteFunctions copied w with
  | (Raise e, w) => (Raise e, w)
  | (Return function_free, w) =>
  match Pipeline.debug function_free with
  | Raise e => (Raise e, w)
  | Return _ =>
  match stage Store.StandardizeVariables function_free w with
  | (Raise e, w) => (Raise e, w)
  | (Return unique_variables, w) =>
  match Pipeline.debug unique_variables with
  | Raise e => (Raise e, w)
  | Return _ =>
  match stage Store.PushNegation unique_variables w with
  | (Raise e, w) => (Raise e, w)
  | (Return distributed_negation, w) =>
  match Pipeline.debug distributed_negation with
  | Raise e => (Raise e, w)
  | Return _ =>
  match stage Store.CreatePrenex distributed_negation w with
  | (Raise e, w) => (Raise e, w)
  | (Return prenex_form, w) =>
  match Pipeline.debug prenex_form with
  | Raise e => (Raise e, w)
  | Return _ =>
  match stage Store.DistributeDisjunctions prenex_form w with
  | (Raise e, w) => (Raise e, w)
  | (Return cnf, w) =>
  match Pipeline.debug cnf with
  | Raise e => (Raise e, w)
  | Return _ => (Return cnf, w)
  end end end end end end end end end end end.

(** Given a sentence in which every equality has its two arguments, the
    helpers return such a sentence. *)
Definition helpers_keep_equalities : Prop :=
  forall st l s, Shape.equalities_binary l = true ->
    exists l' s',
      helper st l s = (Return (Some l'), s') /\
      Shape.equalities_binary l' = true.

End Helpers.

Arguments mkWorld {State} _ _.
Arguments axiom_id {State} _.
Arguments state {State} _.
Arguments Axiom_init {State} _ _.
Arguments stage {State} _ _ _ _.
Arguments ff_pcnf {State} _ _ _.
Arguments helpers_keep_equalities {State} _.

(** The helpers as [Pipeline] has them, with the counter of fresh names as
    their state, and helpers that return what they are given. *)
Definition pipeline_helper (st : Store.Stage) (l : Logical) (n : nat)
  : result (option Logical) * nat :=
  match st with
  | Store.SubstituteFunctions =>
      let '(l', n') := Pipeline.dfs_functions l n in (Return (Some l'), n')
  | Store.StandardizeVariables =>
      (Return (Some (fst (Pipeline.dfs_standardize [] l 0))), n)
  | Store.PushNegation => (Return (Some (Pipeline.dfs_negate l)), n)
  | Store.CreatePrenex => (Return (Some (Pipeline.prenex l)), n)
  | Store.DistributeDisjunctions => (Return (Some (Pipeline.to_onf l)), n)
  end.

Definition idle_helper (st : Store.Stage) (l : Logical) (s : unit)
  : result (option Logical) * unit :=
  (Return (Some l), s).

(** The axiom that the grammar builds from the text [(= x)]. *)
Definition unary_equality : Logical := Predicate "=" [Var "x"].

End Logged.

(** ** The grammar rules of [macleod/parsing/Parser.py] and their actions *)

Module Grammar.

(** Derivations, one constructor per production. The rules [axiom_list],
    [nonlogicals] and [parameter] have no empty production. *)
Inductive d_nonlogicals : Type :=
| nonlogicals_cons (name : string) (rest : d_nonlogicals)
| nonlogicals_one (name : string).

Inductive d_parameter : Type :=
| parameter_function_cons (f : d_function) (rest : d_parameter)
| parameter_nonlogicals_cons (n : d_nonlogicals) (rest : d_parameter)
| parameter_function (f : d_function)
| parameter_nonlogicals (n : d_nonlogicals)
with d_function : Type :=
| function_app (name : string) (p : d_parameter).

Inductive d_axiom : Type :=
| negation (a : d_axiom)
| universal (vs : d_nonlogicals) (a : d_axiom)
| existential (vs : d_nonlogicals) (a : d_axiom)
| conjunction (l : d_axiom_list)
| disjunction (l : d_axiom_list)
| conditional (a b : d_axiom)
| biconditional (a b : d_axiom)
| predicate (name : string) (p : d_parameter)
with d_axiom_list : Type :=
| axiom_list_cons (a : d_axiom) (rest : d_axiom_list)
| axiom_list_one (a : d_axiom).

(** [p_nonlogicals]: [p[2]] is the value of a [nonlogicals], a list, so
    the new name is put in front of it. *)
Fixpoint p_nonlogicals (d : d_nonlogicals) : list string :=
  match d with
  | nonlogicals_cons name rest => [name] ++ p_nonlogicals rest
  | nonlogicals_one name => [name]
  end.

(** [p_parameter] and [p_function]: the value of a [nonlogicals] is a
    list and is extended, a function is wrapped in a list first; the
    strings of the list are the variables of the term model. *)
Fixpoint p_parameter (d : d_parameter) : list Term :=
  match d with
  | parameter_function_cons f rest => [p_function f] ++ p_parameter rest
  | parameter_nonlogicals_cons n rest =>
      map Var (p_nonlogicals n) ++ p_parameter rest
  | parameter_function f => [p_function f]
  | parameter_nonlogicals n => map Var (p_nonlogicals n)
  end
with p_function (d : d_function) : Term :=
  match d with
  | function_app name p => Function name (p_parameter p)
  end.

(** [p_axiom], [p_negation], [p_universal], [p_existential],
    [p_conjunction], [p_disjunction], [p_conditional], [p_biconditional],
    [p_predicate] and [p_axiom_list]. *)
Fixpoint p_axiom (d : d_axiom) : Logical :=
  match d with
  | negation a => Negation (p_axiom a)
  | universal vs a => Universal (p_nonlogicals vs) (p_axiom a)
  | existential vs a => Existential (p_nonlogicals vs) (p_axiom a)
  | conjunction l => Conjunction (p_axiom_list l)
  | disjunction l => Disjunction (p_axiom_list l)
  | conditional a b => Disjunction [Negation (p_axiom a); p_axiom b]
  | biconditional a b =>
      Conjunction [Disjunction [Negation (p_axiom a); p_axiom b];
                   Disjunction [Negation (p_axiom b); p_axiom a]]
  | predicate name p => Predicate name (p_parameter p)
  end
with p_axiom_list (d : d_axiom_list) : list Logical :=
  match d with
  | axiom_list_cons a rest => [p_axiom a] ++ p_axiom_list rest
  | axiom_list_one a => [p_axiom a]
  end.

(** The tokens of a derivation, as the lexer delivers them: type and
    text. *)
Definition tok (type text : string) : string * string := (type, text).

Fixpoint nonlogicals_tokens (d : d_nonlogicals) : list (string * string) :=
  match d with
  | nonlogicals_cons name rest => tok "NONLOGICAL" name :: nonlogicals_tokens rest
  | nonlogicals_one name => [tok "NONLOGICAL" name]
  end.

Fixpoint parameter_tokens (d : d_parameter) : list (string * string) :=
  match d with
  | parameter_function_cons f rest => function_tokens f ++ parameter_tokens rest
  | parameter_nonlogicals_cons n rest =>
      nonlogicals_tokens n ++ parameter_tokens rest
  | parameter_function f => function_tokens f
  | parameter_nonlogicals n => nonlogicals_tokens n
  end
with function_tokens (d : d_function) : list (string * string) :=
  match d with
  | function_app name p =>
      [tok "LPAREN" "("; tok "NONLOGICAL" name] ++ parameter_tokens p ++
      [tok "RPAREN" ")"]
  end.

(** No list of the sentence is empty: every predicate and function has an
    argument, every connective a term, every quantifier a variable. *)
Definition nonempty {A : Type} (l : list A) : bool :=
  match l with [] => false | _ :: _ => true end.

Fixpoint nonempty_term (t : Term) : bool :=
  match t with
  | Var _ => true
  | Function _ vs => nonempty vs && forallb nonempty_term vs
  end.

Fixpoint nonempty_lists (l : Logical) : bool :=
  match l with
  | Predicate _ vs => nonempty vs && forallb nonempty_term vs
  | Negation t => nonempty_lists t
  | Conjunction ts | Disjunction ts => nonempty ts && forallb nonempty_lists ts
  | Universal vs t | Existential vs t => nonempty vs && nonempty_lists t
  end.

(** A term of the argument list written back as tokens. *)
Fixpoint term_tokens (t : Term) : list (string * string) :=
  match t with
  | Var s => [tok "NONLOGICAL" s]
  | Function name vs =>
      [tok "LPAREN" "("; tok "NONLOGICAL" name] ++
      List.concat (map term_tokens vs) ++ [tok "RPAREN" ")"]
  end.

(** The newline character. *)
Definition nl : ascii := ascii_of_nat 10.

(** A stack symbol that [p_error] can print: a list value holds strings
    only. *)
Definition printable (x : Parser.Symbol) : bool :=
  match Parser.sym_value x with
  | Parser.VList items =>
      forallb (fun v => match v with Parser.VStr _ => true | _ => false end) items
  | _ => true
  end.

End Grammar.

(* ================================================================= *)
(** * Part II: theorems *)
(* ================================================================= *)

(** ** Induction over sentences and terms, with the lists of subterms *)

Section NestedInduction.

Variable P : Term -> Prop.
Hypothesis P_Var : forall s, P (Var s).
Hypothesis P_Function : forall f args, Forall P args -> P (Function f args).

Lemma Term_nested_ind : forall t, P t.
Proof.
  fix IH 1. intros [s|f args].
  - apply P_Var.
  - apply P_Function. induction args as [|t ts IHts]; constructor.
    + apply IH.
    + exact IHts.
Qed.

End NestedInduction.

Section NestedInductionLogical.

Variable P : Logical -> Prop.
Hypothesis P_Predicate : forall p args, P (Predicate p args).
Hypothesis P_Negation : forall t, P t -> P (Negation t).
Hypothesis P_Conjunction : forall ts, Forall P ts -> P (Conjunction ts).
Hypothesis P_Disjunction : forall ts, Forall P ts -> P (Disjunction ts).
Hypothesis P_Universal : forall vs t, P t -> P (Universal vs t).
Hypothesis P_Existential : forall vs t, P t -> P (Existential vs t).

Lemma Logical_nested_ind : forall l, P l.
Proof.
  fix IH 1. intros [p args|t|ts|ts|vs t|vs t].
  - apply P_Predicate.
  - apply P_Negation, IH.
  - apply P_Conjunction. induction ts as [|t ts IHts]; constructor;
      [apply IH|exact IHts].
  - apply P_Disjunction. induction ts as [|t ts IHts]; constructor;
      [apply IH|exact IHts].
  - apply P_Universal, IH.
  - apply P_Existential, IH.
Qed.

End NestedInductionLogical.

Module PipelineFacts.
Import Pipeline.

(** *** Lists that are put in another order *)

Lemma Forall_filter_snd {X A : Type} (P : A -> Prop) (q : X * A -> bool)
    (rs : list (X * A)) :
  Forall (fun r => P (snd r)) rs -> Forall P (map snd (List.filter q rs)).
Proof.
  induction 1 as [|r rs Hr _ IH]; simpl; [constructor|].
  destruct (q r); simpl; [constructor|]; assumption.
Qed.

Lemma Forall_reattach {A : Type} (P : A -> Prop) (rs : list (bool * A)) :
  Forall (fun r => P (snd r)) rs -> Forall P (reattach rs).
Proof.
  intros H. unfold reattach. apply Forall_app. split.
  - apply Forall_filter_snd, H.
  - apply Forall_rev, Forall_filter_snd, H.
Qed.

Lemma Forall_others_first {A : Type} (P : A -> Prop) (rs : list (bool * A)) :
  Forall (fun r => P (snd r)) rs -> Forall P (others_first rs).
Proof.
  intros H. unfold others_first. apply Forall_app.
  split; apply Forall_filter_snd, H.
Qed.

Lemma Forall_pull (P : Logical -> Prop)
    (rs : list (list (Kind * list string) * Logical)) :
  Forall (fun r => P (snd r)) rs -> Forall P (snd (pull rs)).
Proof.
  intros H. unfold pull. simpl. apply Forall_app.
  split; apply Forall_filter_snd, H.
Qed.

Lemma Forall_flagged {A B : Type} (P : B -> Prop) (flag : A -> bool)
    (f : A -> B) (ts : list A) :
  Forall (fun t => P (f t)) ts ->
  Forall (fun r => P (snd r)) (map (fun t => (flag t, f t)) ts).
Proof. induction 1; simpl; constructor; assumption. Qed.

Lemma forallb_of_Forall {A : Type} (q : A -> bool) (l : list A) :
  Forall (fun x => q x = true) l -> forallb q l = true.
Proof.
  induction 1 as [|x l Hx _ IH]; simpl; [reflexivity|]. rewrite Hx, IH.
  reflexivity.
Qed.

(** *** Stage 1 leaves no function *)

Lemma names_are_function_free names :
  forallb term_is_name (map Var names) = true.
Proof. induction names; simpl; auto. Qed.

Lemma flatten_term_function_free t :
  forall counter,
    Forall (fun a => function_free a = true)
           (snd (fst (flatten_term t counter))).
Proof.
  induction t as [s|f args IH] using Term_nested_ind; intros counter.
  - constructor.
  - simpl.
    set (go := fix go (ts : list Term) (counter : nat) := _).
    assert (Hgo : forall counter,
              Forall (fun a => function_free a = true)
                     (snd (fst (go args counter)))).
    { clear counter. induction IH as [|t ts Ht _ IHts]; intros counter; simpl.
      - constructor.
      - specialize (Ht counter).
        destruct (flatten_term t counter) as [[[n fr] ats] c1]. simpl in *.
        specialize (IHts c1). destruct (go ts c1) as [[[ns frs] atss] c2].
        simpl in *. apply Forall_app. split; assumption. }
    specialize (Hgo (S counter)).
    destruct (go args (S counter)) as [[[names fresh] atoms] c1].
    simpl in *. apply Forall_app. split; [assumption|].
    constructor; [|constructor]. simpl. apply names_are_function_free.
Qed.

Lemma flatten_args_function_free ts :
  forall counter,
    Forall (fun a => function_free a = true)
           (snd (fst (flatten_args ts counter))).
Proof.
  induction ts as [|t ts IH]; intros counter; simpl.
  - constructor.
  - pose proof (flatten_term_function_free t counter) as Ht.
    destruct (flatten_term t counter) as [[[n fr] ats] c1]. simpl in *.
    specialize (IH c1). destruct (flatten_args ts c1) as [[[ns bound] atss] c2].
    simpl in *. apply Forall_app. split; assumption.
Qed.

Lemma relation_function_free atoms :
  Forall (fun a => function_free a = true) atoms ->
  function_free (relation atoms) = true.
Proof.
  intros H. apply forallb_of_Forall in H.
  destruct atoms as [|r [|r' rs]]; simpl in *; auto.
  rewrite andb_true_r in H. exact H.
Qed.

Lemma substitute_function_free negated p args counter :
  function_free (fst (substitute negated p args counter)) = true.
Proof.
  unfold substitute.
  pose proof (flatten_args_function_free args counter) as Hd.
  destruct (flatten_args args counter) as [[[names bound] atoms] c1].
  simpl in Hd. destruct atoms as [|r rs].
  - destruct negated; simpl; apply names_are_function_free.
  - apply relation_function_free in Hd.
    destruct negated; cbn [fst function_free forallb];
      rewrite names_are_function_free, Hd; reflexivity.
Qed.

Lemma thread_forallb {A B : Type} (f : A -> nat -> B * nat) (q : B -> bool) ts :
  Forall (fun t => forall counter, q (fst (f t counter)) = true) ts ->
  forall counter, forallb q (fst (thread f ts counter)) = true.
Proof.
  induction 1 as [|t ts Ht _ IH]; intros counter; simpl; [reflexivity|].
  specialize (Ht counter). destruct (f t counter) as [t' c1].
  specialize (IH c1). destruct (thread f ts c1) as [ts' c2]. simpl in *.
  rewrite Ht, IH. reflexivity.
Qed.

Lemma dfs_functions_function_free l :
  forall counter, function_free (fst (dfs_functions l counter)) = true.
Proof.
  induction l as [p args|t IH|ts IH|ts IH|vs t IH|vs t IH]
    using Logical_nested_ind; intros counter.
  - apply substitute_function_free.
  - destruct t as [p args|t'|ts|ts|vs t'|vs t'];
      try apply substitute_function_free;
      specialize (IH counter); cbn [dfs_functions] in *;
      match goal with
      | |- context [let '(_, _) := ?x in _] => destruct x
      end; exact IH.
  - simpl. pose proof (thread_forallb _ function_free ts IH counter) as H.
    destruct (thread dfs_functions ts counter). exact H.
  - simpl. pose proof (thread_forallb _ function_free ts IH counter) as H.
    destruct (thread dfs_functions ts counter). exact H.
  - simpl. specialize (IH counter). destruct (dfs_functions t counter). exact IH.
  - simpl. specialize (IH counter). destruct (dfs_functions t counter). exact IH.
Qed.

(** *** Stage 2 keeps sentences function-free and draws the names in
        order *)

Lemma rename_keeps_names env args :
  forallb term_is_name args = true ->
  forallb term_is_name (map (rename_term env) args) = true.
Proof.
  induction args as [|[s|f a] args IH]; simpl; auto; discriminate.
Qed.

Lemma thread_forallb_pres {A B : Type} (f : A -> nat -> B * nat)
    (p : A -> bool) (q : B -> bool) ts :
  Forall (fun t => forall counter, p t = true -> q (fst (f t counter)) = true) ts ->
  forall counter, forallb p ts = true ->
    forallb q (fst (thread f ts counter)) = true.
Proof.
  induction 1 as [|t ts Ht _ IH]; intros counter Hp; simpl; [reflexivity|].
  simpl in Hp. apply andb_true_iff in Hp as [Hp1 Hp2].
  specialize (Ht counter Hp1). destruct (f t counter) as [t' c1].
  specialize (IH c1 Hp2). destruct (thread f ts c1) as [ts' c2]. simpl in *.
  rewrite Ht, IH. reflexivity.
Qed.

Lemma dfs_standardize_function_free l :
  forall env k, function_free l = true ->
    function_free (fst (dfs_standardize env l k)) = true.
Proof.
  induction l as [p args|t IH|ts IH|ts IH|vs t IH|vs t IH]
    using Logical_nested_ind; intros env k Hff; simpl in *.
  - by apply rename_keeps_names.
  - specialize (IH env k Hff). destruct (dfs_standardize env t k). exact IH.
  - assert (H := thread_forallb_pres (dfs_standardize env) function_free
                   function_free ts).
    specialize (H ltac:(eapply Forall_impl; [exact IH|]; simpl; auto) k Hff).
    destruct (thread (dfs_standardize env) ts k). exact H.
  - assert (H := thread_forallb_pres (dfs_standardize env) function_free
                   function_free ts).
    specialize (H ltac:(eapply Forall_impl; [exact IH|]; simpl; auto) k Hff).
    destruct (thread (dfs_standardize env) ts k). exact H.
  - specialize (IH (bind_all vs (draw vs k) env) (k + length vs)%nat Hff).
    destruct (dfs_standardize _ t _). exact IH.
  - specialize (IH (bind_all vs (draw vs k) env) (k + length vs)%nat Hff).
    destruct (dfs_standardize _ t _). exact IH.
Qed.


Lemma drawn_app k n m : drawn k (n + m) = drawn k n ++ drawn (k + n) m.
Proof. unfold drawn. rewrite seq_app, map_app. reflexivity. Qed.

Lemma thread_standardize env ts :
  Forall (fun t => forall env k,
    quantified_variables (fst (dfs_standardize env t k))
      = drawn k (length (quantified_variables t)) /\
    snd (dfs_standardize env t k)
      = (k + length (quantified_variables t))%nat) ts ->
  forall k,
    List.concat (List.concat
      (map quantifier_lists (fst (thread (dfs_standardize env) ts k))))
      = drawn k (length (List.concat (List.concat (map quantifier_lists ts)))) /\
    snd (thread (dfs_standardize env) ts k)
      = (k + length (List.concat (List.concat (map quantifier_lists ts))))%nat.
Proof.
  induction 1 as [|t ts Ht _ IH]; intros k; simpl.
  - split; [reflexivity|lia].
  - destruct (Ht env k) as [H1 H2].
    destruct (dfs_standardize env t k) as [t' k1]. simpl in *. subst k1.
    destruct (IH (k + length (quantified_variables t))%nat) as [H3 H4].
    destruct (thread (dfs_standardize env) ts _) as [ts' k2]. simpl in *.
    subst k2. unfold quantified_variables in *.
    rewrite !concat_app, !length_app, H1, H3, drawn_app. split; [reflexivity|lia].
Qed.

Lemma dfs_standardize_draws l :
  forall env k,
    quantified_variables (fst (dfs_standardize env l k))
      = drawn k (length (quantified_variables l)) /\
    snd (dfs_standardize env l k) = (k + length (quantified_variables l))%nat.
Proof.
  induction l as [p args|t IH|ts IH|ts IH|vs t IH|vs t IH]
    using Logical_nested_ind; intros env k; simpl.
  - split; [reflexivity|]. unfold quantified_variables. simpl. lia.
  - specialize (IH env k). destruct (dfs_standardize env t k). exact IH.
  - pose proof (thread_standardize env ts IH k) as H.
    destruct (thread (dfs_standardize env) ts k). exact H.
  - pose proof (thread_standardize env ts IH k) as H.
    destruct (thread (dfs_standardize env) ts k). exact H.
  - specialize (IH (bind_all vs (draw vs k) env) (k + length vs)%nat).
    destruct (dfs_standardize _ t _) as [t' k']. simpl in *.
    destruct IH as [H1 H2]. unfold quantified_variables in *. simpl.
    rewrite H1, length_app, drawn_app. split; [reflexivity|lia].
  - specialize (IH (bind_all vs (draw vs k) env) (k + length vs)%nat).
    destruct (dfs_standardize _ t _) as [t' k']. simpl in *.
    destruct IH as [H1 H2]. unfold quantified_variables in *. simpl.
    rewrite H1, length_app, drawn_app. split; [reflexivity|lia].
Qed.

(** *** The generator never repeats a name *)

Lemma repeat_char_length c n : String.length (repeat_char c n) = n.
Proof. induction n; simpl; auto. Qed.

Lemma reverse_letter_inj i j :
  (i < 26)%nat -> (j < 26)%nat -> reverse_letter i = reverse_letter j -> i = j.
Proof.
  unfold reverse_letter. intros Hi Hj H.
  apply (f_equal nat_of_ascii) in H.
  rewrite !nat_ascii_embedding in H by lia. lia.
Qed.

Lemma repeat_char_inj c d a b :
  repeat_char c (S a) = repeat_char d (S b) -> c = d /\ a = b.
Proof.
  intros H. split.
  - simpl in H. congruence.
  - apply (f_equal String.length) in H.
    rewrite !repeat_char_length in H. lia.
Qed.

Lemma generator_inj n m : generator n = generator m -> n = m.
Proof.
  unfold generator. intros H.
  pose proof (Nat.div_mod_eq n 26) as Hn.
  pose proof (Nat.div_mod_eq m 26) as Hm.
  pose proof (Nat.mod_upper_bound n 26 ltac:(lia)) as Hn'.
  pose proof (Nat.mod_upper_bound m 26 ltac:(lia)) as Hm'.
  revert H Hn Hm Hn' Hm'.
  generalize (n mod 26)%nat (m mod 26)%nat (n / 26)%nat (m / 26)%nat.
  intros r1 r2 q1 q2 H Hn Hm Hn' Hm'.
  apply repeat_char_inj in H as [Hc Hq].
  apply reverse_letter_inj in Hc; [|assumption..]. lia.
Qed.

Lemma drawn_NoDup k n : NoDup (drawn k n).
Proof.
  unfold drawn. apply NoDup_fmap_2.
  - intros a b. apply generator_inj.
  - apply NoDup_seq.
Qed.

(** *** Stage 3: negation normal form *)

Lemma push_function_free l :
  forall neg, function_free l = true -> function_free (push neg l) = true.
Proof.
  induction l as [p args|t IH|ts IH|ts IH|vs t IH|vs t IH]
    using Logical_nested_ind; intros neg Hff; simpl in *.
  - destruct neg; exact Hff.
  - auto.
  - assert (forallb function_free (map (push neg) ts) = true).
    { induction IH as [|t ts Ht _ IHts]; simpl in *; [reflexivity|].
      apply andb_true_iff in Hff as [H1 H2]. rewrite Ht, IHts; auto. }
    destruct neg; assumption.
  - assert (forallb function_free (map (push neg) ts) = true).
    { induction IH as [|t ts Ht _ IHts]; simpl in *; [reflexivity|].
      apply andb_true_iff in Hff as [H1 H2]. rewrite Ht, IHts; auto. }
    destruct neg; assumption.
  - destruct neg; simpl; auto.
  - destruct neg; simpl; auto.
Qed.

Lemma push_negation_normal l : forall neg, negation_normal (push neg l) = true.
Proof.
  induction l as [p args|t IH|ts IH|ts IH|vs t IH|vs t IH]
    using Logical_nested_ind; intros neg; simpl.
  - destruct neg; reflexivity.
  - apply IH.
  - assert (forallb negation_normal (map (push neg) ts) = true).
    { induction IH as [|t ts Ht _ IHts]; simpl; [reflexivity|].
      rewrite Ht, IHts. reflexivity. }
    destruct neg; assumption.
  - assert (forallb negation_normal (map (push neg) ts) = true).
    { induction IH as [|t ts Ht _ IHts]; simpl; [reflexivity|].
      rewrite Ht, IHts. reflexivity. }
    destruct neg; assumption.
  - destruct neg; simpl; apply IH.
  - destruct neg; simpl; apply IH.
Qed.

(** *** Stage 4: the quantifiers move to the front *)


Lemma plain_iff l :
  plain l = true <->
  quantifier_free l = true /\ negation_normal l = true /\ function_free l = true.
Proof. unfold plain. rewrite !andb_true_iff. tauto. Qed.

Lemma forallb_plain ts :
  forallb plain ts = true <->
  forallb quantifier_free ts = true /\ forallb negation_normal ts = true /\
  forallb function_free ts = true.
Proof.
  induction ts as [|t ts IH]; simpl; [tauto|].
  rewrite !andb_true_iff, IH, plain_iff. tauto.
Qed.

Lemma rescope_connective_plain ts :
  Forall (fun l => negation_normal l = true -> function_free l = true ->
                   plain (snd (rescope l)) = true) ts ->
  forallb negation_normal ts = true -> forallb function_free ts = true ->
  forallb plain
    (snd (pull (reattach (map (fun t => (is_connective t, rescope t)) ts))))
  = true.
Proof.
  intros IH Hnn Hff.
  assert (H : Forall (fun t => plain (snd (rescope t)) = true) ts).
  { induction IH as [|t ts Ht _ IHts]; simpl in *; constructor;
      apply andb_true_iff in Hnn as [? ?];
      apply andb_true_iff in Hff as [? ?]; auto. }
  apply (Forall_flagged (fun m => plain m = true) is_connective
           (fun t => snd (rescope t))) in H.
  apply forallb_of_Forall, Forall_pull, Forall_reattach.
  clear -H. induction ts as [|t ts IH]; simpl in *; [constructor|].
  inversion H; subst. constructor; auto.
Qed.

Lemma rescope_plain l :
  negation_normal l = true -> function_free l = true ->
  plain (snd (rescope l)) = true.
Proof.
  induction l as [p args|t IH|ts IH|ts IH|vs t IH|vs t IH]
    using Logical_nested_ind; intros Hnn Hff.
  - apply plain_iff. auto.
  - simpl in *. destruct t; try discriminate. apply plain_iff. auto.
  - pose proof (rescope_connective_plain ts IH Hnn Hff) as H.
    cbn [rescope]. destruct (pull _) as [qs ms]. cbn [snd] in *.
    apply forallb_plain in H as (? & ? & ?). apply plain_iff. simpl. auto.
  - pose proof (rescope_connective_plain ts IH Hnn Hff) as H.
    cbn [rescope]. destruct (pull _) as [qs ms]. cbn [snd] in *.
    apply forallb_plain in H as (? & ? & ?). apply plain_iff. simpl. auto.
  - simpl in *. specialize (IH Hnn Hff). destruct (rescope t). exact IH.
  - simpl in *. specialize (IH Hnn Hff). destruct (rescope t). exact IH.
Qed.

Lemma matrix_quantifier_free l : quantifier_free l = true -> matrix l = l.
Proof. destruct l; simpl; auto; discriminate. Qed.

Lemma matrix_quantify qs m : matrix (fold_right quantify m qs) = matrix m.
Proof.
  induction qs as [|[[|] vs] qs IH]; simpl; auto.
Qed.

Lemma function_free_quantify qs m :
  function_free (fold_right quantify m qs) = function_free m.
Proof.
  induction qs as [|[[|] vs] qs IH]; simpl; auto.
Qed.

(** *** Stage 5: conjunctive normal form *)


Lemma clause_product_literals cs ds :
  forallb literals cs = true -> forallb literals ds = true ->
  forallb literals (clause_product cs ds) = true.
Proof.
  unfold clause_product. intros Hc Hd.
  induction cs as [|c cs IH]; simpl in *; [reflexivity|].
  apply andb_true_iff in Hc as [Hc1 Hc2].
  rewrite forallb_app, IH by assumption. rewrite andb_true_r.
  clear IH Hc2. induction ds as [|d ds IHd]; simpl in *; [reflexivity|].
  apply andb_true_iff in Hd as [Hd1 Hd2].
  rewrite IHd by assumption. rewrite andb_true_r.
  unfold literals in *. rewrite forallb_app, Hc1, Hd1. reflexivity.
Qed.

Lemma product_literals (css : list (list (list Logical))) :
  Forall (fun cs => forallb literals cs = true) css ->
  forallb literals (fold_right clause_product [[]] css) = true.
Proof.
  induction 1 as [|cs css Hcs _ IH]; simpl; [reflexivity|].
  apply clause_product_literals; assumption.
Qed.

Lemma clauses_literals l :
  plain l = true -> forallb literals (clauses l) = true.
Proof.
  induction l as [p args|t IH|ts IH|ts IH|vs t IH|vs t IH]
    using Logical_nested_ind; intros Hp; apply plain_iff in Hp as (Hq & Hn & Hf).
  - simpl in *. rewrite Hf. reflexivity.
  - simpl in *. destruct t; try discriminate. simpl in *. rewrite Hf.
    reflexivity.
  - simpl in *. induction IH as [|t ts Ht _ IHts]; simpl in *; [reflexivity|].
    apply andb_true_iff in Hq as [? ?]. apply andb_true_iff in Hn as [? ?].
    apply andb_true_iff in Hf as [? ?].
    rewrite forallb_app, Ht, IHts; auto. apply plain_iff; auto.
  - cbn [clauses]. apply product_literals, Forall_others_first.
    apply (Forall_flagged (fun cs => forallb literals cs = true)
             is_conjunction clauses).
    simpl in Hq, Hn, Hf.
    induction IH as [|t ts Ht _ IHts]; simpl in *; constructor;
      apply andb_true_iff in Hq as [? ?]; apply andb_true_iff in Hn as [? ?];
      apply andb_true_iff in Hf as [? ?]; auto.
    apply Ht, plain_iff; auto.
  - discriminate.
  - discriminate.
Qed.

Lemma literal_is_clause x : is_literal x = true -> is_clause x = true.
Proof. destruct x; simpl; auto; discriminate. Qed.

Lemma clause_is_cnf x : is_clause x = true -> is_cnf x = true.
Proof. destruct x; simpl; auto; discriminate. Qed.

Lemma clause_of_shape c :
  literals c = true ->
  is_clause (clause_of c) = true /\ function_free (clause_of c) = true.
Proof.
  unfold literals. intros H.
  assert (Hl : forallb is_literal c = true /\ forallb function_free c = true).
  { induction c as [|x c IH]; simpl in *; [auto|].
    apply andb_true_iff in H as [Hx Hc]. apply andb_true_iff in Hx as [? ?].
    destruct (IH Hc). split; apply andb_true_iff; auto. }
  destruct Hl as [Hl Hf].
  destruct c as [|x [|y c]]; simpl in *; auto.
  apply andb_true_iff in Hl as [Hl _]. apply andb_true_iff in Hf as [Hf _].
  split; [apply literal_is_clause|]; assumption.
Qed.

Lemma conjunction_of_shape cs :
  forallb is_clause cs = true -> forallb function_free cs = true ->
  is_cnf (conjunction_of cs) = true /\ function_free (conjunction_of cs) = true.
Proof.
  intros Hc Hf. destruct cs as [|x [|y cs]]; simpl in *; auto.
  apply andb_true_iff in Hc as [Hc _]. apply andb_true_iff in Hf as [Hf _].
  split; [apply clause_is_cnf|]; assumption.
Qed.

Lemma onf_matrix_shape m :
  plain m = true ->
  let r := conjunction_of (map clause_of (clauses m)) in
  is_cnf r = true /\ function_free r = true.
Proof.
  intros Hp. apply clauses_literals in Hp. simpl.
  apply conjunction_of_shape.
  - induction (clauses m) as [|c cs IH]; simpl in *; [reflexivity|].
    apply andb_true_iff in Hp as [Hc Hcs].
    rewrite (proj1 (clause_of_shape c Hc)), IH; auto.
  - induction (clauses m) as [|c cs IH]; simpl in *; [reflexivity|].
    apply andb_true_iff in Hp as [Hc Hcs].
    rewrite (proj2 (clause_of_shape c Hc)), IH; auto.
Qed.

Lemma to_onf_plain m :
  quantifier_free m = true ->
  to_onf m = conjunction_of (map clause_of (clauses m)).
Proof. destruct m; simpl; auto; discriminate. Qed.

Lemma to_onf_quantify qs m :
  to_onf (fold_right quantify m qs) = fold_right quantify (to_onf m) qs.
Proof.
  induction qs as [|[[|] vs] qs IH]; simpl; auto;
    unfold quantify at 1; simpl; rewrite <- IH; reflexivity.
Qed.

Lemma literal_quantifier_free x : is_literal x = true -> quantifier_free x = true.
Proof. destruct x as [| [] | | | |]; simpl; auto; discriminate. Qed.

Lemma clause_quantifier_free x : is_clause x = true -> quantifier_free x = true.
Proof.
  destruct x as [| t |ts|ts| |]; simpl; try discriminate; auto.
  - apply (literal_quantifier_free (Negation t)).
  - intros H. induction ts as [|t ts IH]; simpl in *; [reflexivity|].
    apply andb_true_iff in H as [H1 H2].
    rewrite (literal_quantifier_free _ H1), IH; auto.
Qed.

Lemma cnf_quantifier_free x : is_cnf x = true -> quantifier_free x = true.
Proof.
  destruct x as [| t |ts|ts| |]; simpl; try discriminate; auto.
  - apply (literal_quantifier_free (Negation t)).
  - intros H. induction ts as [|t ts IH]; simpl in *; [reflexivity|].
    apply andb_true_iff in H as [H1 H2].
    rewrite (clause_quantifier_free _ H1), IH; auto.
  - apply (clause_quantifier_free (Disjunction ts)).
Qed.

(** The last two stages on a sentence in negation normal form. *)
Lemma prenex_onf_shape l :
  negation_normal l = true -> function_free l = true ->
  let r := to_onf (prenex l) in
  function_free r = true /\ quantifiers_outermost r = true /\
  is_cnf (matrix r) = true.
Proof.
  intros Hnn Hff. pose proof (rescope_plain l Hnn Hff) as Hp.
  unfold prenex. destruct (rescope l) as [qs m]. simpl in *.
  rewrite to_onf_quantify.
  pose proof Hp as Hp'. apply plain_iff in Hp' as (Hq & _ & _).
  rewrite (to_onf_plain m Hq).
  destruct (onf_matrix_shape m Hp) as [Hcnf Hf]. simpl in *.
  unfold quantifiers_outermost.
  rewrite function_free_quantify, matrix_quantify.
  rewrite (matrix_quantifier_free _ (cnf_quantifier_free _ Hcnf)).
  split_and!; auto using cnf_quantifier_free.
Qed.


(** *** The pipeline on the sentence *)

(** The sentence that the five stages compute. *)
Lemma stages_give_normal_form l n :
  let r := to_onf (prenex (dfs_negate (fst (dfs_standardize []
             (fst (dfs_functions l n)) 0)))) in
  function_free r = true /\
  quantifiers_outermost r = true /\
  is_cnf (matrix r) = true.
Proof.
  cbv zeta. apply prenex_onf_shape.
  - apply push_negation_normal.
  - apply push_function_free, dfs_standardize_function_free,
      dfs_functions_function_free.
Qed.

(** When no debug message raises, [ff_pcnf] returns the axiom of the five
    stages, with the id of the fifth. *)
Lemma ff_pcnf_returns a c r c' :
  ff_pcnf a c = (Return r, c') ->
  sentence r = to_onf (prenex (dfs_negate (fst (dfs_standardize []
                 (fst (dfs_functions (sentence a) (fresh_counter c))) 0)))) /\
  id r = axiom_id c + 4 /\
  c' = mkCounters (axiom_id c + 5)
                  (snd (dfs_functions (sentence a) (fresh_counter c))).
Proof.
  unfold ff_pcnf, substitute_functions, standardize_variables, push_negation,
    create_prenex, distribute_disjunctions, new_axiom.
  destruct (dfs_functions (sentence a) (fresh_counter c)) as [s n].
  cbn [fst snd sentence axiom_id fresh_counter].
  repeat match goal with
         | |- context [match debug ?x with _ => _ end] =>
             destruct (debug x); [|discriminate]
         end.
  intros [= <- <-]. cbn [sentence id].
  split_and!; [reflexivity|lia|f_equal; lia].
Qed.



(** Whatever [ff_pcnf] returns is in function-free prenex conjunctive
    normal form. *)
Lemma ff_pcnf_normal_form a c r c' :
  ff_pcnf a c = (Return r, c') ->
  function_free (sentence r) = true /\
  quantifiers_outermost (sentence r) = true /\
  is_cnf (matrix (sentence r)) = true.
Proof.
  intros H. apply ff_pcnf_returns in H as [-> _]. apply stages_give_normal_form.
Qed.

(** *** The model and the worked examples *)

(** The second and the third scenario of section 8 of the specification
    ([test_Axiom.py], lines 74 to 82) come out of the stages as they are
    written there. *)
Lemma stages_agree_with_the_scenarios (n : nat) :
  repr (to_onf (prenex (dfs_negate (fst (dfs_standardize []
          (fst (dfs_functions scenario_two n)) 0)))))
    = "∀(z,y,x)[(C(x) & (A(z) | B(y)))]" /\
  repr (to_onf (prenex (dfs_negate (fst (dfs_standardize []
          (fst (dfs_functions scenario_three n)) 0)))))
    = "∀(z,y,x,w,v)[((A(z) | ~C(w,v) | F(w,v)) & (A(z) | B(y)))]".
Proof.
  split; [reflexivity|].
  unfold scenario_three. cbn [dfs_functions thread substitute flatten_args
    flatten_term fst snd app dedup List.filter relation map].
  set (v := fresh_name "F" n).
  assert (Hz : String.eqb "z" v = false) by reflexivity.
  assert (Hv : String.eqb v "z" = false) by reflexivity.
  rewrite Hz. cbn [negb dfs_standardize thread fst snd bind_all draw length
    combine rev app seq map rename_term translate Nat.add].
  rewrite Hv, !String.eqb_refl. reflexivity.
Qed.

(** The three expectations of [test_axiom_simple_function_replacement]
    ([test_Axiom.py], lines 21, 24 and 28), with the counter at the number
    of the first fresh name. *)
Lemma dfs_functions_agrees_with_the_tests :
  repr (fst (dfs_functions three_functions 2))
    = "∀(x,y,z)[∀(f2,t3,p4)[(~A(f2,t3,p4) | (f(x,f2) & t(y,t3) & p(z,p4)))]]" /\
  repr (fst (dfs_functions negated_function 5))
    = "∀(x)[~~∀(f5)[(C(f5) | f(x,f5))]]" /\
  repr (fst (dfs_functions nested_functions 5))
    = "∀(x)[∀(f5,g6,h7)[(~C(f5) | (h(x,h7) & g(h7,g6) & f(g6,f5)))]]".
Proof. split_and!; reflexivity. Qed.

(** *** The claims about the pipeline *)


Lemma NoDup_concat_lists (ls : list (list string)) :
  NoDup (List.concat ls) ->
  Forall NoDup ls /\
  forall i j li lj x, i <> j -> ls !! i = Some li -> ls !! j = Some lj ->
    x ∈ li -> x ∈ lj -> False.
Proof.
  induction ls as [|l ls IH]; simpl; intros Hnd.
  - split; [constructor|]. intros i j li lj x _ Hi. by destruct i.
  - apply NoDup_app in Hnd as (Hl & Hdisj & Hrest).
    destruct (IH Hrest) as [Hall Hpair]. split; [by constructor|].
    assert (Hin : forall k lk x, ls !! k = Some lk -> x ∈ lk -> x ∈ List.concat ls).
    { intros k lk x Hk Hx. apply list_elem_of_In, in_concat.
      exists lk. split; apply list_elem_of_In; [|done].
      eapply list_elem_of_lookup_2; eauto. }
    intros [|i] [|j] li lj x Hne Hi Hj Hxi Hxj; simpl in *; simplify_eq.
    + eapply Hdisj; eauto.
    + eapply Hdisj; eauto.
    + eapply (Hpair i j); eauto.
Qed.

(** C4: [standardize_variables(A)] gives the quantifiers, in depth-first
    order, the names z, y, x, ... of the generator, one new name for each
    variable of each quantifier; so every quantifier's list is free of
    repetitions and the lists of two different quantifiers are disjoint.
    Standardizing the result again keeps this. *)
Theorem standardize_variables_distinct (a : Ax) (c : Counters) :
  let r := fst (standardize_variables a c) in
  quantified_variables (sentence r)
    = map generator (seq 0 (length (quantified_variables (sentence a)))) /\
  map generator [0; 1; 2]%nat = ["z"; "y"; "x"] /\
  NoDup (quantified_variables (sentence r)) /\
  Forall NoDup (quantifier_lists (sentence r)) /\
  (forall i j li lj x, i <> j ->
     quantifier_lists (sentence r) !! i = Some li ->
     quantifier_lists (sentence r) !! j = Some lj ->
     x ∈ li -> x ∈ lj -> False) /\
  (forall c', NoDup (quantified_variables
                       (sentence (fst (standardize_variables r c'))))).
Proof.
  cbv zeta. unfold standardize_variables. simpl.
  assert (Hnd : forall s, NoDup (quantified_variables (fst (dfs_standardize [] s 0)))).
  { intros s. rewrite (proj1 (dfs_standardize_draws s [] 0)). apply drawn_NoDup. }
  split_and!.
  - apply (dfs_standardize_draws (sentence a) [] 0).
  - reflexivity.
  - apply Hnd.
  - apply NoDup_concat_lists, Hnd.
  - apply NoDup_concat_lists, Hnd.
  - intros c'. apply Hnd.
Qed.

End PipelineFacts.



Module StoreFacts.
Import Store.

Lemma tree_weaken n h h' x : h ⊆ h' -> tree n h x -> tree n h' x.
Proof.
  intros Hsub. revert x. induction n as [|n IH]; simpl; [done|].
  intros x (o & Hx & Hr). exists o. split.
  - eapply lookup_weaken; eauto.
  - intros r Hin. apply IH, Hr, Hin.
Qed.

Lemma tree_S n h x : tree n h x -> tree (S n) h x.
Proof.
  revert x. induction n as [|n IH]; [done|].
  intros x (o & Hx & Hr). exists o. split; [done|].
  intros r Hin. apply IH, Hr, Hin.
Qed.

Lemma tree_le n m h x : (n <= m)%nat -> tree n h x -> tree m h x.
Proof. induction 1; auto using tree_S. Qed.

Lemma tree_allocated n h x : tree n h x -> x ∈ dom h.
Proof.
  destruct n; [done|]. intros (o & Hx & _). apply elem_of_dom; eauto.
Qed.

Lemma same_value_weaken n h1 h2 h1' h2' x y :
  h1 ⊆ h1' -> h2 ⊆ h2' ->
  same_value n h1 h2 x y -> same_value n h1' h2' x y.
Proof.
  intros H1 H2. revert x y. induction n as [|n IH]; simpl; [done|].
  intros x y (o1 & o2 & Hx & Hy & Hc & Hn & Hv & Ht).
  exists o1, o2. split_and!; eauto using lookup_weaken.
  - eapply Forall2_impl; [exact Hv|]. intros [s|l] [s'|l']; simpl; auto.
  - eapply Forall2_impl; [exact Ht|]. intros [s|l] [s'|l']; simpl; auto.
Qed.

Lemma elem_of_ref_locs l rs : l ∈ ref_locs rs <-> RObj l ∈ rs.
Proof.
  unfold ref_locs. rewrite list_elem_of_omap. split.
  - intros ([s|l'] & Hin & Heq); simplify_eq. done.
  - intros Hin. exists (RObj l). done.
Qed.

Lemma elem_of_refs l o :
  l ∈ refs o <-> RObj l ∈ variables o \/ RObj l ∈ terms o.
Proof. unfold refs. rewrite elem_of_app, !elem_of_ref_locs. done. Qed.

(** The height bound of [same_value] only depends on the left structure. *)
Lemma same_value_height n m h1 h2 x y :
  same_value n h1 h2 x y -> tree m h1 x -> same_value m h1 h2 x y.
Proof.
  revert m x y. induction n as [|n IH]; [done|].
  intros [|m] x y; [done|].
  intros (o1 & o2 & Hx & Hy & Hc & Hn & Hv & Ht) (o & Hx' & Hr).
  rewrite Hx in Hx'. injection Hx' as <-.
  exists o1, o2. split_and!; auto.
  - assert (Hsub : forall l, RObj l ∈ variables o1 -> tree m h1 l).
    { intros l Hl. apply Hr, elem_of_refs. auto. }
    clear Hr Hx Hy Hc Hn Ht. induction Hv as [|r1 r2 l1 l2 Hr12 Hv IHv];
      constructor.
    + destruct r1 as [s|l], r2 as [s'|l']; simpl in *; auto.
      apply IH; auto. apply Hsub. left.
    + apply IHv. intros l Hl. apply Hsub. right. done.
  - assert (Hsub : forall l, RObj l ∈ terms o1 -> tree m h1 l).
    { intros l Hl. apply Hr, elem_of_refs. auto. }
    clear Hr Hx Hy Hc Hn Hv. induction Ht as [|r1 r2 l1 l2 Hr12 Ht IHt];
      constructor.
    + destruct r1 as [s|l], r2 as [s'|l']; simpl in *; auto.
      apply IH; auto. apply Hsub. left.
    + apply IHt. intros l Hl. apply Hsub. right. done.
Qed.

Lemma reach_outside old h x y :
  closed_outside old h -> x ∉ old -> reach h x y -> y ∉ old.
Proof.
  intros Hc Hx Hr. induction Hr as [|x o r y Hlk Hin _ IH]; [done|].
  apply IH. eapply Hc; eauto.
Qed.

Lemma tree_reach_dom n h0 h x y :
  h0 ⊆ h -> tree n h0 x -> reach h x y -> y ∈ dom h0.
Proof.
  intros Hsub Ht Hr. revert n Ht.
  induction Hr as [x|x o r y Hlk Hin _ IH]; intros n Ht.
  - eauto using tree_allocated.
  - destruct n as [|n]; [done|]. destruct Ht as (o0 & Hx & Hch).
    pose proof (lookup_weaken _ _ _ _ Hx Hsub) as Hx'. simplify_eq.
    eapply IH, Hch, Hin.
Qed.

Section Deepcopy.
Variable h0 : gmap loc Obj.


Lemma copying_weaken_memo h h' memo :
  copying h0 h memo -> h ⊆ h' -> closed_outside (dom h0) h' -> copying h0 h' memo.
Proof.
  intros [[Hsub Hcl] Hm] Hhh Hcl'. split; [split|].
  - etrans; eauto.
  - done.
  - intros x y Hxy. destruct (Hm x y Hxy) as (Hy & [o Ho] & Hs).
    split; [done|]. split.
    + exists o. eapply lookup_weaken; eauto.
    + intros n Ht. eapply same_value_weaken; [reflexivity|exact Hhh|auto].
Qed.

Lemma copy_refs_ok n rec :
  (forall h memo x, copying h0 h memo -> tree n h0 x ->
     exists h' memo' y, rec h memo x = Some (h', memo', y) /\
       copying h0 h' memo' /\ h ⊆ h' /\ (y ∉ dom h0) /\
       same_value n h0 h' x y) ->
  forall rs h memo, copying h0 h memo ->
    (forall l, RObj l ∈ rs -> tree n h0 l) ->
    exists h' memo' rs', copy_refs rec h memo rs = Some (h', memo', rs') /\
      copying h0 h' memo' /\ h ⊆ h' /\ Forall2 (copied h0 n h') rs rs'.
Proof.
  intros Hrec. induction rs as [|r rs IH]; intros h memo Hinv Htr.
  - exists h, memo, []. simpl. split_and!; auto; apply Hinv.
  - assert (Htr' : forall l, RObj l ∈ rs -> tree n h0 l).
    { intros l Hl. apply Htr. right. done. }
    destruct r as [s|l]; simpl.
    + destruct (IH h memo Hinv Htr') as (h' & memo' & rs' & -> & Hi & Hs & Hf).
      simpl. exists h', memo', (RStr s :: rs'). split_and!; auto.
      constructor; [|done]. split; simpl; done.
    + destruct (Hrec h memo l Hinv) as (h1 & memo1 & y & -> & Hi1 & Hs1 & Hy & Hsv).
      { apply Htr. left. }
      simpl.
      destruct (IH h1 memo1 Hi1 Htr') as (h' & memo' & rs' & -> & Hi & Hs & Hf).
      simpl. exists h', memo', (RObj y :: rs'). split_and!; auto.
      * etrans; eauto.
      * constructor; [|done]. split; simpl; [|done].
        eapply same_value_weaken; [reflexivity|exact Hs|done].
Qed.

Lemma copied_weaken n h h' rs rs' :
  h ⊆ h' -> Forall2 (copied h0 n h) rs rs' -> Forall2 (copied h0 n h') rs rs'.
Proof.
  intros Hs Hf. eapply Forall2_impl; [exact Hf|].
  intros [s|l] [s'|l'] [H1 H2]; split; simpl in *; auto.
  eapply same_value_weaken; [reflexivity|exact Hs|done].
Qed.

Lemma copied_rel n h rs rs' :
  Forall2 (copied h0 n h) rs rs' -> Forall2 (ref_rel (same_value n h0 h)) rs rs'.
Proof. intros Hf. eapply Forall2_impl; [exact Hf|]. intros ?? [? ?]; done. Qed.

Lemma copied_outside n h rs rs' l :
  Forall2 (copied h0 n h) rs rs' -> l ∈ ref_locs rs' -> l ∉ dom h0.
Proof.
  intros Hf Hl. apply elem_of_ref_locs in Hl.
  induction Hf as [|r r' rs rs' [_ Hr] _ IH]; [by apply elem_of_nil in Hl|].
  apply elem_of_cons in Hl as [<-|Hl]; auto.
Qed.

Lemma deepcopy_ok fuel :
  forall n h memo x, (n <= fuel)%nat -> copying h0 h memo -> tree n h0 x ->
    exists h' memo' y, deepcopy fuel h memo x = Some (h', memo', y) /\
      copying h0 h' memo' /\ h ⊆ h' /\ (y ∉ dom h0) /\ same_value n h0 h' x y.
Proof.
  induction fuel as [|fuel IH]; intros n h memo x Hle Hinv Ht.
  { destruct n; [done|lia]. }
  destruct n as [|n]; [done|].
  simpl deepcopy. destruct (memo !! x) as [y|] eqn:Hmemo.
  - exists h, memo, y. pose proof Hinv as [Hfr Hm].
    destruct (Hm x y Hmemo) as (Hy & _ & Hs).
    split_and!; auto.
  - pose proof Ht as Ht0. destruct Ht as (o & Hx & Hch).
    assert (Hhx : h !! x = Some o).
    { eapply lookup_weaken; [exact Hx|apply Hinv]. }
    rewrite Hhx. simpl.
    assert (Hrec : forall h memo x, copying h0 h memo -> tree n h0 x ->
       exists h' memo' y, deepcopy fuel h memo x = Some (h', memo', y) /\
         copying h0 h' memo' /\ h ⊆ h' /\ (y ∉ dom h0) /\
         same_value n h0 h' x y).
    { intros. apply IH; auto. lia. }
    destruct (copy_refs_ok n _ Hrec (variables o) h memo Hinv)
      as (h1 & memo1 & vs & -> & Hi1 & Hs1 & Hf1).
    { intros l Hl. apply Hch, elem_of_refs. auto. }
    simpl.
    destruct (copy_refs_ok n _ Hrec (terms o) h1 memo1 Hi1)
      as (h2 & memo2 & ts & -> & Hi2 & Hs2 & Hf2).
    { intros l Hl. apply Hch, elem_of_refs. auto. }
    simpl. set (y := fresh (dom h2)).
    set (o' := mkObj (cls o) (name o) vs ts).
    assert (Hy2 : h2 !! y = None).
    { apply not_elem_of_dom, is_fresh. }
    assert (Hsub2 : h2 ⊆ <[y:=o']> h2) by (by apply insert_subseteq).
    assert (Hy0 : y ∉ dom h0).
    { intros Hin. destruct Hi2 as [[Hs _] _].
      apply elem_of_dom in Hin as [o0 Ho0].
      pose proof (lookup_weaken _ _ _ _ Ho0 Hs). congruence. }
    assert (Hcl : closed_outside (dom h0) (<[y:=o']> h2)).
    { intros l ol r Hl Hlo Hr.
      destruct (decide (l = y)) as [->|Hne].
      - rewrite lookup_insert_eq in Hl. simplify_eq.
        unfold refs in Hr. simpl in Hr. apply elem_of_app in Hr as [Hr|Hr].
        + eapply copied_outside; [|exact Hr].
          eapply copied_weaken; [exact Hs2|exact Hf1].
        + eapply copied_outside; eauto.
      - rewrite lookup_insert_ne in Hl by done.
        destruct Hi2 as [[_ Hc2] _]. eapply Hc2; eauto. }
    assert (Hsv : forall m, tree m h0 x -> same_value m h0 (<[y:=o']> h2) x y).
    { intros m Hm. apply (same_value_height (S n)); [|exact Hm].
      exists o, o'. rewrite lookup_insert_eq. split_and!; auto.
      - eapply copied_rel, copied_weaken; [|exact Hf1]. etrans; eauto.
      - eapply copied_rel, copied_weaken; [|exact Hf2]. done. }
    exists (<[y:=o']> h2), (<[x:=y]> memo2), y. split_and!.
    + reflexivity.
    + split; [split|].
      * etrans; [apply Hi2|done].
      * exact Hcl.
      * intros x' y' Hxy. destruct (decide (x = x')) as [<-|Hne].
        -- rewrite lookup_insert_eq in Hxy. simplify_eq.
           rewrite lookup_insert_eq. eauto.
        -- rewrite lookup_insert_ne in Hxy by done.
           pose proof (copying_weaken_memo _ _ _ Hi2 Hsub2 Hcl) as [_ Hm].
           apply Hm. done.
    + etrans; [exact Hs1|]. etrans; [exact Hs2|done].
    + exact Hy0.
    + exact (Hsv (S n) Ht0).
Qed.

End Deepcopy.


Lemma Forall2_ref_rel_diag (R : loc -> loc -> Prop) rs :
  (forall l, RObj l ∈ rs -> R l l) -> Forall2 (ref_rel R) rs rs.
Proof.
  induction rs as [|r rs IH]; intros H; constructor.
  - destruct r as [s|l]; simpl; [done|]. apply H. left.
  - apply IH. intros l Hl. apply H. right. done.
Qed.

Lemma tree_same_value n h x : tree n h x -> same_value n h h x x.
Proof.
  revert x. induction n as [|n IH]; [done|].
  intros x (o & Hx & Hch). exists o, o. split_and!; auto.
  - apply Forall2_ref_rel_diag. intros l Hl. apply IH, Hch, elem_of_refs. auto.
  - apply Forall2_ref_rel_diag. intros l Hl. apply IH, Hch, elem_of_refs. auto.
Qed.

Lemma same_value_allocated n h1 h2 x y :
  same_value n h1 h2 x y -> is_Some (h2 !! y).
Proof. destruct n; [done|]. intros (o1 & o2 & _ & Hy & _). eauto. Qed.

Lemma copying_start h0 : copying h0 h0 ∅.
Proof.
  split; [split|].
  - done.
  - intros l o r Hl Hout. exfalso. apply Hout, elem_of_dom. eauto.
  - intros x y Hxy. by rewrite lookup_empty in Hxy.
Qed.

Lemma is_connective_allocated h x : is_connective h x = true -> is_Some (h !! x).
Proof. unfold is_connective. destruct (h !! x); [eauto|done]. Qed.

Lemma is_quantifier_allocated h x : is_quantifier h x = true -> is_Some (h !! x).
Proof. unfold is_quantifier. destruct (h !! x); [eauto|done]. Qed.

Lemma allocated_mono (h h' : gmap loc Obj) x :
  dom h ⊆ dom h' -> is_Some (h !! x) -> is_Some (h' !! x).
Proof. rewrite <- !elem_of_dom. set_solver. Qed.


Lemma prenex_step_inv U h0 hs st t p :
  confined U -> prenex_inv h0 hs st -> t ∉ dom h0 -> outside_opt (dom h0) p ->
  prenex_inv h0 hs (prenex_step U st (t, p)).
Proof.
  intros (_ & _ & _ & _ & Hco & _ & Hre & _ & Hrm & Hset).
  destruct st as [h ret]. intros (Hfr & Hdom & Hret & Hal) Ht Hp.
  simpl in *. destruct (is_connective h t) eqn:Hconn; [|done].
  apply is_connective_allocated in Hconn.
  destruct (Hco h0 h t Hfr Ht Hconn) as (Hfr1 & Hd1 & Hc1 & Hal1).
  destruct (coalesce U h t) as [h1 c]. simpl in *.
  assert (Hsc : exists h2 s,
    (if is_connective h1 c then rescope U h1 c p else (h1, c)) = (h2, s) /\
    frame h0 h2 /\ dom h1 ⊆ dom h2 /\ (s ∉ dom h0) /\ is_Some (h2 !! s)).
  { destruct (is_connective h1 c) eqn:Hconn1.
    - destruct (Hre h0 h1 c p Hfr1 Hc1 Hp Hal1) as (? & ? & ? & ?).
      destruct (rescope U h1 c p) as [h2 s]. eauto 10.
    - exists h1, c. split_and!; auto. }
  destruct Hsc as (h2 & s & -> & Hfr2 & Hd2 & Hs2 & Hal2).
  destruct p as [par|]; simpl in *.
  - destruct (Hrm h0 h2 par t Hfr2 Hp Ht) as [Hfr3 Hd3].
    destruct (Hset h0 _ par s Hfr3 Hp Hs2) as [Hfr4 Hd4].
    assert (Hd : dom h ⊆ dom (set_term U (remove_term U h2 par t) par s)).
    { etrans; [exact Hd1|]. etrans; [exact Hd2|]. etrans; [exact Hd3|done]. }
    split_and!; auto.
    + etrans; [exact Hdom|exact Hd].
    + eapply allocated_mono; [exact Hd|exact Hal].
  - split_and!; auto.
    etrans; [exact Hdom|]. etrans; [exact Hd1|exact Hd2].
Qed.

Lemma prenex_fold_inv U h0 hs queue st :
  confined U -> prenex_inv h0 hs st ->
  (forall t p, (t, p) ∈ queue -> (t ∉ dom h0) /\ outside_opt (dom h0) p) ->
  prenex_inv h0 hs (fold_left (prenex_step U) queue st).
Proof.
  intros HU. revert st. induction queue as [|[t p] queue IH]; intros st Hst Hq.
  - done.
  - simpl. apply IH.
    + destruct (Hq t p) as [Ht Hp]; [left|]. by apply prenex_step_inv.
    + intros t' p' Hin. apply Hq. right. done.
Qed.

Lemma prenex_body_confined U : confined U -> confined1 (prenex_body U).
Proof.
  intros HU h0 h x Hfr Hx Hal. unfold prenex_body.
  pose proof HU as (_ & _ & _ & _ & _ & Hsi & _ & Hbfs & _).
  assert (Hinv : prenex_inv h0 h (fold_left (prenex_step U) (reverse_bfs U h x) (h, x))).
  { apply prenex_fold_inv; auto.
    - split_and!; auto.
    - intros t p Hin. eapply Hbfs; eauto. }
  destruct (fold_left (prenex_step U) (reverse_bfs U h x) (h, x)) as [h2 r].
  destruct Hinv as (Hfr2 & Hd2 & Hr2 & Hal2). simpl in *.
  destruct (is_quantifier h2 r) eqn:Hq.
  - destruct (Hsi h0 h2 r Hfr2 Hr2 Hal2) as (? & ? & ? & ?).
    split_and!; auto. etrans; [exact Hd2|done].
  - simpl. split_and!; auto.
Qed.

Lemma stage_ok f n fuel w a :
  confined1 f -> tree n (heap w) (sentence a) -> id a < axiom_id w ->
  (n <= fuel)%nat ->
  exists a' w' hc memo c,
    stage f fuel w a = Some (a', w') /\
    id a' = axiom_id w /\ id a < id a' /\ axiom_id w' = axiom_id w + 1 /\
    deepcopy fuel (heap w) ∅ (sentence a) = Some (hc, memo, c) /\
    same_value n (heap w) hc (sentence a) c /\
    (forall x, reach hc c x -> x ∉ dom (heap w)) /\
    heap w ⊆ heap w' /\
    same_value n (heap w) (heap w') (sentence a) (sentence a) /\
    (forall x, reach (heap w') (sentence a') x -> x ∉ dom (heap w)) /\
    (forall x, reach (heap w') (sentence a) x -> x ∈ dom (heap w)).
Proof.
  intros Hf Ht Hid Hle. unfold stage.
  destruct (deepcopy_ok (heap w) fuel n (heap w) ∅ (sentence a) Hle
              (copying_start _) Ht)
    as (hc & memo & c & Hdc & [Hfr _] & Hsub & Hc & Hsv).
  rewrite Hdc. simpl.
  destruct (Hf (heap w) hc c Hfr Hc (same_value_allocated _ _ _ _ _ Hsv))
    as (Hfr2 & Hd2 & Hr & [o Ho]).
  destruct (f hc c) as [h2 r]. simpl in *.
  unfold Axiom_init. rewrite Ho.
  exists (mkAxiomObj r (axiom_id w)), (mkWorld h2 (axiom_id w + 1)), hc, memo, c.
  simpl. split_and!; auto.
  - intros x Hx. eapply reach_outside; [apply Hfr|exact Hc|exact Hx].
  - apply Hfr2.
  - eapply same_value_weaken; [reflexivity|apply Hfr2|]. by apply tree_same_value.
  - intros x Hx. eapply reach_outside; [apply Hfr2|exact Hr|exact Hx].
  - intros x Hx. eapply tree_reach_dom; [apply Hfr2|exact Ht|exact Hx].
Qed.


(** *** The claim about the stages *)

(** C3: every stage, given functions of [Utils] that are confined to the
    objects they receive, and an axiom A whose sentence is a finite
    structure, returns (with enough recursion depth for the copy) a new
    axiom whose id is the value of the counter, greater than the id of A,
    and leaves the counter one higher. The function of [Utils] is applied
    to a deep copy of A's sentence, equal to it as a value and made of new
    objects only. Every object that existed before is unchanged, so A's
    sentence is; no object of the result's sentence is an object of A's
    sentence. *)
Theorem stage_returns_fresh_unaliased_axiom (U : Util) (s : Stage)
    (n fuel : nat) (w : World) (a : AxiomObj) :
  confined U ->
  tree n (heap w) (sentence a) ->
  id a < axiom_id w ->
  (n <= fuel)%nat ->
  exists a' w' hc memo c,
    run_stage s U fuel w a = Some (a', w') /\
    id a' = axiom_id w /\ id a < id a' /\ axiom_id w' = axiom_id w + 1 /\
    deepcopy fuel (heap w) ∅ (sentence a) = Some (hc, memo, c) /\
    same_value n (heap w) hc (sentence a) c /\
    (forall x, reach hc c x -> x ∉ dom (heap w)) /\
    heap w ⊆ heap w' /\
    same_value n (heap w) (heap w') (sentence a) (sentence a) /\
    (forall x, reach (heap w') (sentence a') x -> x ∉ dom (heap w)) /\
    (forall x, reach (heap w') (sentence a) x -> x ∈ dom (heap w)).
Proof.
  intros HU Ht Hid Hle.
  pose proof (prenex_body_confined U HU) as Hpre.
  destruct HU as (H1 & H2 & H3 & H4 & _).
  destruct s; simpl; apply stage_ok; assumption.
Qed.


Lemma idle_util_confined : confined idle_util.
Proof.
  unfold confined, confined1, idle_util. simpl. split_and!; try (intros; split_and!; done).
  intros h0 h x t p Hfr Hx Hin. apply list_elem_of_singleton in Hin.
  simplify_eq. done.
Qed.

Lemma small_world_tree : tree 1 (heap small_world) (sentence small_axiom).
Proof.
  simpl. eexists. split; [reflexivity|].
  intros r Hr. unfold refs in Hr. simpl in Hr. by apply elem_of_nil in Hr.
Qed.

Lemma stage_returns_fresh_unaliased_axiom_witness :
  exists a' w' hc memo c,
    run_stage CreatePrenex idle_util 1 small_world small_axiom = Some (a', w') /\
    id a' = 2 /\ 1 < id a' /\ axiom_id w' = 2 + 1 /\
    deepcopy 1 (heap small_world) ∅ 0%nat = Some (hc, memo, c) /\
    same_value 1 (heap small_world) hc 0%nat c /\
    (forall x, reach hc c x -> x ∉ dom (heap small_world)) /\
    heap small_world ⊆ heap w' /\
    same_value 1 (heap small_world) (heap w') 0%nat 0%nat /\
    (forall x, reach (heap w') (sentence a') x -> x ∉ dom (heap small_world)) /\
    (forall x, reach (heap w') 0%nat x -> x ∈ dom (heap small_world)).
Proof.
  apply (stage_returns_fresh_unaliased_axiom idle_util CreatePrenex 1 1
           small_world small_axiom).
  - apply idle_util_confined.
  - apply small_world_tree.
  - simpl. lia.
  - lia.
Defined.

End StoreFacts.


(** ** The serializers *)

Module SerializerFacts.

Lemma append_assoc (a b c : string) : (a +:+ b) +:+ c = a +:+ b +:+ c.
Proof.
  induction a as [|x a IH]; [reflexivity|].
  change (String x ((a +:+ b) +:+ c) = String x (a +:+ b +:+ c)).
  f_equal. exact IH.
Qed.


(** C5, as stated, fails: the rendering of a quantifier over two variables
    is not of the form [! [X,Y] : (body)]. [to_tptp] writes one prefix
    [! [V] : ] per variable, so the output differs from the rendering the
    specification describes and holds no bracket [[X,Y]]. *)
Lemma to_tptp_quantifier_is_not_a_comma_list :
  to_tptp two_variables
    = Return "fof(axiom10, axiom, (! [X] : ! [Y] :  (p(X,Y))))." /\
  spec_to_tptp two_variables
    = Return "fof(axiom10, axiom, ! [X,Y] : (p(X,Y)))." /\
  to_tptp two_variables <> spec_to_tptp two_variables /\
  PyStr.contains "[X,Y]"
    "fof(axiom10, axiom, (! [X] : ! [Y] :  (p(X,Y))))." = false.
Proof.
  split_and!; try reflexivity. vm_compute. discriminate.
Qed.

(** C5, amended: for an axiom with id N, [to_tptp] returns
    [fof(axiom<N*10>, axiom, <body>).]; variables are upper-cased, predicate
    and function names lower-cased, an equality predicate is written infix
    between its two arguments, a negated bare predicate is written
    [~(...)], conjunctions and disjunctions are parenthesized lists joined
    by [&] and [|], and a quantifier is written as an opening parenthesis,
    one prefix [! [V] : ] (or [? [V] : ]) per variable, a space, the
    parenthesized body and a closing parenthesis. *)
Theorem to_tptp_format :
  (forall a body, tptp_logical (sentence a) = Return body ->
     to_tptp a = Return ("fof(axiom" +:+ PyStr.of_int (id a * 10) +:+
                         ", axiom, " +:+ body +:+ ").")) /\
  (forall s, tptp_term (Var s) = PyStr.upper s) /\
  (forall f args,
     tptp_term (Function f args)
       = PyStr.lower f +:+ "(" +:+ PyStr.join "," (map tptp_term args) +:+ ")") /\
  (forall p args, p <> "=" ->
     tptp_logical (Predicate p args)
       = Return (PyStr.lower p +:+ "(" +:+
                 PyStr.join "," (map tptp_term args) +:+ ")")) /\
  (forall x y,
     tptp_logical (Predicate "=" [x; y])
       = Return (tptp_term x +:+ "=" +:+ tptp_term y)) /\
  (forall p args s, tptp_logical (Predicate p args) = Return s ->
     tptp_logical (Negation (Predicate p args)) = Return ("~(" +:+ s +:+ ")")) /\
  (forall ts ss, mapM tptp_logical ts = Return ss ->
     tptp_logical (Conjunction ts) = Return ("(" +:+ PyStr.join " & " ss +:+ ")") /\
     tptp_logical (Disjunction ts) = Return ("(" +:+ PyStr.join " | " ss +:+ ")")) /\
  (forall vs t s, tptp_logical t = Return s ->
     tptp_logical (Universal vs t)
       = Return ("(" +:+
                 PyStr.concat_all
                   (map (fun v => "! [" +:+ PyStr.upper v +:+ "] : ") vs) +:+
                 " (" +:+ s +:+ "))") /\
     tptp_logical (Existential vs t)
       = Return ("(" +:+
                 PyStr.concat_all
                   (map (fun v => "? [" +:+ PyStr.upper v +:+ "] : ") vs) +:+
                 " (" +:+ s +:+ "))")).
Proof.
  split_and!.
  - intros a body H. unfold to_tptp. rewrite H. reflexivity.
  - reflexivity.
  - reflexivity.
  - intros p args Hp. simpl. unfold is_equality.
    destruct (String.eqb_spec p "="); [contradiction|reflexivity].
  - reflexivity.
  - intros p args s H. cbn [tptp_logical] in *. rewrite H. reflexivity.
  - intros ts ss H. simpl. rewrite H. split; reflexivity.
  - intros vs t s H. simpl. rewrite H. split; reflexivity.
Qed.

Lemma to_tptp_format_witness :
  to_tptp (mkAx (Negation (Predicate "P" [Var "x"])) 3)
    = Return "fof(axiom30, axiom, ~(p(X))).".
Proof.
  destruct to_tptp_format as (H & _).
  apply (H (mkAx (Negation (Predicate "P" [Var "x"])) 3) "~(p(X))").
  reflexivity.
Defined.

(** C6: both serializers render a double negation as its inner term: for
    every sentence T, [Negation(Negation(T))] and T give the same string
    (or raise the same exception), in the body and in the whole line of an
    axiom with the same id. The collapse is part of the rendering: the
    sentence of the axiom is read, not changed. *)
Theorem double_negation_renders_as_inner (t : Logical) (i : Z) :
  tptp_logical (Negation (Negation t)) = tptp_logical t /\
  ladr_logical (Negation (Negation t)) = ladr_logical t /\
  to_tptp (mkAx (Negation (Negation t)) i) = to_tptp (mkAx t i) /\
  to_ladr (mkAx (Negation (Negation t)) i) = to_ladr (mkAx t i).
Proof. split_and!; reflexivity. Qed.

(** C10: [to_ladr] writes an equality predicate with two arguments in
    prefix form, [=(a,b)], whereas [to_tptp] writes the same node infix. *)
Theorem ladr_equality_is_prefix (x y : Term) (sx sy : string) :
  ladr_term x = Return sx -> ladr_term y = Return sy ->
  ladr_logical (Predicate "=" [x; y])
    = Return ("=(" +:+ sx +:+ "," +:+ sy +:+ ")") /\
  tptp_logical (Predicate "=" [x; y])
    = Return (tptp_term x +:+ "=" +:+ tptp_term y).
Proof.
  intros Hx Hy. split; [|reflexivity].
  simpl. rewrite Hx, Hy. simpl. unfold PyStr.join. simpl String.concat.
  rewrite !append_assoc. reflexivity.
Qed.

Lemma ladr_equality_is_prefix_witness :
  ladr_logical (Predicate "=" [Var "a"; Var "b"]) = Return "=(a,b)" /\
  tptp_logical (Predicate "=" [Var "a"; Var "b"]) = Return "A=B".
Proof.
  apply (ladr_equality_is_prefix (Var "a") (Var "b") "a" "b"); reflexivity.
Defined.

End SerializerFacts.

(** ** The Vampire classifier *)

Module ReasonerFacts.
Import Reasoner.

(** C9, as stated, fails: a last [Termination reason:] line that holds the
    keyword [Refutation] in the phrase [Refutation not found] is classified
    UNKNOWN, not PROOF. *)
Lemma refutation_not_found_is_unknown :
  let lines := ["% (1234)First to succeed.";
                "Termination reason: Refutation not found, incomplete strategy"] in
  success_vampire lines = (UNKNOWN, false) /\
  spec_vampire lines = PROOF /\
  fst (success_vampire lines) <> spec_vampire lines.
Proof. split_and!; try reflexivity. vm_compute. discriminate. Qed.

(** C9, amended: the classifier looks at the last line that starts with
    [Termination reason:]. A line holding [Refutation not found] gives
    UNKNOWN; otherwise [Refutation] gives PROOF, else [Unsatisfiable]
    INCONSISTENT, else [CounterSatisfiable] COUNTEREXAMPLE, else
    [Satisfiable] CONSISTENT, else UNKNOWN. When that gives UNKNOWN, a line
    starting with [Parser exception:] makes the status ERROR. Without a
    [Termination reason:] line the status is UNKNOWN. *)
Theorem success_vampire_classification (lines : list string) :
  (lines_starting "Termination reason:" lines = [] ->
     success_vampire lines = (UNKNOWN, false)) /\
  (forall before line,
     lines_starting "Termination reason:" lines = before ++ [line] ->
     fst (success_vampire lines)
       = match vampire_status line with
         | UNKNOWN =>
             match lines_starting "Parser exception:" lines with
             | [] => UNKNOWN
             | _ :: _ => ERROR
             end
         | st => st
         end /\
     snd (success_vampire lines) = mapping (Some (fst (success_vampire lines)))) /\
  (forall line,
     vampire_status line
       = if PyStr.contains "Refutation not found" line then UNKNOWN
         else if PyStr.contains "Refutation" line then PROOF
         else if PyStr.contains "Unsatisfiable" line then INCONSISTENT
         else if PyStr.contains "CounterSatisfiable" line then COUNTEREXAMPLE
         else if PyStr.contains "Satisfiable" line then CONSISTENT
         else UNKNOWN).
Proof.
  split_and!.
  - intros H. unfold success_vampire. rewrite H. reflexivity.
  - intros before line H. unfold success_vampire. rewrite H.
    rewrite length_app. simpl length.
    replace (length before + 1)%nat with (S (length before)) by lia.
    replace (S (length before) - 1)%nat with (length before + 0)%nat by lia.
    rewrite nth_error_app2 by lia.
    replace (length before + 0 - length before)%nat with 0%nat by lia.
    simpl nth_error. cbv zeta. split; [|reflexivity]. simpl fst.
    destruct (vampire_status line); simpl; try reflexivity.
    destruct (lines_starting "Parser exception:" lines); reflexivity.
  - reflexivity.
Qed.

Lemma success_vampire_classification_witness :
  success_vampire ["Parser exception: bad input"] = (UNKNOWN, false) /\
  fst (success_vampire ["Termination reason: Refutation"; "Parser exception: x"])
    = PROOF.
Proof.
  split.
  - apply (proj1 (success_vampire_classification _)). reflexivity.
  - destruct (success_vampire_classification
                ["Termination reason: Refutation"; "Parser exception: x"])
      as (_ & H & _).
    destruct (H [] "Termination reason: Refutation" eq_refl) as [-> _].
    reflexivity.
Defined.

End ReasonerFacts.

(** ** The parser *)

Module ParserFacts.
Import Parser.



(** The diagnostic of [p_error] counts the newlines before the offending
    token and prints that count, so a token on the first line is reported
    at line 0; [get_line_number], one more, is the 1-based number and is
    not used by [p_error]. *)
Lemma p_error_line_is_zero_based :
  (forall lexdata pos,
     get_line_number lexdata pos = S (p_error_line lexdata pos)) /\
  (forall p symstack rest lexdata d p' rest',
     p_error (Some p) symstack rest lexdata = Return (d, p', rest') ->
     S (diag_line d) = get_line_number lexdata (lexpos p)) /\
  (exists d p' rest',
     p_error (Some broken_token) broken_stack [] broken_text
       = Return (d, p', rest') /\
     diag_line d = 0%nat /\
     get_line_number broken_text (lexpos broken_token) = 1%nat /\
     PyStr.startswith (diag_message d) "Error at line 0! Unexpected Token: '"
       = true).
Proof.
  split_and!.
  - intros lexdata pos. unfold get_line_number, p_error_line. lia.
  - intros p symstack rest lexdata d p' rest' H. unfold p_error in H.
    destruct (lookahead _ rest) as [la rem].
    destruct (mapM axiom_pieces _) as [pieces|e]; simpl in H; [|discriminate].
    injection H as <- _ _. simpl.
    unfold get_line_number, p_error_line. lia.
  - eexists _, _, _. split_and!; reflexivity.
Qed.


(** C8: when the file exists and the buffer read from it is empty,
    [parse_file] returns [None] (no ontology) and raises nothing. *)
Theorem parse_file_empty_input (env : Env) (path : string)
    (sub base : option string) (resolve : bool) (name : option string)
    (full : string) :
  normjoin env base path = Return full ->
  files env full = Some EmptyString ->
  parse_file env path sub base resolve name = Return None.
Proof.
  intros Hpath Hfile. unfold parse_file. rewrite Hpath. simpl.
  rewrite Hfile. reflexivity.
Qed.

Lemma parse_file_empty_input_witness :
  parse_file empty_file_env "empty.clif" None (Some ".") false None
    = Return None.
Proof.
  apply (parse_file_empty_input empty_file_env "empty.clif" None (Some ".")
           false None "empty.clif"); reflexivity.
Defined.

End ParserFacts.

(** ** The other reasoners and the three outcomes *)

Module OutcomeFacts.
Import Reasoner Outcome.

Lemma mapping_not_error o : mapping o = true -> is_error_status o = false.
Proof. destruct o as [[]|]; simpl; auto; discriminate. Qed.

Lemma mace4_answer lines :
  snd (success_mace4 lines) = mapping (fst (success_mace4 lines)).
Proof. reflexivity. Qed.

Lemma paradox_answer lines :
  snd (success_paradox lines) = mapping (fst (success_paradox lines)).
Proof. reflexivity. Qed.

Lemma vampire_answer lines :
  snd (success_vampire lines) = mapping (Some (fst (success_vampire lines))).
Proof. reflexivity. Qed.

Lemma prover9_answer output lines :
  snd (success_prover9 output lines)
    = mapping (fst (success_prover9 output lines)) /\
  success_prover9 (fst (success_prover9 output lines)) lines
    = success_prover9 output lines.
Proof.
  unfold success_prover9.
  destruct (0 <? length (lines_starting "THEOREM PROVED" lines))%nat;
    split; reflexivity.
Qed.

Lemma terminatedSuccessfully_settles fs r r1 s :
  terminatedSuccessfully fs r = Some (r1, s) ->
  terminatedSuccessfully fs r1 = Some (r1, s) /\
  (s = true -> is_error_status (r_output r1) = false).
Proof.
  intros H. unfold terminatedSuccessfully, readlines in *.
  destruct (String.eqb (r_name r) "mace4") eqn:E1;
    [|destruct (String.eqb (r_name r) "prover9") eqn:E2;
      [|destruct (String.eqb (r_name r) "paradox") eqn:E3;
        [|destruct (String.eqb (r_name r) "vampire") eqn:E4]]].
  - destruct (fs (r_output_file r)) as [lines|] eqn:Hfs; [|discriminate].
    cbn [mbind option_bind] in H. pose proof (mace4_answer lines) as Ha.
    destruct (success_mace4 lines) as [o b] eqn:Eh. cbn [fst snd] in Ha.
    injection H as <- <-. cbn [r_name r_output_file set_output].
    rewrite E1, Hfs. cbn [mbind option_bind]. rewrite Eh.
    split; [reflexivity|]. cbn [r_output]. rewrite Ha. apply mapping_not_error.
  - destruct (fs (r_output_file r)) as [lines|] eqn:Hfs; [|discriminate].
    cbn [mbind option_bind] in H.
    destruct (prover9_answer (r_output r) lines) as [Ha Hi].
    destruct (success_prover9 (r_output r) lines) as [o b] eqn:Eh.
    cbn [fst snd] in Ha, Hi.
    injection H as <- <-. cbn [r_name r_output_file r_output set_output].
    rewrite E1, E2, Hfs. cbn [mbind option_bind]. rewrite Hi.
    split; [reflexivity|]. rewrite Ha. apply mapping_not_error.
  - destruct (fs (r_output_file r)) as [lines|] eqn:Hfs; [|discriminate].
    cbn [mbind option_bind] in H. pose proof (paradox_answer lines) as Ha.
    destruct (success_paradox lines) as [o b] eqn:Eh. cbn [fst snd] in Ha.
    injection H as <- <-. cbn [r_name r_output_file set_output].
    rewrite E1, E2, E3, Hfs. cbn [mbind option_bind]. rewrite Eh.
    split; [reflexivity|]. cbn [r_output]. rewrite Ha. apply mapping_not_error.
  - destruct (fs (r_output_file r)) as [lines|] eqn:Hfs; [|discriminate].
    cbn [mbind option_bind] in H. pose proof (vampire_answer lines) as Ha.
    destruct (success_vampire lines) as [o b] eqn:Eh. cbn [fst snd] in Ha.
    injection H as <- <-. cbn [r_name r_output_file set_output].
    rewrite E1, E2, E3, E4, Hfs. cbn [mbind option_bind]. rewrite Eh.
    split; [reflexivity|]. cbn [r_output]. rewrite Ha. apply mapping_not_error.
  - unfold success_default in *. injection H as <- <-.
    cbn [r_name r_output_file r_output set_output].
    rewrite E1, E2, E3, E4.
    split; [reflexivity|discriminate].
Qed.

(** X1: Whatever the reasoner, a call of [terminatedSuccessfully] that
    returns leaves the object in a state where a second call on the same
    files changes nothing and returns the same answer; from the same start
    [terminatedWithError] and [terminatedUnknowingly] return too and reach
    that state, and exactly one of the three answers is [True]. *)
Theorem outcome_is_one_of_three (fs : string -> option (list string))
    (r r1 : ReasonerObj) (s : bool) :
  terminatedSuccessfully fs r = Some (r1, s) ->
  terminatedSuccessfully fs r1 = Some (r1, s) /\
  exists e u,
    terminatedWithError fs r = Some (r1, e) /\
    terminatedUnknowingly fs r = Some (r1, u) /\
    ((s = true /\ e = false /\ u = false) \/
     (s = false /\ e = true /\ u = false) \/
     (s = false /\ e = false /\ u = true)).
Proof.
  intros H. destruct (terminatedSuccessfully_settles fs r r1 s H) as [Hidem Hs].
  split; [exact Hidem|].
  exists (is_error_status (r_output r1)).
  exists (negb s && negb (is_error_status (r_output r1)))%bool.
  split_and!.
  - unfold terminatedWithError. rewrite H. reflexivity.
  - unfold terminatedUnknowingly, terminatedWithError. rewrite H. simpl.
    destruct s; simpl; [reflexivity|]. rewrite Hidem. reflexivity.
  - destruct s; simpl.
    + left. rewrite Hs by reflexivity. auto.
    + destruct (is_error_status (r_output r1)); simpl; auto.
Qed.

Lemma outcome_is_one_of_three_witness :
  terminatedSuccessfully
    (one_output ["Termination reason: Satisfiable"])
    (set_output fresh_vampire (Some CONSISTENT))
    = Some (set_output fresh_vampire (Some CONSISTENT), true).
Proof.
  apply (outcome_is_one_of_three
           (one_output ["Termination reason: Satisfiable"]) fresh_vampire).
  reflexivity.
Defined.

(** X3: [success_prover9] never takes a status back: without a line
    [THEOREM PROVED] the status stays what it was, so a proof recorded
    earlier is reported again whatever the file now holds; a reasoner that
    had no success recorded reports one only if such a line exists. *)
Theorem prover9_keeps_earlier_status (output : option Status)
    (lines : list string) :
  success_prover9 (Some PROOF) lines = (Some PROOF, true) /\
  (lines_starting "THEOREM PROVED" lines = [] ->
     success_prover9 output lines = (output, mapping output)) /\
  (mapping output = false -> snd (success_prover9 output lines) = true ->
     exists line, line ∈ lines /\ PyStr.startswith line "THEOREM PROVED" = true).
Proof.
  unfold success_prover9. split_and!.
  - destruct (0 <? _)%nat; reflexivity.
  - intros ->. reflexivity.
  - intros Hm Hs. destruct (lines_starting "THEOREM PROVED" lines) as [|l ls] eqn:E.
    + simpl in Hs. congruence.
    + exists l. assert (Hin : In l (lines_starting "THEOREM PROVED" lines)).
      { rewrite E. left. reflexivity. }
      unfold lines_starting in Hin. apply filter_In in Hin as [Hin Hp].
      split; [apply list_elem_of_In; exact Hin|exact Hp].
Qed.

Lemma prover9_keeps_earlier_status_witness :
  success_prover9 (Some PROOF) ["SEARCH FAILED"] = (Some PROOF, true).
Proof.
  apply (proj1 (prover9_keeps_earlier_status None ["SEARCH FAILED"])).
Defined.

(** X4: Paradox reports a success only when exactly one line starts with
    [+++ RESULT:], and then by the keyword of that line; the status ERROR
    needs a line [*** Unexpected:] and a number of result lines other than
    one. *)
Theorem paradox_needs_one_result_line (lines : list string) :
  (snd (success_paradox lines) = true ->
     exists line,
       lines_starting "+++ RESULT:" lines = [line] /\
       fst (success_paradox lines) = Some (paradox_status line)) /\
  (fst (success_paradox lines) = Some ERROR ->
     length (lines_starting "+++ RESULT:" lines) <> 1%nat /\
     lines_starting "*** Unexpected:" lines <> []).
Proof.
  unfold success_paradox.
  destruct (lines_starting "+++ RESULT:" lines) as [|l [|l' ls]] eqn:E; simpl.
  - split.
    + destruct (0 <? _)%nat; simpl; discriminate.
    + intros H. split; [lia|].
      destruct (lines_starting "*** Unexpected:" lines); [discriminate|done].
  - split.
    + intros _. exists l. split; reflexivity.
    + unfold paradox_status.
      repeat (destruct (PyStr.contains _ l); try discriminate).
  - split.
    + destruct (0 <? _)%nat; simpl; discriminate.
    + intros H. split; [lia|].
      destruct (lines_starting "*** Unexpected:" lines); [discriminate|done].
Qed.

Lemma paradox_needs_one_result_line_witness :
  exists line,
    lines_starting "+++ RESULT:" ["+++ RESULT: Theorem"] = [line] /\
    fst (success_paradox ["+++ RESULT: Theorem"]) = Some (paradox_status line).
Proof.
  apply (proj1 (paradox_needs_one_result_line ["+++ RESULT: Theorem"])).
  reflexivity.
Defined.

(** X6: Mace4 and Prover9 never produce the status ERROR: after their handlers
    the status is ERROR only if it was ERROR before (Prover9), so
    [terminatedWithError] cannot become true through them. *)
Theorem mace4_and_prover9_never_report_error (output : option Status)
    (lines : list string) :
  is_error_status (fst (success_mace4 lines)) = false /\
  (is_error_status (fst (success_prover9 output lines)) = true ->
     is_error_status output = true) /\
  (fst (success_mace4 lines) = Some CONSISTENT <->
     exists line, line ∈ lines /\
       PyStr.startswith line "Exiting with 1 model." = true).
Proof.
  unfold success_mace4, success_prover9. split_and!.
  - destruct (_ =? 0)%nat; reflexivity.
  - destruct (0 <? _)%nat; simpl; [discriminate|auto].
  - destruct (lines_starting "Exiting with 1 model." lines) as [|l ls] eqn:E;
      simpl; split.
    + discriminate.
    + intros (line & Hin & Hp). exfalso.
      assert (Hf : In line (lines_starting "Exiting with 1 model." lines)).
      { apply filter_In. split; [apply list_elem_of_In; exact Hin|exact Hp]. }
      rewrite E in Hf. destruct Hf.
    + intros _. exists l.
      assert (Hin : In l (lines_starting "Exiting with 1 model." lines)).
      { rewrite E. left. reflexivity. }
      apply filter_In in Hin as [Hin Hp].
      split; [apply list_elem_of_In; exact Hin|exact Hp].
    + reflexivity.
Qed.

Lemma mace4_and_prover9_never_report_error_witness :
  is_error_status (Some ERROR) = true.
Proof.
  apply (proj1 (proj2 (mace4_and_prover9_never_report_error (Some ERROR) []))).
  reflexivity.
Defined.

(** X2: [terminatedSuccessfully] raises only when the reasoner has a handler
    and its output file cannot be opened. A reasoner of any other name
    reads no file: the answer is [False] and the object is unchanged. *)
Theorem terminatedSuccessfully_fails_only_on_unreadable_file
    (fs : string -> option (list string)) (r : ReasonerObj) :
  (terminatedSuccessfully fs r = None <->
     has_handler (r_name r) = true /\ fs (r_output_file r) = None) /\
  (has_handler (r_name r) = false ->
     terminatedSuccessfully fs r = Some (r, false)).
Proof.
  assert (Hread : forall (k : list string -> ReasonerObj * bool),
            (lines ← readlines fs (r_output_file r); Some (k lines)) = None <->
            true = true /\ fs (r_output_file r) = None).
  { intros k. unfold readlines. destruct (fs (r_output_file r)); simpl.
    - split; [discriminate|intros [_ H]; discriminate H].
    - split; auto. }
  unfold terminatedSuccessfully, has_handler.
  destruct (String.eqb (r_name r) "mace4");
    [|destruct (String.eqb (r_name r) "prover9");
      [|destruct (String.eqb (r_name r) "paradox");
        [|destruct (String.eqb (r_name r) "vampire")]]]; simpl.
  - split; [|discriminate].
    apply (Hread (fun lines => let '(o, b) := success_mace4 lines in
                               (set_output r o, b))).
  - split; [|discriminate].
    apply (Hread (fun lines => let '(o, b) := success_prover9 (r_output r) lines in
                               (set_output r o, b))).
  - split; [|discriminate].
    apply (Hread (fun lines => let '(o, b) := success_paradox lines in
                               (set_output r o, b))).
  - split; [|discriminate].
    apply (Hread (fun lines => let '(o, b) := success_vampire lines in
                               (set_output r (Some o), b))).
  - split.
    + split; [discriminate|intros [H _]; discriminate H].
    + intros _. destruct r; reflexivity.
Qed.

End OutcomeFacts.

(** ** When the serializers raise, and what their output looks like *)

Module ShapeFacts.
Import Shape.

Lemma mapM_returns {A B : Type} (f : A -> result B) (l : list A) :
  Forall (fun x => returns (f x)) l -> returns (mapM f l).
Proof.
  induction 1 as [|x l [y Hy] _ [ys Hys]]; simpl.
  - eexists. reflexivity.
  - rewrite Hy. simpl. rewrite Hys. simpl. eexists. reflexivity.
Qed.

Lemma mapM_raises {A B : Type} (f : A -> result B) (ok : A -> bool)
    (e : PyExc) (l : list A) :
  Forall (fun x => (ok x = true -> returns (f x)) /\
                   (ok x = false -> f x = Raise e)) l ->
  forallb ok l = false -> mapM f l = Raise e.
Proof.
  induction 1 as [|x l [Hok Hbad] _ IH]; simpl; [discriminate|].
  destruct (ok x) eqn:E; simpl.
  - intros Hl. destruct (Hok eq_refl) as [y ->]. simpl.
    rewrite (IH Hl). reflexivity.
  - intros _. rewrite (Hbad eq_refl). reflexivity.
Qed.

Lemma Forall_ok_returns {A B : Type} (f : A -> result B) (ok : A -> bool)
    (e : PyExc) (l : list A) :
  Forall (fun x => (ok x = true -> returns (f x)) /\
                   (ok x = false -> f x = Raise e)) l ->
  forallb ok l = true -> Forall (fun x => returns (f x)) l.
Proof.
  induction 1 as [|x l [Hok _] _ IH]; simpl; [constructor|].
  intros H. apply andb_true_iff in H as [H1 H2]. constructor; auto.
Qed.

Section Behaves.

Variable render : Logical -> result string.
Variable ok : Logical -> bool.
Variable e : PyExc.

Lemma behaves_bind x y (k : string -> string) :
  behaves render ok e x -> ok y = ok x ->
  render y = bind (render x) (fun s => Return (k s)) ->
  behaves render ok e y.
Proof.
  intros [H1 H2] Hok Heq. unfold behaves. rewrite Heq, Hok.
  split; intros H.
  - destruct (H1 H) as [s ->]. eexists. reflexivity.
  - rewrite (H2 H). reflexivity.
Qed.

Lemma behaves_list (ts : list Logical) (y : Logical) (k : list string -> string) :
  Forall (fun l => behaves render ok e l /\ behaves render ok e (Negation l)) ts ->
  ok y = forallb ok ts ->
  render y = bind (mapM render ts) (fun ss => Return (k ss)) ->
  behaves render ok e y.
Proof.
  intros IH Hshape Heq.
  assert (IH' : Forall (fun x => (ok x = true -> returns (render x)) /\
                   (ok x = false -> render x = Raise e)) ts).
  { eapply Forall_impl; [exact IH|]. intros x [Hx _]. exact Hx. }
  unfold behaves. rewrite Heq, Hshape. split; intros Hok.
  - destruct (mapM_returns _ _ (Forall_ok_returns _ _ _ _ IH' Hok)) as [ss ->].
    eexists. reflexivity.
  - rewrite (mapM_raises _ _ _ _ IH' Hok). reflexivity.
Qed.

End Behaves.

Lemma tptp_behaves_both l :
  behaves tptp_logical equalities_binary IndexError l /\
  behaves tptp_logical equalities_binary IndexError (Negation l).
Proof.
  induction l as [p args|t IH|ts IH|ts IH|vs t IH|vs t IH]
    using Logical_nested_ind.
  - assert (H : behaves tptp_logical equalities_binary IndexError (Predicate p args)).
    { unfold behaves. simpl. destruct (is_equality p); simpl.
      - destruct args as [|a [|b args]]; simpl; split;
          try discriminate; try reflexivity; intros _; eexists; reflexivity.
      - split; [intros _; eexists; reflexivity|discriminate]. }
    split; [exact H|].
    apply (behaves_bind _ _ _ _ _ (fun s => "~(" +:+ s +:+ ")") H); reflexivity.
  - destruct IH as [IH1 IH2]. split; [exact IH2|exact IH1].
  - assert (H : behaves tptp_logical equalities_binary IndexError (Conjunction ts)).
    { apply (behaves_list _ _ _ ts _ (fun ss => "(" +:+ PyStr.join " & " ss +:+ ")") IH);
        reflexivity. }
    split; [exact H|].
    apply (behaves_bind _ _ _ _ _ (fun s => "~" +:+ s) H); reflexivity.
  - assert (H : behaves tptp_logical equalities_binary IndexError (Disjunction ts)).
    { apply (behaves_list _ _ _ ts _ (fun ss => "(" +:+ PyStr.join " | " ss +:+ ")") IH);
        reflexivity. }
    split; [exact H|].
    apply (behaves_bind _ _ _ _ _ (fun s => "~" +:+ s) H); reflexivity.
  - assert (H : behaves tptp_logical equalities_binary IndexError (Universal vs t)).
    { apply (behaves_bind _ _ _ _ _
               (fun s => "(" +:+ tptp_quantifier_prefix "!" vs +:+ " (" +:+ s +:+ "))")
               (proj1 IH)); reflexivity. }
    split; [exact H|].
    apply (behaves_bind _ _ _ _ _ (fun s => "~" +:+ s) H); reflexivity.
  - assert (H : behaves tptp_logical equalities_binary IndexError (Existential vs t)).
    { apply (behaves_bind _ _ _ _ _
               (fun s => "(" +:+ tptp_quantifier_prefix "?" vs +:+ " (" +:+ s +:+ "))")
               (proj1 IH)); reflexivity. }
    split; [exact H|].
    apply (behaves_bind _ _ _ _ _ (fun s => "~" +:+ s) H); reflexivity.
Qed.

Lemma names_only_behaves vs :
  (forallb (fun v => match v with Var _ => true | Function _ _ => false end) vs = true ->
     returns (names_only vs)) /\
  (forallb (fun v => match v with Var _ => true | Function _ _ => false end) vs = false ->
     names_only vs = Raise ladr_error).
Proof.
  unfold names_only. induction vs as [|[s|f a] vs [IH1 IH2]]; simpl.
  - split; [eexists; reflexivity|discriminate].
  - split; intros H.
    + destruct (IH1 H) as [ns Hns]. rewrite Hns. eexists. reflexivity.
    + rewrite (IH2 H). reflexivity.
  - split; [discriminate|reflexivity].
Qed.

Lemma ladr_term_behaves t :
  (flat_term t = true -> returns (ladr_term t)) /\
  (flat_term t = false -> ladr_term t = Raise ladr_error).
Proof.
  destruct t as [s|f vs]; simpl.
  - split; [eexists; reflexivity|discriminate].
  - destruct (names_only_behaves vs) as [H1 H2]. split; intros H.
    + destruct (H1 H) as [ns ->]. eexists. reflexivity.
    + rewrite (H2 H). reflexivity.
Qed.

Lemma ladr_behaves_both l :
  behaves ladr_logical functions_flat ladr_error l /\
  behaves ladr_logical functions_flat ladr_error (Negation l).
Proof.
  induction l as [p args|t IH|ts IH|ts IH|vs t IH|vs t IH]
    using Logical_nested_ind.
  - assert (H : behaves ladr_logical functions_flat ladr_error (Predicate p args)).
    { assert (Hargs : Forall (fun x => (flat_term x = true -> returns (ladr_term x)) /\
                        (flat_term x = false -> ladr_term x = Raise ladr_error)) args).
      { apply Forall_forall. intros x _. apply ladr_term_behaves. }
      unfold behaves. simpl. split; intros Hok.
      - destruct (mapM_returns _ _ (Forall_ok_returns _ _ _ _ Hargs Hok)) as [ss ->].
        eexists. reflexivity.
      - rewrite (mapM_raises _ _ _ _ Hargs Hok). reflexivity. }
    split; [exact H|].
    apply (behaves_bind _ _ _ _ _ (fun s => "-(" +:+ s +:+ ")") H); reflexivity.
  - destruct IH as [IH1 IH2]. split; [exact IH2|exact IH1].
  - assert (H : behaves ladr_logical functions_flat ladr_error (Conjunction ts)).
    { apply (behaves_list _ _ _ ts _ (fun ss => "(" +:+ PyStr.join " & " ss +:+ ")") IH);
        reflexivity. }
    split; [exact H|].
    apply (behaves_bind _ _ _ _ _ (fun s => "-" +:+ s) H); reflexivity.
  - assert (H : behaves ladr_logical functions_flat ladr_error (Disjunction ts)).
    { apply (behaves_list _ _ _ ts _ (fun ss => "(" +:+ PyStr.join " | " ss +:+ ")") IH);
        reflexivity. }
    split; [exact H|].
    apply (behaves_bind _ _ _ _ _ (fun s => "-" +:+ s) H); reflexivity.
  - assert (H : behaves ladr_logical functions_flat ladr_error (Universal vs t)).
    { apply (behaves_bind _ _ _ _ _
               (fun s => "(" +:+ ladr_quantifier_prefix "all" vs +:+ " " +:+ s +:+ ")")
               (proj1 IH)); reflexivity. }
    split; [exact H|].
    apply (behaves_bind _ _ _ _ _ (fun s => "-" +:+ s) H); reflexivity.
  - assert (H : behaves ladr_logical functions_flat ladr_error (Existential vs t)).
    { apply (behaves_bind _ _ _ _ _
               (fun s => "(" +:+ ladr_quantifier_prefix "exists" vs +:+ " " +:+ s +:+ ")")
               (proj1 IH)); reflexivity. }
    split; [exact H|].
    apply (behaves_bind _ _ _ _ _ (fun s => "-" +:+ s) H); reflexivity.
Qed.

Lemma function_free_is_flat l :
  Pipeline.function_free l = true -> functions_flat l = true.
Proof.
  induction l as [p args|t IH|ts IH|ts IH|vs t IH|vs t IH]
    using Logical_nested_ind; simpl; auto.
  - intros H. induction args as [|[s|f a] args IHa]; simpl in *; auto.
    discriminate.
  - intros H. induction IH as [|t ts Ht _ IHts]; simpl in *; [reflexivity|].
    apply andb_true_iff in H as [H1 H2]. rewrite Ht, IHts; auto.
  - intros H. induction IH as [|t ts Ht _ IHts]; simpl in *; [reflexivity|].
    apply andb_true_iff in H as [H1 H2]. rewrite Ht, IHts; auto.
Qed.

(** X7: [to_tptp] returns a line exactly when every equality predicate of the
    sentence has at least two arguments; otherwise it raises [IndexError],
    and nothing else can make it raise. An equality predicate with more
    than two arguments is written with its first two. *)
Theorem to_tptp_raises_only_on_short_equality (a : Ax) :
  (equalities_binary (sentence a) = true <-> exists s, to_tptp a = Return s) /\
  (equalities_binary (sentence a) = false <-> to_tptp a = Raise IndexError) /\
  (forall x y more,
     tptp_logical (Predicate "=" (x :: y :: more))
       = tptp_logical (Predicate "=" [x; y])).
Proof.
  destruct (tptp_behaves_both (sentence a)) as [[H1 H2] _].
  unfold to_tptp. split_and!.
  - split.
    + intros Hok. destruct (H1 Hok) as [s ->]. eexists. reflexivity.
    + intros [s Hs]. destruct (equalities_binary (sentence a)); [reflexivity|].
      rewrite (H2 eq_refl) in Hs. discriminate.
  - split.
    + intros Hok. rewrite (H2 Hok). reflexivity.
    + intros Hs. destruct (equalities_binary (sentence a)); [|reflexivity].
      destruct (H1 eq_refl) as [s Hr]. rewrite Hr in Hs. discriminate.
  - reflexivity.
Qed.

(** X8: [to_ladr] returns a line exactly when no function application of the
    sentence has a function application among its arguments; otherwise it
    raises the [TypeError] of [join]. So it always returns on a sentence
    without functions, such as the output of the pipeline. *)
Theorem to_ladr_raises_only_on_nested_functions (a : Ax) :
  (functions_flat (sentence a) = true <-> exists s, to_ladr a = Return s) /\
  (functions_flat (sentence a) = false <-> to_ladr a = Raise ladr_error) /\
  (Pipeline.function_free (sentence a) = true -> exists s, to_ladr a = Return s).
Proof.
  destruct (ladr_behaves_both (sentence a)) as [[H1 H2] _].
  assert (Hiff : functions_flat (sentence a) = true <-> exists s, to_ladr a = Return s).
  { unfold to_ladr. split.
    - intros Hok. destruct (H1 Hok) as [s ->]. eexists. reflexivity.
    - intros [s Hs]. destruct (functions_flat (sentence a)); [reflexivity|].
      rewrite (H2 eq_refl) in Hs. discriminate. }
  split_and!.
  - exact Hiff.
  - unfold to_ladr. split.
    + intros Hok. rewrite (H2 Hok). reflexivity.
    + intros Hs. destruct (functions_flat (sentence a)); [|reflexivity].
      destruct (H1 eq_refl) as [s Hr]. rewrite Hr in Hs. discriminate.
  - intros Hff. apply Hiff, function_free_is_flat, Hff.
Qed.

(** *** Letter case *)

Lemma upper_char_idem c : PyStr.upper_char (PyStr.upper_char c) = PyStr.upper_char c.
Proof. destruct c as [[] [] [] [] [] [] [] []]; reflexivity. Qed.

Lemma lower_char_idem c : PyStr.lower_char (PyStr.lower_char c) = PyStr.lower_char c.
Proof. destruct c as [[] [] [] [] [] [] [] []]; reflexivity. Qed.

Lemma upper_idem s : PyStr.upper (PyStr.upper s) = PyStr.upper s.
Proof.
  unfold PyStr.upper. induction s as [|c s IH]; simpl; [reflexivity|].
  rewrite upper_char_idem, IH. reflexivity.
Qed.

Lemma lower_idem s : PyStr.lower (PyStr.lower s) = PyStr.lower s.
Proof.
  unfold PyStr.lower. induction s as [|c s IH]; simpl; [reflexivity|].
  rewrite lower_char_idem, IH. reflexivity.
Qed.

Lemma lower_char_equals c :
  Ascii.eqb (PyStr.lower_char c) "=" = Ascii.eqb c "=".
Proof. destruct c as [[] [] [] [] [] [] [] []]; reflexivity. Qed.

Lemma is_equality_lower p : is_equality (PyStr.lower p) = is_equality p.
Proof.
  unfold is_equality, PyStr.lower. destruct p as [|c p]; [reflexivity|].
  simpl. rewrite lower_char_equals. destruct (Ascii.eqb c "="); [|reflexivity].
  destruct p; reflexivity.
Qed.

Lemma tptp_term_fold_case t : tptp_term (fold_case_term t) = tptp_term t.
Proof.
  induction t as [s|f args IH] using Term_nested_ind; simpl.
  - apply upper_idem.
  - rewrite lower_idem.
    assert (H : map tptp_term (map fold_case_term args) = map tptp_term args).
    { induction IH as [|t ts Ht _ IHts]; simpl; [reflexivity|].
      rewrite Ht, IHts. reflexivity. }
    rewrite H. reflexivity.
Qed.

Lemma map_tptp_term_fold_case args :
  map tptp_term (map fold_case_term args) = map tptp_term args.
Proof.
  induction args as [|t ts IH]; simpl; [reflexivity|].
  rewrite tptp_term_fold_case, IH. reflexivity.
Qed.

Lemma prefix_fold_case q vs :
  tptp_quantifier_prefix q (map PyStr.upper vs) = tptp_quantifier_prefix q vs.
Proof.
  unfold tptp_quantifier_prefix. f_equal.
  induction vs as [|v vs IH]; simpl; [reflexivity|].
  rewrite upper_idem, IH. reflexivity.
Qed.

Lemma mapM_fold_case (f : Logical -> result string) ts :
  Forall (fun t => f (fold_case t) = f t) ts ->
  mapM f (map fold_case ts) = mapM f ts.
Proof.
  induction 1 as [|t ts Ht _ IH]; simpl; [reflexivity|].
  rewrite Ht, IH. reflexivity.
Qed.

Lemma tptp_fold_case_both l :
  tptp_logical (fold_case l) = tptp_logical l /\
  tptp_logical (Negation (fold_case l)) = tptp_logical (Negation l).
Proof.
  induction l as [p args|t IH|ts IH|ts IH|vs t IH|vs t IH]
    using Logical_nested_ind.
  - assert (H : tptp_logical (fold_case (Predicate p args))
                = tptp_logical (Predicate p args)).
    { simpl. rewrite is_equality_lower, lower_idem, map_tptp_term_fold_case.
      destruct (is_equality p) eqn:E; [|reflexivity].
      destruct args as [|a [|b args]]; simpl; try reflexivity.
      rewrite !tptp_term_fold_case.
      unfold is_equality in E. apply String.eqb_eq in E. subst p. reflexivity. }
    split; [exact H|].
    change (bind (tptp_logical (fold_case (Predicate p args)))
              (fun s => Return ("~(" +:+ s +:+ ")"))
            = bind (tptp_logical (Predicate p args))
                (fun s => Return ("~(" +:+ s +:+ ")"))).
    rewrite H. reflexivity.
  - destruct IH as [IH1 IH2]. split; [exact IH2|exact IH1].
  - assert (H : tptp_logical (fold_case (Conjunction ts))
                = tptp_logical (Conjunction ts)).
    { simpl. rewrite mapM_fold_case; [reflexivity|].
      eapply Forall_impl; [exact IH|]. intros x [Hx _]. exact Hx. }
    split; [exact H|].
    change (bind (tptp_logical (fold_case (Conjunction ts)))
              (fun s => Return ("~" +:+ s))
            = bind (tptp_logical (Conjunction ts)) (fun s => Return ("~" +:+ s))).
    rewrite H. reflexivity.
  - assert (H : tptp_logical (fold_case (Disjunction ts))
                = tptp_logical (Disjunction ts)).
    { simpl. rewrite mapM_fold_case; [reflexivity|].
      eapply Forall_impl; [exact IH|]. intros x [Hx _]. exact Hx. }
    split; [exact H|].
    change (bind (tptp_logical (fold_case (Disjunction ts)))
              (fun s => Return ("~" +:+ s))
            = bind (tptp_logical (Disjunction ts)) (fun s => Return ("~" +:+ s))).
    rewrite H. reflexivity.
  - assert (H : tptp_logical (fold_case (Universal vs t))
                = tptp_logical (Universal vs t)).
    { simpl. rewrite (proj1 IH), prefix_fold_case. reflexivity. }
    split; [exact H|].
    change (bind (tptp_logical (fold_case (Universal vs t)))
              (fun s => Return ("~" +:+ s))
            = bind (tptp_logical (Universal vs t)) (fun s => Return ("~" +:+ s))).
    rewrite H. reflexivity.
  - assert (H : tptp_logical (fold_case (Existential vs t))
                = tptp_logical (Existential vs t)).
    { simpl. rewrite (proj1 IH), prefix_fold_case. reflexivity. }
    split; [exact H|].
    change (bind (tptp_logical (fold_case (Existential vs t)))
              (fun s => Return ("~" +:+ s))
            = bind (tptp_logical (Existential vs t)) (fun s => Return ("~" +:+ s))).
    rewrite H. reflexivity.
Qed.

(** X9: [to_tptp] does not see the letter case of names: an axiom and the
    axiom with every variable upper-cased and every predicate and function
    name lower-cased give the same line, so two sentences that differ only
    in the case of their names are rendered alike. *)
Theorem to_tptp_ignores_letter_case (l1 l2 : Logical) (i : Z) :
  to_tptp (mkAx (fold_case l1) i) = to_tptp (mkAx l1 i) /\
  (fold_case l1 = fold_case l2 -> to_tptp (mkAx l1 i) = to_tptp (mkAx l2 i)).
Proof.
  assert (H : forall l, to_tptp (mkAx (fold_case l) i) = to_tptp (mkAx l i)).
  { intros l. unfold to_tptp. simpl.
    rewrite (proj1 (tptp_fold_case_both l)). reflexivity. }
  split; [apply H|]. intros Heq. rewrite <- (H l1), <- (H l2), Heq. reflexivity.
Qed.

Lemma to_tptp_ignores_letter_case_witness :
  to_tptp (mkAx (Predicate "Part" [Var "x"]) 1)
    = to_tptp (mkAx (Predicate "PART" [Var "X"]) 1).
Proof.
  apply (proj2 (to_tptp_ignores_letter_case
                  (Predicate "Part" [Var "x"]) (Predicate "PART" [Var "X"]) 1)).
  reflexivity.
Defined.

(** *** Stacked negations *)

(** X10: Both serializers render a stack of negations by its parity: an even
    number of negations on a sentence is rendered as the sentence, an odd
    number as one negation of it. *)
Theorem negations_render_by_parity (k : nat) (l : Logical) :
  tptp_logical (negations (2 * k) l) = tptp_logical l /\
  ladr_logical (negations (2 * k) l) = ladr_logical l /\
  tptp_logical (negations (2 * k + 1) l) = tptp_logical (Negation l) /\
  ladr_logical (negations (2 * k + 1) l) = ladr_logical (Negation l).
Proof.
  induction k as [|k (IH1 & IH2 & IH3 & IH4)].
  - split_and!; reflexivity.
  - replace (2 * S k)%nat with (S (S (2 * k))) by lia.
    replace (S (S (2 * k)) + 1)%nat with (S (S (2 * k + 1))) by lia.
    split_and!.
    + exact IH1.
    + exact IH2.
    + exact IH3.
    + exact IH4.
Qed.

End ShapeFacts.

(** ** Parentheses and names in the output *)

Module OutputFacts.
Import Shape.

Lemma count_char_append c a b :
  PyStr.count_char c (a +:+ b) = (PyStr.count_char c a + PyStr.count_char c b)%nat.
Proof.
  induction a as [|x a IH]; [reflexivity|].
  change (String x a +:+ b) with (String x (a +:+ b)). simpl. rewrite IH. lia.
Qed.

Lemma balance_append a b : paren_balance (a +:+ b) = paren_balance a + paren_balance b.
Proof. unfold paren_balance. rewrite !count_char_append. lia. Qed.

Lemma balance_join sep ss :
  paren_balance sep = 0 -> Forall (fun s => paren_balance s = 0) ss ->
  paren_balance (PyStr.join sep ss) = 0.
Proof.
  intros Hsep. unfold PyStr.join. induction 1 as [|s ss Hs Hss IH]; [reflexivity|].
  simpl. destruct ss as [|s' ss]; [exact Hs|].
  rewrite !balance_append, Hs, Hsep, IH. reflexivity.
Qed.

Lemma balance_concat_all ss :
  Forall (fun s => paren_balance s = 0) ss -> paren_balance (PyStr.concat_all ss) = 0.
Proof. apply (balance_join EmptyString). reflexivity. Qed.

Lemma count_char_map_chars c f s :
  (forall d, Ascii.eqb c (f d) = Ascii.eqb c d) ->
  PyStr.count_char c (PyStr.map_chars f s) = PyStr.count_char c s.
Proof.
  intros Hf. induction s as [|d s IH]; simpl; [reflexivity|].
  rewrite Hf, IH. reflexivity.
Qed.

Lemma balance_upper s : paren_balance (PyStr.upper s) = paren_balance s.
Proof.
  unfold paren_balance, PyStr.upper. rewrite !count_char_map_chars; [reflexivity|..];
    intros [[] [] [] [] [] [] [] []]; reflexivity.
Qed.

Lemma balance_lower s : paren_balance (PyStr.lower s) = paren_balance s.
Proof.
  unfold paren_balance, PyStr.lower. rewrite !count_char_map_chars; [reflexivity|..];
    intros [[] [] [] [] [] [] [] []]; reflexivity.
Qed.

Lemma plain_name_balance s : plain_name s = true -> paren_balance s = 0.
Proof.
  unfold plain_name, paren_balance. intros H.
  apply andb_true_iff in H as [H1 H2].
  apply Nat.eqb_eq in H1, H2. lia.
Qed.

Lemma tptp_term_balanced t :
  plain_names_term t = true -> paren_balance (tptp_term t) = 0.
Proof.
  induction t as [s|f args IH] using Term_nested_ind; simpl; intros H.
  - rewrite balance_upper. by apply plain_name_balance.
  - apply andb_true_iff in H as [Hf Hargs].
    rewrite !balance_append, balance_lower, (plain_name_balance f Hf).
    rewrite balance_join; [reflexivity..|].
    induction IH as [|t ts Ht _ IHts]; simpl in *; [constructor|].
    apply andb_true_iff in Hargs as [H1 H2]. constructor; auto.
Qed.

Lemma ladr_term_balanced t s :
  plain_names_term t = true -> ladr_term t = Return s -> paren_balance s = 0.
Proof.
  destruct t as [v|f args]; simpl; intros H Hr.
  - injection Hr as <-. by apply plain_name_balance.
  - apply andb_true_iff in H as [Hf Hargs].
    destruct (names_only args) as [ns|e] eqn:E; simpl in Hr; [|discriminate].
    injection Hr as <-.
    rewrite !balance_append, (plain_name_balance f Hf).
    rewrite balance_join; [reflexivity..|].
    clear Hf. revert ns E. unfold names_only.
    induction args as [|[v|g a] args IHa]; simpl; intros ns E.
    + injection E as <-. constructor.
    + simpl in Hargs. apply andb_true_iff in Hargs as [Hv Hargs].
      destruct (mapM _ args) as [ns'|e] eqn:E'; simpl in E; [|discriminate].
      injection E as <-. constructor; [by apply plain_name_balance|].
      apply IHa; [exact Hargs|reflexivity].
    + discriminate.
Qed.

Lemma mapM_Forall2 {A B : Type} (f : A -> result B) ts ss :
  mapM f ts = Return ss -> Forall2 (fun t s => f t = Return s) ts ss.
Proof.
  revert ss. induction ts as [|t ts IH]; simpl; intros ss H.
  - injection H as <-. constructor.
  - destruct (f t) as [s|e] eqn:E; simpl in H; [|discriminate].
    destruct (mapM f ts) as [ss'|e] eqn:E'; simpl in H; [|discriminate].
    injection H as <-. constructor; [exact E|]. apply IH. reflexivity.
Qed.

Lemma bind_Return {A B : Type} (m : result A) (k : A -> result B) b :
  bind m k = Return b -> exists a, m = Return a /\ k a = Return b.
Proof. destruct m as [a|e]; simpl; [eauto|discriminate]. Qed.

Lemma prefix_balanced q sep1 sep2 (f : string -> string) vs :
  paren_balance q = 0 -> paren_balance sep1 = 0 -> paren_balance sep2 = 0 ->
  (forall v, paren_balance (f v) = paren_balance v) ->
  forallb plain_name vs = true ->
  paren_balance (PyStr.concat_all (map (fun v => q +:+ sep1 +:+ f v +:+ sep2) vs)) = 0.
Proof.
  intros Hq H1 H2 Hf Hvs. apply balance_concat_all.
  induction vs as [|v vs IH]; simpl in *; [constructor|].
  apply andb_true_iff in Hvs as [Hv Hvs]. constructor; [|auto].
  rewrite !balance_append, Hq, H1, H2, Hf, (plain_name_balance v Hv). reflexivity.
Qed.

Section Balanced.

Variable render : Logical -> result string.

Lemma balanced_bind x y (k : string -> string) :
  balanced_output render x ->
  (forall s, paren_balance (k s) = paren_balance s) ->
  render y = bind (render x) (fun s => Return (k s)) ->
  balanced_output render y.
Proof.
  intros Hx Hk Heq s Hs. rewrite Heq in Hs.
  apply bind_Return in Hs as (s0 & Hs0 & Hs). injection Hs as <-.
  rewrite Hk. apply Hx, Hs0.
Qed.

Lemma balanced_list (ts : list Logical) y sep :
  Forall (balanced_output render) ts -> paren_balance sep = 0 ->
  render y = bind (mapM render ts)
               (fun ss => Return ("(" +:+ PyStr.join sep ss +:+ ")")) ->
  balanced_output render y.
Proof.
  intros Hts Hsep Heq s Hs. rewrite Heq in Hs.
  apply bind_Return in Hs as (ss & Hss & Hs). injection Hs as <-.
  rewrite !balance_append, balance_join; [reflexivity|exact Hsep|].
  apply mapM_Forall2 in Hss. clear Heq.
  induction Hss as [|t s0 ts ss Ht _ IH]; [constructor|].
  apply Forall_cons in Hts as [Ht0 Hts]. constructor; auto.
Qed.

End Balanced.

Lemma tptp_balanced_both l :
  plain_names l = true ->
  balanced_output tptp_logical l /\ balanced_output tptp_logical (Negation l).
Proof.
  induction l as [p args|t IH|ts IH|ts IH|vs t IH|vs t IH]
    using Logical_nested_ind; intros Hp.
  - assert (H : balanced_output tptp_logical (Predicate p args)).
    { simpl in Hp. apply andb_true_iff in Hp as [Hp Hargs].
      assert (Hall : Forall (fun s => paren_balance s = 0) (map tptp_term args)).
      { clear Hp. induction args as [|a args IHa]; simpl in *; [constructor|].
        apply andb_true_iff in Hargs as [H1 H2].
        constructor; [by apply tptp_term_balanced|auto]. }
      intros s Hs. simpl in Hs. destruct (is_equality p).
      - destruct args as [|a [|b args]]; try discriminate.
        injection Hs as <-. simpl in Hall.
        apply Forall_cons in Hall as [Ha Hall]. apply Forall_cons in Hall as [Hb _].
        rewrite !balance_append, Ha, Hb, (plain_name_balance p Hp). reflexivity.
      - injection Hs as <-.
        rewrite !balance_append, balance_lower, (plain_name_balance p Hp).
        rewrite balance_join; [reflexivity..|exact Hall]. }
    split; [exact H|].
    apply (balanced_bind _ _ _ (fun s => "~(" +:+ s +:+ ")") H); [|reflexivity].
    intros s. rewrite !balance_append.
    change (paren_balance "~(") with 1. change (paren_balance ")") with (-1). lia.
  - destruct (IH Hp) as [IH1 IH2]. split; [exact IH2|].
    intros s Hs. apply IH1. exact Hs.
  - assert (H : balanced_output tptp_logical (Conjunction ts)).
    { apply (balanced_list _ ts _ " & "); [|reflexivity..].
      simpl in Hp. induction IH as [|t ts Ht _ IHts]; [constructor|].
      simpl in Hp. apply andb_true_iff in Hp as [H1 H2].
      constructor; [apply Ht, H1|auto]. }
    split; [exact H|].
    apply (balanced_bind _ _ _ (fun s => "~" +:+ s) H); [|reflexivity].
    intros s. rewrite !balance_append. reflexivity.
  - assert (H : balanced_output tptp_logical (Disjunction ts)).
    { apply (balanced_list _ ts _ " | "); [|reflexivity..].
      simpl in Hp. induction IH as [|t ts Ht _ IHts]; [constructor|].
      simpl in Hp. apply andb_true_iff in Hp as [H1 H2].
      constructor; [apply Ht, H1|auto]. }
    split; [exact H|].
    apply (balanced_bind _ _ _ (fun s => "~" +:+ s) H); [|reflexivity].
    intros s. rewrite !balance_append. reflexivity.
  - simpl in Hp. apply andb_true_iff in Hp as [Hvs Hp].
    assert (H : balanced_output tptp_logical (Universal vs t)).
    { apply (balanced_bind _ _ _
               (fun s => "(" +:+ tptp_quantifier_prefix "!" vs +:+ " (" +:+ s +:+ "))")
               (proj1 (IH Hp))); [|reflexivity].
      intros s. rewrite !balance_append. unfold tptp_quantifier_prefix.
      rewrite (prefix_balanced "!" " [" "] : " PyStr.upper vs);
        auto using balance_upper.
      change (paren_balance "(") with 1. change (paren_balance " (") with 1.
      change (paren_balance "))") with (-2). lia. }
    split; [exact H|].
    apply (balanced_bind _ _ _ (fun s => "~" +:+ s) H); [|reflexivity].
    intros s. rewrite !balance_append. reflexivity.
  - simpl in Hp. apply andb_true_iff in Hp as [Hvs Hp].
    assert (H : balanced_output tptp_logical (Existential vs t)).
    { apply (balanced_bind _ _ _
               (fun s => "(" +:+ tptp_quantifier_prefix "?" vs +:+ " (" +:+ s +:+ "))")
               (proj1 (IH Hp))); [|reflexivity].
      intros s. rewrite !balance_append. unfold tptp_quantifier_prefix.
      rewrite (prefix_balanced "?" " [" "] : " PyStr.upper vs);
        auto using balance_upper.
      change (paren_balance "(") with 1. change (paren_balance " (") with 1.
      change (paren_balance "))") with (-2). lia. }
    split; [exact H|].
    apply (balanced_bind _ _ _ (fun s => "~" +:+ s) H); [|reflexivity].
    intros s. rewrite !balance_append. reflexivity.
Qed.

Lemma ladr_balanced_both l :
  plain_names l = true ->
  balanced_output ladr_logical l /\ balanced_output ladr_logical (Negation l).
Proof.
  induction l as [p args|t IH|ts IH|ts IH|vs t IH|vs t IH]
    using Logical_nested_ind; intros Hp.
  - assert (H : balanced_output ladr_logical (Predicate p args)).
    { simpl in Hp. apply andb_true_iff in Hp as [Hp Hargs].
      intros s Hs. simpl in Hs.
      apply bind_Return in Hs as (ss & Hss & Hs). injection Hs as <-.
      rewrite !balance_append, (plain_name_balance p Hp).
      rewrite balance_join; [reflexivity..|].
      apply mapM_Forall2 in Hss. clear Hp.
      induction Hss as [|a s args ss Ha _ IHa]; [constructor|].
      simpl in Hargs. apply andb_true_iff in Hargs as [H1 H2].
      constructor; [apply (ladr_term_balanced a); assumption|auto]. }
    split; [exact H|].
    apply (balanced_bind _ _ _ (fun s => "-(" +:+ s +:+ ")") H); [|reflexivity].
    intros s. rewrite !balance_append.
    change (paren_balance "-(") with 1. change (paren_balance ")") with (-1). lia.
  - destruct (IH Hp) as [IH1 IH2]. split; [exact IH2|].
    intros s Hs. apply IH1. exact Hs.
  - assert (H : balanced_output ladr_logical (Conjunction ts)).
    { apply (balanced_list _ ts _ " & "); [|reflexivity..].
      simpl in Hp. induction IH as [|t ts Ht _ IHts]; [constructor|].
      simpl in Hp. apply andb_true_iff in Hp as [H1 H2].
      constructor; [apply Ht, H1|auto]. }
    split; [exact H|].
    apply (balanced_bind _ _ _ (fun s => "-" +:+ s) H); [|reflexivity].
    intros s. rewrite !balance_append. reflexivity.
  - assert (H : balanced_output ladr_logical (Disjunction ts)).
    { apply (balanced_list _ ts _ " | "); [|reflexivity..].
      simpl in Hp. induction IH as [|t ts Ht _ IHts]; [constructor|].
      simpl in Hp. apply andb_true_iff in Hp as [H1 H2].
      constructor; [apply Ht, H1|auto]. }
    split; [exact H|].
    apply (balanced_bind _ _ _ (fun s => "-" +:+ s) H); [|reflexivity].
    intros s. rewrite !balance_append. reflexivity.
  - simpl in Hp. apply andb_true_iff in Hp as [Hvs Hp].
    assert (H : balanced_output ladr_logical (Universal vs t)).
    { apply (balanced_bind _ _ _
               (fun s => "(" +:+ ladr_quantifier_prefix "all" vs +:+ " " +:+ s +:+ ")")
               (proj1 (IH Hp))); [|reflexivity].
      intros s. rewrite !balance_append. unfold ladr_quantifier_prefix.
      rewrite (prefix_balanced "all" " " " " (fun v => v) vs); auto.
      change (paren_balance "(") with 1. change (paren_balance " ") with 0.
      change (paren_balance ")") with (-1). lia. }
    split; [exact H|].
    apply (balanced_bind _ _ _ (fun s => "-" +:+ s) H); [|reflexivity].
    intros s. rewrite !balance_append. reflexivity.
  - simpl in Hp. apply andb_true_iff in Hp as [Hvs Hp].
    assert (H : balanced_output ladr_logical (Existential vs t)).
    { apply (balanced_bind _ _ _
               (fun s => "(" +:+ ladr_quantifier_prefix "exists" vs +:+ " " +:+ s +:+ ")")
               (proj1 (IH Hp))); [|reflexivity].
      intros s. rewrite !balance_append. unfold ladr_quantifier_prefix.
      rewrite (prefix_balanced "exists" " " " " (fun v => v) vs); auto.
      change (paren_balance "(") with 1. change (paren_balance " ") with 0.
      change (paren_balance ")") with (-1). lia. }
    split; [exact H|].
    apply (balanced_bind _ _ _ (fun s => "-" +:+ s) H); [|reflexivity].
    intros s. rewrite !balance_append. reflexivity.
Qed.

(** *** Decimal numerals *)

Lemma count_char_uint c d :
  decimal_char c = false -> PyStr.count_char c (NilEmpty.string_of_uint d) = 0%nat.
Proof.
  intros Hc. induction d; simpl; rewrite ?IHd; try reflexivity;
    match goal with
    | |- context [Ascii.eqb c ?k] =>
        destruct (Ascii.eqb_spec c k) as [->|]; [discriminate Hc|reflexivity]
    end.
Qed.

Lemma count_char_of_int c z :
  decimal_char c = false -> PyStr.count_char c (PyStr.of_int z) = 0%nat.
Proof.
  intros Hc. unfold PyStr.of_int, NilZero.string_of_int, NilZero.string_of_uint.
  assert (H0 : Ascii.eqb c "0" = false).
  { destruct (Ascii.eqb_spec c "0") as [->|]; [discriminate Hc|reflexivity]. }
  assert (Hm : Ascii.eqb c "-" = false).
  { destruct (Ascii.eqb_spec c "-") as [->|]; [discriminate Hc|reflexivity]. }
  destruct (Z.to_int z) as [d|d].
  - destruct d; try apply (count_char_uint c _ Hc).
    simpl. rewrite H0. reflexivity.
  - simpl. rewrite Hm.
    destruct d; try apply (count_char_uint c _ Hc).
    simpl. rewrite H0. reflexivity.
Qed.

Lemma of_int_inj z z' : PyStr.of_int z = PyStr.of_int z' -> z = z'.
Proof.
  unfold PyStr.of_int. intros H. apply DecimalZ.to_int_inj.
  assert (Hn : forall x, Z.to_int x <> Decimal.Pos Decimal.Nil /\
                         Z.to_int x <> Decimal.Neg Decimal.Nil).
  { intros [|p|p]; simpl; split; try discriminate;
      intros [= Hp]; exact (DecimalPos.Unsigned.to_uint_nonnil p Hp). }
  apply (f_equal NilZero.int_of_string) in H.
  rewrite !NilZero.isi in H by apply Hn. congruence.
Qed.

(** Two strings without the character [c] that are followed by [c] in
    equal texts are equal. *)
Lemma split_at_first c a b r r' :
  PyStr.count_char c a = 0%nat -> PyStr.count_char c b = 0%nat ->
  a +:+ String c r = b +:+ String c r' -> a = b.
Proof.
  revert b. induction a as [|x a IH]; intros [|y b] Ha Hb H.
  - reflexivity.
  - change (String c r = String y (b +:+ String c r')) in H.
    injection H as <- _. simpl in Hb. rewrite Ascii.eqb_refl in Hb. discriminate.
  - change (String x (a +:+ String c r) = String c r') in H.
    injection H as -> _. simpl in Ha. rewrite Ascii.eqb_refl in Ha. discriminate.
  - change (String x (a +:+ String c r) = String y (b +:+ String c r')) in H.
    injection H as -> H. f_equal. simpl in Ha, Hb.
    apply (IH b); [| |exact H].
    + destruct (Ascii.eqb c y); [discriminate|exact Ha].
    + destruct (Ascii.eqb c y); [discriminate|exact Hb].
Qed.

(** X11: With names free of parentheses, the lines of [to_tptp] and [to_ladr]
    have as many opening as closing parentheses. *)
Theorem output_parentheses_match (a : Ax) (s : string) :
  plain_names (sentence a) = true ->
  (to_tptp a = Return s -> paren_balance s = 0) /\
  (to_ladr a = Return s -> paren_balance s = 0).
Proof.
  intros Hp. split; intros Hs.
  - unfold to_tptp in Hs. apply bind_Return in Hs as (body & Hb & Hs).
    injection Hs as <-.
    apply (proj1 (tptp_balanced_both _ Hp)) in Hb.
    rewrite !balance_append, Hb. unfold paren_balance at 2.
    rewrite !count_char_of_int by reflexivity. reflexivity.
  - unfold to_ladr in Hs. apply bind_Return in Hs as (body & Hb & Hs).
    injection Hs as <-.
    apply (proj1 (ladr_balanced_both _ Hp)) in Hb.
    rewrite !balance_append, Hb. reflexivity.
Qed.

Lemma output_parentheses_match_witness :
  paren_balance "fof(axiom10, axiom, (! [X] : ! [Y] :  (p(X,Y))))." = 0.
Proof.
  apply (proj1 (output_parentheses_match two_variables
                  "fof(axiom10, axiom, (! [X] : ! [Y] :  (p(X,Y))))." eq_refl)).
  reflexivity.
Defined.

(** X12: The line of [to_tptp] determines the id: two axioms that give the same
    line have the same id, so axioms with different ids always get
    different [fof] lines. *)
Theorem to_tptp_line_determines_id (a b : Ax) (s : string) :
  to_tptp a = Return s -> to_tptp b = Return s -> id a = id b.
Proof.
  unfold to_tptp. intros Ha Hb.
  apply bind_Return in Ha as (ba & _ & Ha). apply bind_Return in Hb as (bb & _ & Hb).
  injection Ha as Ha. injection Hb as Hb. rewrite <- Hb in Ha. clear Hb s.
  change ("fof(axiom" +:+ PyStr.of_int (id a * 10) +:+ String "," (" axiom, " +:+ ba +:+ ").")
          = "fof(axiom" +:+ PyStr.of_int (id b * 10) +:+ String "," (" axiom, " +:+ bb +:+ ").")) in Ha.
  assert (H : PyStr.of_int (id a * 10) = PyStr.of_int (id b * 10)).
  { eapply (split_at_first ","); [apply count_char_of_int; reflexivity..|].
    exact (f_equal (fun x => match x with
      | String _ (String _ (String _ (String _ (String _ (String _
          (String _ (String _ (String _ r)))))))) => r
      | _ => EmptyString end) Ha). }
  apply of_int_inj in H. lia.
Qed.

Lemma to_tptp_line_determines_id_witness :
  id two_variables = id (mkAx (Universal ["X"; "Y"] (Predicate "P" [Var "X"; Var "y"])) 1).
Proof.
  apply (to_tptp_line_determines_id two_variables _
           "fof(axiom10, axiom, (! [X] : ! [Y] :  (p(X,Y))))."); reflexivity.
Defined.

End OutputFacts.

(** ** [ff_pcnf] and the messages it logs *)

Module LoggedFacts.
Import Shape Logged.

Lemma debug_outcome x :
  (equalities_binary (sentence x) = true -> Pipeline.debug x = Return tt) /\
  (equalities_binary (sentence x) = false ->
     Pipeline.debug x = Raise IndexError) /\
  (forall e, Pipeline.debug x = Raise e -> e = IndexError) /\
  (Pipeline.debug x = Return tt ->
     equalities_binary (sentence x) = true /\ exists s, to_tptp x = Return s).
Proof.
  destruct (ShapeFacts.tptp_behaves_both (sentence x)) as [[H1 H2] _].
  unfold Pipeline.debug, to_tptp.
  destruct (equalities_binary (sentence x)).
  - destruct (H1 eq_refl) as [s ->]. simpl.
    split_and!; [reflexivity|discriminate|discriminate|].
    intros _. split; [reflexivity|]. eexists. reflexivity.
  - rewrite (H2 eq_refl). simpl.
    split_and!; [discriminate|reflexivity|congruence|discriminate].
Qed.

Section Helpers.

Variable State : Type.
Variable helper :
  Store.Stage -> Logical -> State -> result (option Logical) * State.

Lemma stage_outcome st a (w : World State) :
  match stage helper st a w with
  | (Return r, w') =>
      id r = axiom_id w /\ axiom_id w' = axiom_id w + 1 /\
      helper st (sentence a) (state w) = (Return (Some (sentence r)), state w')
  | (Raise e, w') =>
      axiom_id w' = axiom_id w /\
      (e = ValueError "Axiom's need Logicals" \/
       helper st (sentence a) (state w) = (Raise e, state w'))
  end.
Proof.
  unfold stage. destruct (helper st (sentence a) (state w)) as [[[l|]|e] s];
    simpl; auto.
Qed.

(** The two ways [ff_pcnf] can end. *)
Lemma ff_pcnf_cases a (w : World State) :
  (exists r w',
     ff_pcnf helper a w = (Return r, w') /\
     id r = axiom_id w + 4 /\ axiom_id w' = axiom_id w + 5 /\
     Pipeline.debug a = Return tt /\ Pipeline.debug r = Return tt) \/
  (exists e w',
     ff_pcnf helper a w = (Raise e, w') /\
     axiom_id w <= axiom_id w' <= axiom_id w + 5 /\
     (e = IndexError \/ e = ValueError "Axiom's need Logicals" \/
      exists st l s s', helper st l s = (Raise e, s'))).
Proof.
  unfold ff_pcnf.
  destruct (Pipeline.debug a) as [[]|e0] eqn:D0;
    [|right; exists e0, w; split_and!; [reflexivity|lia|lia|];
      left; eapply debug_outcome, D0].
  pose proof (stage_outcome Store.SubstituteFunctions a w) as S1.
  destruct (stage helper Store.SubstituteFunctions a w) as [[a1|e] w1];
    [destruct S1 as (I1 & C1 & _)
    |destruct S1 as (C1 & S1); right; exists e, w1;
     split_and!; [reflexivity|lia|lia|];
     destruct S1 as [->|S1]; [auto|right; right; eauto]].
  destruct (Pipeline.debug a1) as [[]|e1] eqn:D1;
    [|right; exists e1, w1; split_and!; [reflexivity|lia|lia|];
      left; eapply debug_outcome, D1].
  pose proof (stage_outcome Store.StandardizeVariables a1 w1) as S2.
  destruct (stage helper Store.StandardizeVariables a1 w1) as [[a2|e] w2];
    [destruct S2 as (I2 & C2 & _)
    |destruct S2 as (C2 & S2); right; exists e, w2;
     split_and!; [reflexivity|lia|lia|];
     destruct S2 as [->|S2]; [auto|right; right; eauto]].
  destruct (Pipeline.debug a2) as [[]|e2] eqn:D2;
    [|right; exists e2, w2; split_and!; [reflexivity|lia|lia|];
      left; eapply debug_outcome, D2].
  pose proof (stage_outcome Store.PushNegation a2 w2) as S3.
  destruct (stage helper Store.PushNegation a2 w2) as [[a3|e] w3];
    [destruct S3 as (I3 & C3 & _)
    |destruct S3 as (C3 & S3); right; exists e, w3;
     split_and!; [reflexivity|lia|lia|];
     destruct S3 as [->|S3]; [auto|right; right; eauto]].
  destruct (Pipeline.debug a3) as [[]|e3] eqn:D3;
    [|right; exists e3, w3; split_and!; [reflexivity|lia|lia|];
      left; eapply debug_outcome, D3].
  pose proof (stage_outcome Store.CreatePrenex a3 w3) as S4.
  destruct (stage helper Store.CreatePrenex a3 w3) as [[a4|e] w4];
    [destruct S4 as (I4 & C4 & _)
    |destruct S4 as (C4 & S4); right; exists e, w4;
     split_and!; [reflexivity|lia|lia|];
     destruct S4 as [->|S4]; [auto|right; right; eauto]].
  destruct (Pipeline.debug a4) as [[]|e4] eqn:D4;
    [|right; exists e4, w4; split_and!; [reflexivity|lia|lia|];
      left; eapply debug_outcome, D4].
  pose proof (stage_outcome Store.DistributeDisjunctions a4 w4) as S5.
  destruct (stage helper Store.DistributeDisjunctions a4 w4) as [[a5|e] w5];
    [destruct S5 as (I5 & C5 & _)
    |destruct S5 as (C5 & S5); right; exists e, w5;
     split_and!; [reflexivity|lia|lia|];
     destruct S5 as [->|S5]; [auto|right; right; eauto]].
  destruct (Pipeline.debug a5) as [[]|e5] eqn:D5;
    [|right; exists e5, w5; split_and!; [reflexivity|lia|lia|];
      left; eapply debug_outcome, D5].
  left. exists a5, w5. split_and!; [reflexivity|lia|lia|reflexivity|exact D5].
Qed.

Lemma stage_returns st a (w : World State) :
  helpers_keep_equalities helper ->
  equalities_binary (sentence a) = true ->
  exists r w', stage helper st a w = (Return r, w') /\
               equalities_binary (sentence r) = true.
Proof.
  intros H E. destruct (H st (sentence a) (state w) E) as (l' & s' & Hh & He).
  unfold stage. rewrite Hh. simpl. eexists _, _. split; [reflexivity|exact He].
Qed.

Lemma ff_pcnf_returns_with a (w : World State) :
  helpers_keep_equalities helper ->
  equalities_binary (sentence a) = true ->
  exists r w', ff_pcnf helper a w = (Return r, w').
Proof.
  intros H E0. unfold ff_pcnf.
  rewrite (proj1 (debug_outcome a) E0).
  destruct (stage_returns Store.SubstituteFunctions a w H E0) as (a1 & w1 & -> & E1).
  rewrite (proj1 (debug_outcome a1) E1).
  destruct (stage_returns Store.StandardizeVariables a1 w1 H E1) as (a2 & w2 & -> & E2).
  rewrite (proj1 (debug_outcome a2) E2).
  destruct (stage_returns Store.PushNegation a2 w2 H E2) as (a3 & w3 & -> & E3).
  rewrite (proj1 (debug_outcome a3) E3).
  destruct (stage_returns Store.CreatePrenex a3 w3 H E3) as (a4 & w4 & -> & E4).
  rewrite (proj1 (debug_outcome a4) E4).
  destruct (stage_returns Store.DistributeDisjunctions a4 w4 H E4)
    as (a5 & w5 & -> & E5).
  rewrite (proj1 (debug_outcome a5) E5).
  eexists _, _. reflexivity.
Qed.

End Helpers.

(** X13: [ff_pcnf] builds each debug message with [repr], which is
    [to_tptp], before it logs. So, whatever the functions of [Utils] do:
    on a sentence with an equality of fewer than two arguments [ff_pcnf]
    raises [IndexError] before any stage has run, and the id counter and
    the state of the helpers are untouched; the counter never moves back
    and moves by five at most; an axiom it returns has the id four above
    the counter, the counter ends five higher, and [to_tptp] can write
    both the axiom given and the axiom returned; what it raises is the
    [IndexError] of a debug message, the [ValueError] of [Axiom.__init__]
    or what a helper raised; and it returns whenever the helpers return
    sentences in which every equality has its two arguments. *)
Theorem ff_pcnf_logs_with_to_tptp (State : Type)
    (helper : Store.Stage -> Logical -> State -> result (option Logical) * State)
    (a : Ax) (w : World State) :
  (equalities_binary (sentence a) = false ->
     ff_pcnf helper a w = (Raise IndexError, w)) /\
  (axiom_id w <= axiom_id (snd (ff_pcnf helper a w)) <= axiom_id w + 5) /\
  (forall r, fst (ff_pcnf helper a w) = Return r ->
     id r = axiom_id w + 4 /\
     axiom_id (snd (ff_pcnf helper a w)) = axiom_id w + 5 /\
     equalities_binary (sentence a) = true /\
     exists s, to_tptp r = Return s) /\
  (forall e, fst (ff_pcnf helper a w) = Raise e ->
     e = IndexError \/ e = ValueError "Axiom's need Logicals" \/
     exists st l s s', helper st l s = (Raise e, s')) /\
  (helpers_keep_equalities helper -> equalities_binary (sentence a) = true ->
     exists r, fst (ff_pcnf helper a w) = Return r).
Proof.
  split.
  { intros H. unfold ff_pcnf.
    rewrite (proj1 (proj2 (debug_outcome a)) H). reflexivity. }
  destruct (ff_pcnf_cases State helper a w)
    as [(r & w' & E & Hid & Hc & Da & Dr)|(e & w' & E & Hc & He)].
  - rewrite E. cbn [fst snd]. split; [lia|]. split; [|split].
    + intros r' [= <-]. split_and!; [exact Hid|exact Hc| |].
      * apply (debug_outcome a), Da.
      * apply (debug_outcome r), Dr.
    + discriminate.
    + intros _ _. eexists. reflexivity.
  - split; [rewrite E; exact Hc|]. split; [|split].
    + rewrite E. discriminate.
    + rewrite E. intros e' [= <-]. exact He.
    + intros Hk Ha.
      destruct (ff_pcnf_returns_with State helper a w Hk Ha) as (r & w'' & ->).
      eexists. reflexivity.
Qed.

Lemma ff_pcnf_logs_with_to_tptp_witness :
  ff_pcnf idle_helper (mkAx unary_equality 1) (mkWorld 2 tt)
    = (Raise IndexError, mkWorld 2 tt) /\
  exists r, fst (ff_pcnf idle_helper two_variables (mkWorld 2 tt)) = Return r.
Proof.
  split.
  - apply (proj1 (ff_pcnf_logs_with_to_tptp unit idle_helper
                    (mkAx unary_equality 1) (mkWorld 2 tt))).
    reflexivity.
  - apply (ff_pcnf_logs_with_to_tptp unit idle_helper two_variables
             (mkWorld 2 tt)).
    + intros st l []. exists l, tt.
      split; [reflexivity|assumption].
    + reflexivity.
Defined.

(** *** The claim about the output of [ff_pcnf] *)

(** C1 does not hold of the code on the axiom that the grammar builds from
    the text [(= x)]: [to_tptp] reads the second argument of the equality,
    so the first debug message of [ff_pcnf] raises [IndexError], whatever
    the functions of [Utils] do and whatever the counter is; no axiom is
    returned. *)
Theorem ff_pcnf_raises_on_unary_equality :
  Grammar.p_axiom
    (Grammar.predicate "=" (Grammar.parameter_nonlogicals
                              (Grammar.nonlogicals_one "x")))
    = unary_equality /\
  (forall i, to_tptp (mkAx unary_equality i) = Raise IndexError) /\
  (forall (State : Type)
          (helper : Store.Stage -> Logical -> State ->
                    result (option Logical) * State)
          (i : Z) (w : World State),
     ff_pcnf helper (mkAx unary_equality i) w = (Raise IndexError, w)) /\
  (forall (i : Z) (c : Pipeline.Counters),
     Pipeline.ff_pcnf (mkAx unary_equality i) c = (Raise IndexError, c)).
Proof. split_and!; reflexivity. Qed.

(** *** [Pipeline.ff_pcnf] is [ff_pcnf] with the helpers of [Pipeline] *)

Lemma pipeline_is_an_instance (a : Ax) (c : Pipeline.Counters) :
  Pipeline.ff_pcnf a c =
  (fst (ff_pcnf pipeline_helper a
          (mkWorld (Pipeline.axiom_id c) (Pipeline.fresh_counter c))),
   Pipeline.mkCounters
     (axiom_id (snd (ff_pcnf pipeline_helper a
          (mkWorld (Pipeline.axiom_id c) (Pipeline.fresh_counter c)))))
     (state (snd (ff_pcnf pipeline_helper a
          (mkWorld (Pipeline.axiom_id c) (Pipeline.fresh_counter c)))))).
Proof.
  unfold Pipeline.ff_pcnf, ff_pcnf, stage, pipeline_helper, Axiom_init,
    Pipeline.substitute_functions, Pipeline.standardize_variables,
    Pipeline.push_negation, Pipeline.create_prenex,
    Pipeline.distribute_disjunctions, Pipeline.new_axiom.
  destruct c as [i n].
  cbn [Pipeline.axiom_id Pipeline.fresh_counter axiom_id state].
  destruct (Pipeline.debug a); [|reflexivity].
  destruct (Pipeline.dfs_functions (sentence a) n) as [s1 n1].
  cbn [fst snd axiom_id state sentence Pipeline.axiom_id
       Pipeline.fresh_counter].
  destruct (Pipeline.debug (mkAx s1 i)); [|reflexivity].
  cbn [fst snd axiom_id state sentence].
  destruct (Pipeline.debug (mkAx _ (i + 1))); [|reflexivity].
  cbn [fst snd axiom_id state sentence].
  destruct (Pipeline.debug (mkAx _ (i + 1 + 1))); [|reflexivity].
  cbn [fst snd axiom_id state sentence].
  destruct (Pipeline.debug (mkAx _ (i + 1 + 1 + 1))); [|reflexivity].
  cbn [fst snd axiom_id state sentence].
  destruct (Pipeline.debug (mkAx _ (i + 1 + 1 + 1 + 1))); reflexivity.
Qed.

End LoggedFacts.

(** ** The grammar's actions and the error report *)

Module GrammarFacts.
Import Parser Grammar.

Scheme d_parameter_mut := Induction for d_parameter Sort Prop
  with d_function_mut := Induction for d_function Sort Prop.

Scheme d_axiom_mut := Induction for d_axiom Sort Prop
  with d_axiom_list_mut := Induction for d_axiom_list Sort Prop.

Lemma p_nonlogicals_nonempty d : nonempty (p_nonlogicals d) = true.
Proof. destruct d; reflexivity. Qed.

Lemma forallb_map_Var (vs : list string) :
  forallb nonempty_term (map Var vs) = true.
Proof. induction vs; simpl; auto. Qed.

Lemma nonempty_app {A : Type} (l k : list A) :
  nonempty l = true -> nonempty (l ++ k) = true.
Proof. destruct l; [discriminate|reflexivity]. Qed.

Lemma p_parameter_nonempty d :
  nonempty (p_parameter d) = true /\ forallb nonempty_term (p_parameter d) = true.
Proof.
  induction d using d_parameter_mut
    with (P0 := fun f => nonempty_term (p_function f) = true).
  - destruct IHd0 as [_ H]. simpl. rewrite IHd, H. auto.
  - destruct IHd as [_ H]. simpl. split.
    + apply nonempty_app. destruct n; reflexivity.
    + rewrite forallb_app, forallb_map_Var, H. reflexivity.
  - simpl. rewrite IHd. auto.
  - simpl. split; [destruct n; reflexivity|apply forallb_map_Var].
  - destruct IHd as [H1 H2]. simpl. rewrite H1, H2. reflexivity.
Qed.

(** X14: Every sentence the grammar's actions build has no empty list: each
    predicate and each function has at least one argument, each
    conjunction and disjunction at least one term, and each quantifier
    binds at least one variable. *)
Theorem parsed_sentences_have_no_empty_list (d : d_axiom) :
  nonempty_lists (p_axiom d) = true.
Proof.
  induction d using d_axiom_mut
    with (P0 := fun l => nonempty (p_axiom_list l) = true /\
                         forallb nonempty_lists (p_axiom_list l) = true).
  - exact IHd.
  - simpl. rewrite p_nonlogicals_nonempty, IHd. reflexivity.
  - simpl. rewrite p_nonlogicals_nonempty, IHd. reflexivity.
  - destruct IHd as [H1 H2]. simpl. rewrite H1, H2. reflexivity.
  - destruct IHd as [H1 H2]. simpl. rewrite H1, H2. reflexivity.
  - simpl. rewrite IHd1, IHd2. reflexivity.
  - simpl. rewrite IHd1, IHd2. reflexivity.
  - destruct (p_parameter_nonempty p) as [H1 H2]. simpl. rewrite H1, H2.
    reflexivity.
  - destruct IHd0 as [_ H]. simpl. rewrite IHd, H. auto.
  - simpl. rewrite IHd. auto.
Qed.

Lemma concat_map_Var (vs : list string) :
  List.concat (map term_tokens (map Var vs)) = map (tok "NONLOGICAL") vs.
Proof. induction vs; simpl; [reflexivity|]. rewrite IHvs. reflexivity. Qed.

Lemma nonlogicals_tokens_names d :
  nonlogicals_tokens d = map (tok "NONLOGICAL") (p_nonlogicals d).
Proof. induction d; simpl; [rewrite IHd|]; reflexivity. Qed.

(** X15: The argument list that [p_parameter] builds holds the names and the
    function applications of the text, in the order of the text and
    nested as in the text: written back as tokens it is the token
    sequence that was read, however the rule [parameter] grouped the
    names. *)
Theorem parameter_keeps_the_tokens (d : d_parameter) :
  List.concat (map term_tokens (p_parameter d)) = parameter_tokens d.
Proof.
  induction d using d_parameter_mut
    with (P0 := fun f => term_tokens (p_function f) = function_tokens f).
  - simpl. rewrite IHd, IHd0. reflexivity.
  - simpl. rewrite map_app, concat_app, concat_map_Var, IHd,
      nonlogicals_tokens_names. reflexivity.
  - simpl. rewrite IHd, app_nil_r. reflexivity.
  - simpl. rewrite concat_map_Var, nonlogicals_tokens_names. reflexivity.
  - simpl. rewrite IHd. reflexivity.
Qed.

(** *** The lookahead of [p_error] *)

(** X16: The loop of [p_error] reads the shortest run of tokens that brings the
    count of open parentheses to zero: no shorter prefix of what it read
    balances, and if some prefix of the remaining input balances, the loop
    stops there at the latest and balanced. *)
Theorem lookahead_takes_shortest_balancing_prefix (lparens : nat)
    (rest : list LexToken) :
  (forall n, (n < length (fst (lookahead lparens rest)))%nat ->
     paren_depth lparens (take n (fst (lookahead lparens rest))) <> 0%nat) /\
  (forall n, paren_depth lparens (take n rest) = 0%nat ->
     paren_depth lparens (fst (lookahead lparens rest)) = 0%nat /\
     (length (fst (lookahead lparens rest)) <= n)%nat).
Proof.
  revert lparens. induction rest as [|t rest IH]; intros lparens.
  - assert (E : fst (lookahead lparens []) = []) by (destruct lparens; reflexivity).
    rewrite E. split; [simpl; intros; lia|].
    intros n H. rewrite take_nil in H. split; [exact H|simpl; lia].
  - destruct lparens as [|k].
    + simpl. split; [intros; lia|]. intros n _. split; [reflexivity|lia].
    + cbn [lookahead]. specialize (IH (paren_step (S k) t)).
      destruct (lookahead (paren_step (S k) t) rest) as [taken remaining].
      cbn [fst] in *. destruct IH as [IH1 IH2]. split.
      * intros [|n] Hn; [simpl; discriminate|].
        simpl in Hn. apply (IH1 n). lia.
      * intros [|n] Hn; [simpl in Hn; discriminate|].
        destruct (IH2 n Hn) as [H1 H2]. split; [exact H1|simpl; lia].
Qed.

(** *** When [p_error] raises *)

Lemma mapM_app {A B : Type} (f : A -> result B) (l k : list A) :
  mapM f (l ++ k) =
  do xs <- mapM f l ; do ys <- mapM f k ; Return (xs ++ ys).
Proof.
  induction l as [|x l IH]; simpl.
  - destruct (mapM f k); reflexivity.
  - destruct (f x) as [y|e]; simpl; [|reflexivity]. rewrite IH.
    destruct (mapM f l); simpl; [|reflexivity].
    destruct (mapM f k); reflexivity.
Qed.

Lemma mapM_tokens (toks : list LexToken) :
  mapM axiom_pieces (map sym_of_token toks)
    = Return (map (fun t => [tok_value t +:+ " "]) toks).
Proof. induction toks as [|t toks IH]; simpl; [|rewrite IH]; reflexivity. Qed.

Lemma axiom_pieces_printable x :
  (printable x = true -> exists ps, axiom_pieces x = Return ps) /\
  (printable x = false ->
     axiom_pieces x = Raise (TypeError "unsupported operand type(s) for +")).
Proof.
  unfold printable, axiom_pieces. destruct (sym_value x) as [s|items|].
  - split; [eexists; reflexivity|discriminate].
  - induction items as [|[s|l|] items [IH1 IH2]]; simpl.
    + split; [eexists; reflexivity|discriminate].
    + split.
      * intros H. destruct (IH1 H) as [ps ->]. eexists. reflexivity.
      * intros H. rewrite (IH2 H). reflexivity.
    + split; [discriminate|reflexivity].
    + split; [discriminate|reflexivity].
  - split; [eexists; reflexivity|discriminate].
Qed.

Lemma mapM_pieces_printable l :
  (forallb printable l = true -> exists ps, mapM axiom_pieces l = Return ps) /\
  (forallb printable l = false ->
     mapM axiom_pieces l = Raise (TypeError "unsupported operand type(s) for +")).
Proof.
  induction l as [|x l [IH1 IH2]]; simpl.
  - split; [eexists; reflexivity|discriminate].
  - destruct (axiom_pieces_printable x) as [Hx1 Hx2].
    destruct (printable x); simpl.
    + destruct (Hx1 eq_refl) as [ps ->]. simpl. split.
      * intros H. destruct (IH1 H) as [pss ->]. eexists. reflexivity.
      * intros H. rewrite (IH2 H). reflexivity.
    + rewrite (Hx2 eq_refl). split; [discriminate|reflexivity].
Qed.

(** X17: Given a token, [p_error] prints its diagnostic and returns exactly
    when every list among the values of the stack symbols from the
    topmost [axiom] on holds strings only; otherwise adding a blank to an
    element raises a [TypeError], and nothing else can make it raise. *)
Theorem p_error_raises_only_on_mixed_lists (p : LexToken)
    (symstack : list Symbol) (rest : list LexToken) (lexdata : string) :
  let stack := List.tl symstack in
  let current_axiom := drop (index_current_axiom stack) stack in
  (forallb printable current_axiom = true <->
     exists r, p_error (Some p) symstack rest lexdata = Return r) /\
  (forallb printable current_axiom = false <->
     p_error (Some p) symstack rest lexdata
       = Raise (TypeError "unsupported operand type(s) for +")).
Proof.
  cbv zeta. unfold p_error.
  set (stack := List.tl symstack).
  set (current_axiom := drop (index_current_axiom stack) stack).
  destruct (lookahead _ rest) as [taken remaining].
  rewrite mapM_app.
  change ([sym_of_token (mkTok (tok_type p) (underbar (tok_value p)) (lexpos p))]
          ++ map sym_of_token taken)
    with (map sym_of_token
            (mkTok (tok_type p) (underbar (tok_value p)) (lexpos p) :: taken)).
  rewrite mapM_tokens.
  destruct (mapM_pieces_printable current_axiom) as [H1 H2].
  destruct (forallb printable current_axiom).
  - destruct (H1 eq_refl) as [ps ->]. simpl. split; split; try discriminate.
    + intros _. eexists. reflexivity.
    + reflexivity.
  - rewrite (H2 eq_refl). simpl. split; split; try discriminate; try reflexivity.
    intros [r Hr]. discriminate.
Qed.

(** *** Line numbers *)

Lemma count_slice_le c s pos :
  (PyStr.count_char c (PyStr.slice_to s pos) <= PyStr.count_char c s)%nat.
Proof.
  unfold PyStr.slice_to. revert pos.
  induction s as [|d s IH]; intros [|pos]; simpl; try lia.
  specialize (IH pos). lia.
Qed.

Lemma count_slice_mono c s pos pos' :
  (pos <= pos')%nat ->
  (PyStr.count_char c (PyStr.slice_to s pos)
   <= PyStr.count_char c (PyStr.slice_to s pos'))%nat.
Proof.
  unfold PyStr.slice_to. revert pos pos'.
  induction s as [|d s IH]; intros [|pos] [|pos'] H; simpl; try lia.
  specialize (IH pos pos'). lia.
Qed.

Lemma slice_all s pos :
  (String.length s <= pos)%nat -> PyStr.slice_to s pos = s.
Proof.
  unfold PyStr.slice_to. revert pos.
  induction s as [|d s IH]; intros [|pos] H; simpl in *; try reflexivity; try lia.
  rewrite IH by lia. reflexivity.
Qed.

(** X18: [get_line_number] is the 1-based line of a position: at least 1, at
    most one more than the newlines of the text, never smaller at a later
    position, and constant from the end of the text on. The line that
    [p_error] prints for a token at the same position is one less. *)
Theorem line_numbers_count_newlines (s : string) (pos pos' : nat) :
  (1 <= get_line_number s pos <= PyStr.count_char nl s + 1)%nat /\
  ((pos <= pos')%nat -> (get_line_number s pos <= get_line_number s pos')%nat) /\
  ((String.length s <= pos)%nat ->
     get_line_number s pos = (PyStr.count_char nl s + 1)%nat) /\
  get_line_number s pos = S (p_error_line s pos).
Proof.
  unfold get_line_number, p_error_line. split_and!.
  - lia.
  - pose proof (count_slice_le nl s pos). unfold nl in *. lia.
  - intros H. pose proof (count_slice_mono nl s pos pos' H). unfold nl in *. lia.
  - intros H. rewrite slice_all by exact H. reflexivity.
  - lia.
Qed.

(** *** The claim about the error report *)



End GrammarFacts.
